(** * Agent orchestration core: a shallow embedding and its properties

    The development follows the TypeScript sources of the agent layer:
    [utils.ts] (errors, [withTimeout], [withRetry]), [CircuitBreaker.ts],
    [HealthMetrics.ts], [PriorityMessageQueue.ts], [MessageQueue.ts],
    [BaseAgent.ts], [OrchestratorAgent.ts], [AgentRegistry.ts], the
    version checks of [CompatibilityAgent.ts] and the build step of
    [DeploymentAgent.ts].

    Conventions.
    - A JavaScript [number] that counts things or holds a [Date.now()]
      reading is a [Z]; a number that may be fractional (a priority, a
      latency sample, a derived timeout) is a [Q].  Where a result
      depends on how doubles round (the rates of [HealthMetrics]) the
      arithmetic is a parameter of which nothing is assumed; elsewhere
      rounding, [NaN] and the infinities are outside the model.
    - An optional or possibly [undefined] value is an [option].
    - A method that mutates its object, reads the clock or may throw is
      a computation in the monad [M St], a state transformer over [St]
      that either returns or throws.
    - Everything an object does not own (the wall clock, timers, the
      console, the workers' own state) lives in an abstract environment
      and is reached through the functions passed to each section.
    - An asynchronous method is followed through its [await]s as if
      nothing else ran beside it.  Where it matters what else the event
      loop runs while a method waits ([CircuitBreaker.execute_shared],
      [OrchestratorAgent.processMessage]), that is a parameter too.
    - What the program does is what the emitted JavaScript does: type
      annotations are erased, a missing enum member reads as [undefined]
      and surplus call arguments are dropped. *)

From Stdlib Require Import ZArith QArith List String Lia Lqa Permutation Sorted.
From stdpp Require Import base gmap strings list pretty.
Import ListNotations.
Local Open Scope string_scope.
Local Open Scope list_scope.
Local Open Scope Z_scope.

(** ** Numbers *)

(** [a >= b], [a > b] and [a < b] on numbers. *)
Definition num_ge (a b : Q) : bool := Qle_bool b a.
Definition num_gt (a b : Q) : bool := negb (Qle_bool a b).
Definition num_lt (a b : Q) : bool := negb (Qle_bool b a).

(** [x && ...] on a number: [0] is falsy. *)
Definition truthy (x : Q) : bool := negb (Qeq_bool x 0).

(** ** Errors ([utils.ts]) *)

(** [enum AgentErrorType]: four members. *)
Inductive AgentErrorType : Set := VALIDATION | TIMEOUT | QUEUE_FULL | INTERNAL.

(** Member access [AgentErrorType.<key>] on the enum object; a key the
    enum does not declare reads as [undefined]. *)
Definition AgentErrorType_member (key : string) : option AgentErrorType :=
  if String.eqb key "VALIDATION" then Some VALIDATION
  else if String.eqb key "TIMEOUT" then Some TIMEOUT
  else if String.eqb key "QUEUE_FULL" then Some QUEUE_FULL
  else if String.eqb key "INTERNAL" then Some INTERNAL
  else None.

(** The values the agent layer throws.  [AgentError] has the two fields
    its constructor stores, [type] and [message]; [Error] and [TypeError]
    are the built-in classes; [ThrownUndefined] is [throw undefined]. *)
Inductive JsError : Type :=
| AgentError (type : option AgentErrorType) (message : string)
| Error (message : string)
| TypeError (message : string)
| ThrownUndefined.

(** [new AgentError(type, message)]: the class declares exactly two
    constructor parameters. *)
Definition new_AgentError (type : option AgentErrorType) (message : string) : JsError :=
  AgentError type message.

(** [new AgentError(type, message, extra)]: a call with a third argument.
    The constructor has no third parameter, so [extra] is not stored. *)
Definition new_AgentError3 {X : Type} (type : option AgentErrorType) (message : string)
    (extra : X) : JsError :=
  new_AgentError type message.

Definition error_type (e : JsError) : option AgentErrorType :=
  match e with AgentError ty _ => ty | _ => None end.

Definition error_message (e : JsError) : string :=
  match e with
  | AgentError _ m | Error m | TypeError m => m
  | ThrownUndefined => ""
  end.

(** ** Computations that return or throw *)

Inductive Outcome (A : Type) : Type :=
| Returned (value : A)
| Thrown (error : JsError).
Arguments Returned {A} value.
Arguments Thrown {A} error.

Definition M (St A : Type) : Type := St -> Outcome A * St.

#[global] Instance M_ret {St} : MRet (M St) := fun A a s => (Returned a, s).

#[global] Instance M_bind {St} : MBind (M St) := fun A B k m s =>
  match m s with
  | (Returned a, s') => k a s'
  | (Thrown e, s') => (Thrown e, s')
  end.

Definition throw {St A} (e : JsError) : M St A := fun s => (Thrown e, s).

(** [try { body } catch (error) { handler }] *)
Definition try_catch {St A} (body : M St A) (handler : JsError -> M St A) : M St A :=
  fun s =>
    match body s with
    | (Returned a, s') => (Returned a, s')
    | (Thrown e, s') => handler e s'
    end.

Definition modify {St} (f : St -> St) : M St unit := fun s => (Returned tt, f s).

(** Run a computation on the second component of a pair. *)
Definition on_snd {X St A} (m : M St A) : M (X * St) A :=
  fun '(x, s) => let '(r, s') := m s in (r, (x, s')).

(** ** Circuit breaker ([CircuitBreaker.ts]) *)

Module CircuitBreaker.

Inductive CircuitState : Set := CLOSED | OPEN | HALF_OPEN.

Record CircuitBreakerConfig : Type := {
  failureThreshold : Q;
  resetTimeout : Q;
  halfOpenTimeout : Q;
}.

(** The private fields of a [CircuitBreaker]. *)
Record t : Type := mk {
  config : CircuitBreakerConfig;
  state : CircuitState;
  failures : Z;
  lastFailureTime : Z;
  lastStateChange : Z;
}.

Definition set_state (v : CircuitState) (cb : t) : t :=
  mk (config cb) v (failures cb) (lastFailureTime cb) (lastStateChange cb).
Definition set_failures (v : Z) (cb : t) : t :=
  mk (config cb) (state cb) v (lastFailureTime cb) (lastStateChange cb).
Definition set_lastFailureTime (v : Z) (cb : t) : t :=
  mk (config cb) (state cb) (failures cb) v (lastStateChange cb).
Definition set_lastStateChange (v : Z) (cb : t) : t :=
  mk (config cb) (state cb) (failures cb) (lastFailureTime cb) v.

Definition CircuitState_eqb (a b : CircuitState) : bool :=
  match a, b with
  | CLOSED, CLOSED | OPEN, OPEN | HALF_OPEN, HALF_OPEN => true
  | _, _ => false
  end.

(** The reply of [getMetrics]. *)
Record Metrics : Type := {
  metrics_state : CircuitState;
  metrics_failures : Z;
  metrics_lastFailureTime : Z;
  metrics_lastStateChange : Z;
}.

Section Methods.
(** [World] is whatever the wrapped operation and the clock act on. *)
Context {World : Type}.
Variable Date_now : World -> Z * World.

Local Abbreviation St := (t * World)%type.

Definition now : M St Z :=
  fun '(cb, w) => let '(ms, w') := Date_now w in (Returned ms, (cb, w')).

Definition this : M St t := fun s => (Returned (fst s), s).

Definition assign (f : t -> t) : M St unit :=
  fun '(cb, w) => (Returned tt, (f cb, w)).

(** [new CircuitBreaker(config)] *)
Definition constructor (cfg : CircuitBreakerConfig) (w : World) : t * World :=
  let '(ms, w') := Date_now w in (mk cfg CLOSED 0 0 ms, w').

(** [transitionTo(newState)] *)
Definition transitionTo (newState : CircuitState) : M St unit :=
  assign (set_state newState);;
  ms ← now;
  assign (set_lastStateChange ms);;
  if CircuitState_eqb newState CLOSED then assign (set_failures 0) else mret tt.

(** [checkState()] *)
Definition checkState : M St unit :=
  ms ← now;
  cb ← this;
  match state cb with
  | OPEN =>
      if num_ge (inject_Z (ms - lastStateChange cb)) (resetTimeout (config cb))
      then transitionTo HALF_OPEN
      else throw (new_AgentError3 (AgentErrorType_member "OPERATION")
                    "Circuit breaker is OPEN"
                    (resetTimeout (config cb) - inject_Z (ms - lastStateChange cb))%Q)
  | HALF_OPEN =>
      if num_ge (inject_Z (ms - lastStateChange cb)) (halfOpenTimeout (config cb))
      then transitionTo CLOSED
      else mret tt
  | CLOSED => mret tt
  end.

(** [onSuccess()] *)
Definition onSuccess : M St unit :=
  cb ← this;
  (if CircuitState_eqb (state cb) HALF_OPEN then transitionTo CLOSED else mret tt);;
  assign (set_failures 0).

(** [onFailure()] *)
Definition onFailure : M St unit :=
  assign (fun cb => set_failures (failures cb + 1) cb);;
  ms ← now;
  assign (set_lastFailureTime ms);;
  cb ← this;
  if num_ge (inject_Z (failures cb)) (failureThreshold (config cb))
  then transitionTo OPEN
  else mret tt.

(** [execute(operation, context)].  The operation acts on the world
    only; the breaker's fields are private. *)
Definition execute {T : Type} (operation : M World T) (context : string) : M St T :=
  checkState;;
  try_catch
    (result ← on_snd operation;
     onSuccess;;
     mret result)
    (fun error =>
       onFailure;;
       throw (new_AgentError3 (AgentErrorType_member "OPERATION")
                ("Circuit breaker: " +:+ context +:+ " failed") error)).

(** [execute(operation, context)] on a breaker that others hold too.
    [operation] stands for all that runs between the return of
    [checkState] and the step that follows the settling of the
    operation's promise: the operation itself and whatever else the
    event loop runs while [execute] waits, other calls on this breaker
    among it. *)
Definition execute_shared {T : Type} (operation : M St T) (context : string) : M St T :=
  checkState;;
  try_catch
    (result ← operation;
     onSuccess;;
     mret result)
    (fun error =>
       onFailure;;
       throw (new_AgentError3 (AgentErrorType_member "OPERATION")
                ("Circuit breaker: " +:+ context +:+ " failed") error)).

(** [reset()] *)
Definition reset : M St unit :=
  assign (set_state CLOSED);;
  assign (set_failures 0);;
  assign (set_lastFailureTime 0);;
  ms ← now;
  assign (set_lastStateChange ms).
End Methods.

Definition getState (cb : t) : CircuitState := state cb.
Definition getFailureCount (cb : t) : Z := failures cb.
Definition getMetrics (cb : t) : Metrics :=
  {| metrics_state := state cb;
     metrics_failures := failures cb;
     metrics_lastFailureTime := lastFailureTime cb;
     metrics_lastStateChange := lastStateChange cb |}.

End CircuitBreaker.


(** ** Health metrics ([HealthMetrics.ts]) *)

Module HealthMetrics.

(** [interface HealthMetricsData], the reply of [getMetrics]. *)
Module Data.
Record t : Type := mk {
  messageCount : Z;
  errorCount : Z;
  successRate : Q;
  avgProcessingTime : Q;
  lastProcessingTime : Q;
  lastErrorTime : Z;
  lastSuccessTime : Z;
}.
End Data.

(** The private fields of a [HealthMetrics]. *)
Record t : Type := mk {
  messageCount : Z;
  errorCount : Z;
  processingTimes : list Q;
  maxSamples : Z;
  lastProcessingTime : Q;
  lastErrorTime : Z;
  lastSuccessTime : Z;
}.

(** [new HealthMetrics()]: the field initialisers. *)
Definition constructor : t := mk 0 0 [] 100 0%Q 0 0.

(** [Array.prototype.shift], the array that is left. *)
Definition shifted {A} (l : list A) : list A := tl l.

(** [addProcessingTime(time)] *)
Definition addProcessingTime (time : Q) (hm : t) : t :=
  let pushed := processingTimes hm ++ [time] in
  let kept :=
    if Z.of_nat (length pushed) >? maxSamples hm then shifted pushed else pushed in
  mk (messageCount hm) (errorCount hm) kept (maxSamples hm)
     (lastProcessingTime hm) (lastErrorTime hm) (lastSuccessTime hm).

Section Methods.
Context {World : Type}.
Variable Date_now : World -> Z * World.

Local Abbreviation St := (t * World)%type.

(** [recordSuccess(processingTime)] *)
Definition recordSuccess (processingTime : Q) : M St unit :=
  fun '(hm, w) =>
    let '(ms, w') := Date_now w in
    (Returned tt,
     (addProcessingTime processingTime
        (mk (messageCount hm + 1) (errorCount hm) (processingTimes hm)
            (maxSamples hm) processingTime (lastErrorTime hm) ms),
      w')).

(** [recordError(processingTime)] *)
Definition recordError (processingTime : Q) : M St unit :=
  fun '(hm, w) =>
    let '(ms, w') := Date_now w in
    (Returned tt,
     (addProcessingTime processingTime
        (mk (messageCount hm + 1) (errorCount hm + 1) (processingTimes hm)
            (maxSamples hm) processingTime ms (lastSuccessTime hm)),
      w')).
End Methods.

(** [processingTimes.reduce((a, b) => a + b, 0)] *)
Definition sum (l : list Q) : Q := fold_left Qplus l 0%Q.

(** [getMetrics()] *)
Definition getMetrics (hm : t) : Data.t :=
  let successRate :=
    if messageCount hm >? 0
    then (inject_Z (messageCount hm - errorCount hm) / inject_Z (messageCount hm) * 100)%Q
    else 100%Q in
  let avgProcessingTime :=
    if Z.of_nat (length (processingTimes hm)) >? 0
    then (sum (processingTimes hm) / inject_Z (Z.of_nat (length (processingTimes hm))))%Q
    else 0%Q in
  Data.mk (messageCount hm) (errorCount hm) successRate avgProcessingTime
    (lastProcessingTime hm) (lastErrorTime hm) (lastSuccessTime hm).

(** [reset()] *)
Definition reset (hm : t) : t := mk 0 0 [] (maxSamples hm) 0%Q 0 0.

(** The reply of [getMetrics] with its two computed fields in the
    numbers of the runtime. *)
Module Reply.
Record t (number : Type) : Type := mk {
  messageCount : Z;
  errorCount : Z;
  successRate : number;
  avgProcessingTime : number;
  lastProcessingTime : Q;
  lastErrorTime : Z;
  lastSuccessTime : Z;
}.
Arguments mk {number}.
Arguments messageCount {number}.
Arguments errorCount {number}.
Arguments successRate {number}.
Arguments avgProcessingTime {number}.
Arguments lastProcessingTime {number}.
Arguments lastErrorTime {number}.
Arguments lastSuccessTime {number}.
End Reply.

(** [getMetrics()] in the arithmetic of the runtime.  [number] is the
    type of its numbers, [double q] the number that a count, a sample
    or a literal [q] is, and [plus], [divide] and [times] are [+], [/]
    and [*], each of which rounds its result; nothing is assumed of
    them, nor that a result is finite.  The counters are whole numbers,
    whose difference and comparison with 0 are exact.  [sum] and
    [getMetrics] above are the case in which no result needs
    rounding. *)
Section Arithmetic.
Context {number : Type}.
Variable double : Q -> number.
Variables plus divide times : number -> number -> number.

(** [processingTimes.reduce((a, b) => a + b, 0)] *)
Definition reduce_plus (l : list Q) : number :=
  fold_left (fun a b => plus a (double b)) l (double 0%Q).

Definition getMetrics_with (hm : t) : Reply.t number :=
  let successRate :=
    if messageCount hm >? 0
    then times (divide (double (inject_Z (messageCount hm - errorCount hm)))
                  (double (inject_Z (messageCount hm)))) (double 100%Q)
    else double 100%Q in
  let avgProcessingTime :=
    if Z.of_nat (length (processingTimes hm)) >? 0
    then divide (reduce_plus (processingTimes hm))
           (double (inject_Z (Z.of_nat (length (processingTimes hm)))))
    else double 0%Q in
  Reply.mk (messageCount hm) (errorCount hm) successRate avgProcessingTime
    (lastProcessingTime hm) (lastErrorTime hm) (lastSuccessTime hm).
End Arithmetic.

End HealthMetrics.

(** ** Messages ([types.ts]) *)

(** A dynamically typed value, as far as the message schema tells
    values apart. *)
Inductive JsValue : Type :=
| JsUndefined
| JsNull
| JsBoolean (b : bool)
| JsNumber (q : Q)
| JsNaN
| JsString (s : string)
| JsObject (json : string).

(** [type BaseAgentMessage = z.infer<typeof BaseMessageSchema>]; the
    orchestrator's message type has the same fields. *)
Record BaseAgentMessage : Type := mkMessage {
  id : string;
  type : string;
  targetAgent : string;
  payload : JsValue;
  priority : option Q;
  timestamp : option Q;
}.

(** [interface QueueItem] *)
Record QueueItem : Type := mkQueueItem {
  message : BaseAgentMessage;
  addedAt : Z;
}.

(** [enum AgentState] *)
Inductive AgentState : Set := IDLE | WORKING | ERROR.

Definition AgentState_eqb (a b : AgentState) : bool :=
  match a, b with
  | IDLE, IDLE | WORKING, WORKING | ERROR, ERROR => true
  | _, _ => false
  end.

(** The input of a schema: any value, or an object whose six message
    keys hold the given values ([JsUndefined] for an absent key). *)
Record RawMessage : Type := mkRaw {
  raw_id : JsValue;
  raw_type : JsValue;
  raw_targetAgent : JsValue;
  raw_payload : JsValue;
  raw_priority : JsValue;
  raw_timestamp : JsValue;
}.

Inductive Unknown : Type :=
| NotAnObject (v : JsValue)
| ObjectWith (fields : RawMessage).

(** [z.string()] *)
Definition z_string (v : JsValue) : option string :=
  match v with JsString s => Some s | _ => None end.

(** [z.number().optional()]: [undefined] or a number other than [NaN]. *)
Definition z_number_optional (v : JsValue) : option (option Q) :=
  match v with
  | JsUndefined => Some None
  | JsNumber q => Some (Some q)
  | _ => None
  end.

(** [BaseMessageSchema.parse]; [None] stands for a thrown [ZodError].
    [OrchestratorMessageSchema] extends it with the same three keys at
    the same types, so it accepts the same inputs. *)
Definition BaseMessageSchema_parse (input : Unknown) : option BaseAgentMessage :=
  match input with
  | NotAnObject _ => None
  | ObjectWith raw =>
      match z_string (raw_id raw), z_string (raw_type raw),
            z_string (raw_targetAgent raw),
            z_number_optional (raw_priority raw),
            z_number_optional (raw_timestamp raw) with
      | Some i, Some ty, Some target, Some prio, Some ts =>
          Some (mkMessage i ty target (raw_payload raw) prio ts)
      | _, _, _, _, _ => None
      end
  end.

Definition OrchestratorMessageSchema_parse := BaseMessageSchema_parse.

(** The object a typed message is at run time. *)
Definition to_unknown (m : BaseAgentMessage) : Unknown :=
  let opt o := match o with Some q => JsNumber q | None => JsUndefined end in
  ObjectWith (mkRaw (JsString (id m)) (JsString (type m)) (JsString (targetAgent m))
                (payload m) (opt (priority m)) (opt (timestamp m))).

(** [Array.prototype.sort(compare)]: a stable sort; an element stays in
    front of a later one unless [compare] puts it strictly after. *)
Fixpoint Array_insert {A} (compare : A -> A -> Z) (x : A) (l : list A) : list A :=
  match l with
  | [] => [x]
  | y :: ys => if compare x y <=? 0 then x :: y :: ys else y :: Array_insert compare x ys
  end.

Fixpoint Array_sort {A} (compare : A -> A -> Z) (l : list A) : list A :=
  match l with
  | [] => []
  | x :: xs => Array_insert compare x (Array_sort compare xs)
  end.

(** [Array.prototype.shift]: the removed head, if any, and the rest. *)
Definition Array_shift {A} (l : list A) : option A * list A :=
  match l with
  | [] => (None, [])
  | x :: xs => (Some x, xs)
  end.

(** [Array.prototype.findIndex] *)
Fixpoint findIndex {A} (p : A -> bool) (l : list A) : Z :=
  match l with
  | [] => -1
  | x :: xs => if p x then 0 else
      let i := findIndex p xs in if i =? -1 then -1 else i + 1
  end.

(** [Array.prototype.findLastIndex] *)
Fixpoint findLastIndex {A} (p : A -> bool) (l : list A) : Z :=
  match l with
  | [] => -1
  | x :: xs =>
      let i := findLastIndex p xs in
      if i =? -1 then (if p x then 0 else -1) else i + 1
  end.

(** [Array.prototype.splice(start, 0, item)] for [0 <= start]. *)
Definition splice_in {A} (start : Z) (item : A) (l : list A) : list A :=
  firstn (Z.to_nat start) l ++ item :: skipn (Z.to_nat start) l.

(** ** The orchestrator's queue ([PriorityMessageQueue.ts]) *)

Module PriorityMessageQueue.

(** [interface PriorityQueues] and the [_isProcessing] flag. *)
Record t : Type := mk {
  high : list QueueItem;
  normal : list QueueItem;
  low : list QueueItem;
  _isProcessing : bool;
}.

Definition constructor : t := mk [] [] [] false.

(** [message.priority && message.priority > bound] *)
Definition priority_above (bound : Q) (m : BaseAgentMessage) : bool :=
  match priority m with
  | Some p => truthy p && num_gt p bound
  | None => false
  end.

Definition sortByTimestamp (a b : QueueItem) : Z := addedAt a - addedAt b.

(** [sortQueues()] *)
Definition sortQueues (q : t) : t :=
  mk (Array_sort sortByTimestamp (high q))
     (Array_sort sortByTimestamp (normal q))
     (Array_sort sortByTimestamp (low q))
     (_isProcessing q).

(** The body of [enqueue(message)] once [Date.now()] has returned [ms]. *)
Definition enqueue_at (ms : Z) (m : BaseAgentMessage) (q : t) : t :=
  let queueItem := mkQueueItem m ms in
  let pushed :=
    if priority_above 5 m
    then mk (high q ++ [queueItem]) (normal q) (low q) (_isProcessing q)
    else if priority_above 2 m
    then mk (high q) (normal q ++ [queueItem]) (low q) (_isProcessing q)
    else mk (high q) (normal q) (low q ++ [queueItem]) (_isProcessing q) in
  sortQueues pushed.

(** [dequeueItem()] *)
Definition dequeueItem (q : t) : option QueueItem * t :=
  if 0 <? Z.of_nat (length (high q)) then
    let '(item, rest) := Array_shift (high q) in
    (item, mk rest (normal q) (low q) (_isProcessing q))
  else if 0 <? Z.of_nat (length (normal q)) then
    let '(item, rest) := Array_shift (normal q) in
    (item, mk (high q) rest (low q) (_isProcessing q))
  else
    let '(item, rest) := Array_shift (low q) in
    (item, mk (high q) (normal q) rest (_isProcessing q)).

(** [dequeue()]: [item?.message] *)
Definition dequeue (q : t) : option BaseAgentMessage * t :=
  let '(item, q') := dequeueItem q in (message <$> item, q').

(** [clear()] *)
Definition clear (q : t) : t := mk [] [] [] (_isProcessing q).

(** [get size()] *)
Definition size (q : t) : Z :=
  Z.of_nat (length (high q)) + Z.of_nat (length (normal q)) + Z.of_nat (length (low q)).

(** [get isProcessing()] and [set isProcessing(value)] *)
Definition isProcessing (q : t) : bool := _isProcessing q.
Definition set_isProcessing (value : bool) (q : t) : t :=
  mk (high q) (normal q) (low q) value.

(** [getStats()] *)
Record Stats : Type := {
  total : Z;
  stats_high : Z;
  stats_normal : Z;
  stats_low : Z;
}.

Definition getStats (q : t) : Stats :=
  {| total := size q;
     stats_high := Z.of_nat (length (high q));
     stats_normal := Z.of_nat (length (normal q));
     stats_low := Z.of_nat (length (low q)) |}.

Section Methods.
Context {World : Type}.
Variable Date_now : World -> Z * World.

(** [enqueue(message)] *)
Definition enqueue (m : BaseAgentMessage) : M (t * World) unit :=
  fun '(q, w) =>
    let '(ms, w') := Date_now w in
    (Returned tt, (enqueue_at ms m q, w')).
End Methods.

End PriorityMessageQueue.

(** ** The per-agent queue ([MessageQueue.ts]) *)

Module MessageQueue.

(** What the constructor receives as [processCallback]: a function, or
    a value that is not callable. *)
Inductive Callback (World : Type) : Type :=
| Function (f : BaseAgentMessage -> M World unit)
| NotCallable (v : JsValue).
Arguments Function {World} f.
Arguments NotCallable {World} v.

Record t (World : Type) : Type := mk {
  queue : list BaseAgentMessage;
  processing : bool;
  maxSize : Z;
  processCallback : Callback World;
}.
Arguments mk {World}.
Arguments queue {World}.
Arguments processing {World}.
Arguments maxSize {World}.
Arguments processCallback {World}.

Section Methods.
Context {World : Type}.

Local Abbreviation St := (t World * World)%type.

(** [new MessageQueue(processCallback, maxSize = 100)] *)
Definition constructor (callback : Callback World) (size : option Z) : t World :=
  mk [] false (default 100 size) callback.

Definition this : M St (t World) := fun s => (Returned (fst s), s).

Definition set_queue (v : list BaseAgentMessage) : M St unit :=
  fun '(q, w) => (Returned tt, (mk v (processing q) (maxSize q) (processCallback q), w)).

(** [setProcessing(state)] *)
Definition setProcessing (v : bool) : M St unit :=
  fun '(q, w) => (Returned tt, (mk (queue q) v (maxSize q) (processCallback q), w)).

(** [get size()], [get length()], [get isProcessing()] *)
Definition size (q : t World) : Z := Z.of_nat (length (queue q)).
Definition length_ (q : t World) : Z := size q.
Definition isProcessing (q : t World) : bool := processing q.

(** [m.priority ?? 0] *)
Definition priority_or_0 (m : BaseAgentMessage) : Q := default 0%Q (priority m).

(** [dequeue()] *)
Definition dequeue : M St (option BaseAgentMessage) :=
  q ← this;
  if Z.of_nat (length (queue q)) =? 0 then mret None
  else
    let '(head, rest) := Array_shift (queue q) in
    set_queue rest;;
    mret head.

(** [this.processCallback(message)] *)
Definition call_processCallback (m : BaseAgentMessage) : M St unit :=
  q ← this;
  match processCallback q with
  | Function f => on_snd (f m)
  | NotCallable _ => throw (TypeError "this.processCallback is not a function")
  end.

(** [processNextMessage()].  Every call that goes on takes one message
    off the queue, so the recursion is on a bound of the queue length. *)
Fixpoint processNextMessage_upto (bound : nat) : M St unit :=
  q ← this;
  if Z.of_nat (length (queue q)) =? 0 then setProcessing false
  else
    match bound with
    | O => mret tt
    | S bound' =>
        setProcessing true;;
        next ← dequeue;
        match next with
        | Some m =>
            try_catch (call_processCallback m)
              (fun error => setProcessing false;; throw error)
        | None => mret tt
        end;;
        processNextMessage_upto bound'
    end.

Definition processNextMessage : M St unit :=
  q ← this;
  processNextMessage_upto (length (queue q)).

(** [enqueue(message)] *)
Definition enqueue (m : BaseAgentMessage) : M St unit :=
  q ← this;
  if Z.of_nat (length (queue q)) >=? maxSize q
  then throw (new_AgentError (AgentErrorType_member "QUEUE_FULL") "Queue is full")
  else
    let prio := priority_or_0 m in
    let insertIndex := findIndex (fun x => num_lt (priority_or_0 x) prio) (queue q) in
    (if insertIndex =? -1 then
       let lastSamePriorityIndex :=
         findLastIndex (fun x => Qeq_bool (priority_or_0 x) prio) (queue q) in
       if lastSamePriorityIndex =? -1
       then set_queue (queue q ++ [m])
       else set_queue (splice_in (lastSamePriorityIndex + 1) m (queue q))
     else set_queue (splice_in insertIndex m (queue q)));;
    q' ← this;
    if negb (processing q') then processNextMessage else mret tt.

(** [clear()] *)
Definition clear : M St unit :=
  fun '(q, w) => (Returned tt, (mk [] false (maxSize q) (processCallback q), w)).
End Methods.

End MessageQueue.

(** ** Timeout and retry helpers ([utils.ts]) *)

Module Utils.

(** [error instanceof Error ? error : new Error(String(error))] *)
Definition as_Error (error : JsError) : JsError :=
  match error with
  | ThrownUndefined => Error "undefined"
  | _ => error
  end.

Section Helpers.
Context {St : Type}.
(** [await new Promise(resolve => setTimeout(resolve, ms))] *)
Variable sleep : Z -> St -> St.
(** [timer_wins ms before after]: a timer of [ms] milliseconds armed in
    [before] fires before the raced promise settles in [after]. *)
Variable timer_wins : Z -> St -> St -> bool.

(** [withTimeout(promise, timeoutMs, operationName)].  The promise is
    not cancelled when the timer wins: its effects stay, its result is
    dropped. *)
Definition withTimeout {T} (promise : M St T) (timeoutMs : Z) (operationName : string)
    : M St T :=
  fun s =>
    let '(r, s') := promise s in
    if timer_wins timeoutMs s s'
    then (Thrown (new_AgentError (AgentErrorType_member "TIMEOUT")
                    (operationName +:+ " timed out after " +:+ pretty timeoutMs +:+ "ms")),
          s')
    else (r, s').

(** The [for] loop of [withRetry], entered with the current [attempt] and
    [lastError]; [turns] bounds the passes that are left and is
    [maxRetries + 1 - attempt] when the loop is entered from [withRetry]. *)
Fixpoint withRetry_loop {T} (operation : M St T) (maxRetries baseDelayMs : Z)
    (operationName : string) (turns : nat) (attempt : Z) (lastError : JsError)
    : M St T :=
  match turns with
  | O => throw lastError
  | S turns' =>
      if attempt <=? maxRetries then
        try_catch operation
          (fun error =>
             let lastError := as_Error error in
             if attempt =? maxRetries
             then throw (new_AgentError3 (AgentErrorType_member "OPERATION")
                           ("Operation " +:+ operationName +:+ " failed after "
                              +:+ pretty maxRetries +:+ " retries")
                           lastError)
             else
               let delayMs := baseDelayMs * 2 ^ attempt in
               modify (sleep delayMs);;
               withRetry_loop operation maxRetries baseDelayMs operationName
                 turns' (attempt + 1) lastError)
      else throw lastError
  end.

(** [withRetry(operation, maxRetries, baseDelayMs, operationName)] for a
    whole number [maxRetries]. *)
Definition withRetry {T} (operation : M St T) (maxRetries baseDelayMs : Z)
    (operationName : string) : M St T :=
  withRetry_loop operation maxRetries baseDelayMs operationName
    (Z.to_nat (maxRetries + 1)) 0 ThrownUndefined.
End Helpers.

End Utils.

(** ** Agents ([types.ts], [BaseAgent.ts]) *)

(** [interface AgentConfig]; [None] is an absent key. *)
Record AgentConfig : Type := mkAgentConfig {
  name : string;
  maxRetries : option Z;
  maxQueueSize : option Z;
  maxConcurrentTasks : option Z;
  timeoutMs : option Z;
}.

(** [{ ...baseConfig, ...config }] with the defaults of the base
    constructor: every key is present afterwards. *)
Definition with_defaults (config : AgentConfig) : AgentConfig :=
  mkAgentConfig (name config)
    (Some (default 3 (maxRetries config)))
    (Some (default 1000 (maxQueueSize config)))
    (Some (default 1 (maxConcurrentTasks config)))
    (Some (default 30000 (timeoutMs config))).

(** What [interface Agent] lets a holder read from a worker. *)
Record Agent : Type := mkAgent {
  getName : string;
  getState : AgentState;
  getLastActiveTime : Z;
}.

Module BaseAgent.

Record t (World : Type) : Type := mk {
  agent_name : string;
  state : AgentState;
  lastActiveTime : Z;
  agent_maxRetries : Z;
  messageQueue : MessageQueue.t World;
  config : AgentConfig;
}.
Arguments mk {World}.
Arguments agent_name {World}.
Arguments state {World}.
Arguments lastActiveTime {World}.
Arguments agent_maxRetries {World}.
Arguments messageQueue {World}.
Arguments config {World}.

Section Methods.
Context {World : Type}.
Variable Date_now : World -> Z * World.
(** The text of a [ZodError]. *)
Variable ZodError_message : Unknown -> string.

Local Abbreviation St := (t World * World)%type.

(** [constructor(config)].  The queue is built by
    [new MessageQueue(this.config.maxQueueSize)]: the number is the
    first argument, the queue's [processCallback], and no second
    argument is given. *)
Definition constructor (cfg : AgentConfig) (w : World) : t World * World :=
  let '(ms, w') := Date_now w in
  let merged := with_defaults cfg in
  (mk (name cfg) IDLE ms (default 3 (maxRetries merged))
      (MessageQueue.constructor
         (MessageQueue.NotCallable (JsNumber (inject_Z (default 1000 (maxQueueSize merged)))))
         None)
      merged,
   w').

Definition this : M St (t World) := fun s => (Returned (fst s), s).

(** Run a method of the agent's queue. *)
Definition on_messageQueue {A} (m : M (MessageQueue.t World * World) A) : M St A :=
  fun '(a, w) =>
    let '(r, (q', w')) := m (messageQueue a, w) in
    (r, (mk (agent_name a) (state a) (lastActiveTime a) (agent_maxRetries a) q' (config a),
         w')).

(** [setState(state)] *)
Definition setState (v : AgentState) : M St unit :=
  fun '(a, w) =>
    let '(ms, w') := Date_now w in
    (Returned tt,
     (mk (agent_name a) v ms (agent_maxRetries a) (messageQueue a) (config a), w')).

(** [validateMessage(message)] *)
Definition validateMessage (input : Unknown) : M St BaseAgentMessage :=
  match BaseMessageSchema_parse input with
  | Some m => mret m
  | None =>
      throw (new_AgentError (AgentErrorType_member "VALIDATION")
               ("Invalid message format: " +:+ ZodError_message input))
  end.

(** [enqueueMessage(message)] *)
Definition enqueueMessage (input : Unknown) : M St unit :=
  validatedMessage ← validateMessage input;
  on_messageQueue (MessageQueue.enqueue validatedMessage).


(** [reset()] *)
Definition reset : M St unit :=
  fun '(a, w) =>
    let '(ms, w') := Date_now w in
    on_messageQueue MessageQueue.clear
      (mk (agent_name a) IDLE ms (agent_maxRetries a) (messageQueue a) (config a), w').
End Methods.

(** [error instanceof AgentError ? error : new AgentError(INTERNAL,
    error instanceof Error ? error.message : "Unknown error occurred")] *)
Definition as_AgentError (error : JsError) : JsError :=
  match error with
  | AgentError _ _ => error
  | Error message | TypeError message =>
      new_AgentError (AgentErrorType_member "INTERNAL") message
  | ThrownUndefined =>
      new_AgentError (AgentErrorType_member "INTERNAL") "Unknown error occurred"
  end.

(** [`${this.config.timeoutMs}`] *)
Definition template_number (v : option Z) : string :=
  match v with
  | Some n => pretty n
  | None => "undefined"
  end.

Section Processing.
Context {World : Type}.
Variable Date_now : World -> Z * World.
(** [processMessage(message)] of the subclass; it runs on the agent. *)
Variable processMessage : BaseAgentMessage -> M (t World * World) unit.
(** [timer_wins ms before after]: a timer of [ms] milliseconds armed in
    [before] fires before the raced promise settles in [after]; an
    absent delay is a delay of 0. *)
Variable timer_wins : Z -> t World * World -> t World * World -> bool.
(** [await new Promise(resolve => setTimeout(resolve, ms))] *)
Variable sleep : Z -> World -> World.

Local Abbreviation St := (t World * World)%type.

(** [Promise.race([this.processMessage(message), timeoutPromise])
      .finally(() => { this.messageQueue.setProcessing(false); })].
    What [processMessage] did stays when the timer wins. *)
Definition race_with_timeout (message : BaseAgentMessage) : M St unit :=
  fun s =>
    let '(r, s') := processMessage message s in
    let r' :=
      if timer_wins (default 0 (timeoutMs (config (fst s)))) s s'
      then Thrown (new_AgentError (AgentErrorType_member "TIMEOUT")
                     ("Message processing timed out after "
                        +:+ template_number (timeoutMs (config (fst s'))) +:+ "ms"))
      else r in
    let '(_, s'') := on_messageQueue (MessageQueue.setProcessing false) s' in
    (r', s'').

(** [processNextMessage()] *)
Definition processNextMessage : M St unit :=
  try_catch
    (message ← on_messageQueue MessageQueue.dequeue;
     match message with
     | None => setState Date_now IDLE
     | Some m =>
         setState Date_now WORKING;;
         on_messageQueue (MessageQueue.setProcessing true);;
         try_catch
           (race_with_timeout m;;
            setState Date_now IDLE)
           (fun error =>
              setState Date_now ERROR;;
              throw (as_AgentError error))
     end)
    (fun error =>
       on_messageQueue (MessageQueue.setProcessing false);;
       setState Date_now ERROR;;
       throw error).

(** The [while] loop of [handleMessage], entered with the current
    [retryCount]; [turns] bounds the passes that are left. *)
Fixpoint handleMessage_loop (turns : nat) (message : BaseAgentMessage) (retryCount : Z)
    : M St unit :=
  match turns with
  | O => mret tt
  | S turns' =>
      a ← this;
      if retryCount <=? agent_maxRetries a then
        try_catch
          (setState Date_now WORKING;;
           race_with_timeout message;;
           setState Date_now IDLE)
          (fun error =>
             setState Date_now ERROR;;
             let retryCount := retryCount + 1 in
             a' ← this;
             if retryCount >? agent_maxRetries a'
             then throw (as_AgentError error)
             else
               on_snd (modify (sleep (1000 * retryCount)));;
               handleMessage_loop turns' message retryCount)
      else mret tt
  end.

(** [handleMessage(message)]: the loop makes at most
    [maxRetries + 1] passes as long as [processMessage] leaves
    [this.maxRetries] alone. *)
Definition handleMessage (message : BaseAgentMessage) : M St unit :=
  a ← this;
  handleMessage_loop (Z.to_nat (agent_maxRetries a + 1)) message 0.
End Processing.

End BaseAgent.

(** ** The orchestrator ([OrchestratorAgent.ts]) *)

(** What the orchestrator reaches outside its own fields. *)
Record Runtime (Env : Type) : Type := mkRuntime {
  Date_now : Env -> Z * Env;
  sleep : Z -> Env -> Env;
  timer_wins : Z -> Env -> Env -> bool;
  console_warn : string -> Env -> Env;
  console_error : string -> Env -> Env;
  (** [agent.processMessage(message)] of a registered worker *)
  worker_processMessage : Agent -> BaseAgentMessage -> M Env unit;
  ZodError_message : Unknown -> string;
}.
Arguments Date_now {Env}.
Arguments sleep {Env}.
Arguments timer_wins {Env}.
Arguments console_warn {Env}.
Arguments console_error {Env}.
Arguments worker_processMessage {Env}.
Arguments ZodError_message {Env}.

Module OrchestratorAgent.

(** [interface OrchestratorConfig extends AgentConfig] *)
Record OrchestratorConfig : Type := mkConfig {
  base : AgentConfig;
  maxConcurrentMessages : option Z;
  routingTimeout : option Z;
  retryDelay : option Z;
}.

(** [interface AgentStateInfo] *)
Record AgentStateInfo : Type := mkInfo {
  state : AgentState;
  lastActiveTime : Z;
  errorCount : Z;
  circuitBreaker : CircuitBreaker.t;
  healthMetrics : HealthMetrics.t;
}.

(** The fields the orchestrator's own methods use; [messageQueue] is the
    [PriorityMessageQueue] its constructor installs. *)
Record t : Type := mk {
  config : OrchestratorConfig;
  agents : gmap string Agent;
  agentStates : gmap string AgentStateInfo;
  messageQueue : PriorityMessageQueue.t;
}.

(** A loop that has run to its end, or one that is waiting at an
    [await] with work left. *)
Inductive Progress : Set := Finished | Suspended.

(** Where a drain loop stands when the method that may have started it
    returns: none was started, it is over already, or it waits at
    [await this.messageQueue.dequeue()] for what it took off the
    queue. *)
Inductive Loop : Type :=
| NotStarted
| Over
| Waiting (next : option BaseAgentMessage).

Definition set_agents (v : gmap string Agent) (o : t) : t :=
  mk (config o) v (agentStates o) (messageQueue o).
Definition set_agentStates (v : gmap string AgentStateInfo) (o : t) : t :=
  mk (config o) (agents o) v (messageQueue o).
Definition set_messageQueue (v : PriorityMessageQueue.t) (o : t) : t :=
  mk (config o) (agents o) (agentStates o) v.

Definition set_state (v : AgentState) (i : AgentStateInfo) : AgentStateInfo :=
  mkInfo v (lastActiveTime i) (errorCount i) (circuitBreaker i) (healthMetrics i).
Definition set_lastActiveTime (v : Z) (i : AgentStateInfo) : AgentStateInfo :=
  mkInfo (state i) v (errorCount i) (circuitBreaker i) (healthMetrics i).
Definition set_errorCount (v : Z) (i : AgentStateInfo) : AgentStateInfo :=
  mkInfo (state i) (lastActiveTime i) v (circuitBreaker i) (healthMetrics i).
Definition set_circuitBreaker (v : CircuitBreaker.t) (i : AgentStateInfo) : AgentStateInfo :=
  mkInfo (state i) (lastActiveTime i) (errorCount i) v (healthMetrics i).
Definition set_healthMetrics (v : HealthMetrics.t) (i : AgentStateInfo) : AgentStateInfo :=
  mkInfo (state i) (lastActiveTime i) (errorCount i) (circuitBreaker i) v.

Section Methods.
Context {Env : Type}.
Variable rt : Runtime Env.

Local Abbreviation St := (t * Env)%type.

(** [constructor(config)] *)
Definition constructor (cfg : OrchestratorConfig) : t :=
  mk (mkConfig (with_defaults (base cfg)) (maxConcurrentMessages cfg)
        (routingTimeout cfg) (retryDelay cfg))
     ∅ ∅ PriorityMessageQueue.constructor.

Definition this : M St t := fun s => (Returned (fst s), s).
Definition assign (f : t -> t) : M St unit := fun '(o, e) => (Returned tt, (f o, e)).
Definition now : M St Z := on_snd (fun e => let '(ms, e') := Date_now rt e in (Returned ms, e')).
Definition warn (text : string) : M St unit := on_snd (modify (console_warn rt text)).
Definition log_error (text : string) : M St unit := on_snd (modify (console_error rt text)).

(** The clock, the timers and the race as the helpers see them. *)
Definition Date_now_St (s : St) : Z * St :=
  let '(ms, e') := Date_now rt (snd s) in (ms, (fst s, e')).
Definition sleep_St (ms : Z) (s : St) : St := (fst s, sleep rt ms (snd s)).
Definition timer_wins_St (ms : Z) (before after : St) : bool :=
  timer_wins rt ms (snd before) (snd after).

(** An assignment to a field of the [stateInfo] object of [agentName]. *)
Definition update_info (agentName : string) (f : AgentStateInfo -> AgentStateInfo)
    : M St unit :=
  assign (fun o => set_agentStates (alter f agentName (agentStates o)) o).

(** [registerAgent(agent, messageTypes)] *)
Definition registerAgent (agent : Agent) (messageTypes : list string) : M St unit :=
  let agentName := getName agent in
  o ← this;
  match agents o !! agentName with
  | Some _ =>
      throw (new_AgentError (AgentErrorType_member "VALIDATION")
               ("Agent with name " +:+ agentName +:+ " is already registered"))
  | None =>
      let circuitConfig :=
        {| CircuitBreaker.failureThreshold :=
             inject_Z (default 3 (maxRetries (base (config o))));
           CircuitBreaker.resetTimeout :=
             inject_Z (default 30000 (timeoutMs (base (config o))));
           CircuitBreaker.halfOpenTimeout :=
             (inject_Z (default 30000%Z (timeoutMs (base (config o)))) / 2)%Q |} in
      assign (fun o => set_agents (<[agentName := agent]> (agents o)) o);;
      ms ← now;
      breaker ← on_snd (fun e =>
                  let '(cb, e') := CircuitBreaker.constructor (Date_now rt) circuitConfig e in
                  (Returned cb, e'));
      assign (fun o =>
        set_agentStates
          (<[agentName := mkInfo IDLE ms 0 breaker HealthMetrics.constructor]>
             (agentStates o)) o)
  end.

(** [unregisterAgent(agentName)] *)
Definition unregisterAgent (agentName : string) : M St unit :=
  o ← this;
  match agents o !! agentName with
  | None =>
      throw (new_AgentError (AgentErrorType_member "VALIDATION")
               ("Agent " +:+ agentName +:+ " is not registered"))
  | Some _ =>
      assign (fun o => set_agents (delete agentName (agents o)) o);;
      assign (fun o => set_agentStates (delete agentName (agentStates o)) o)
  end.

(** [getAgent(agentName)] *)
Definition getAgent (agentName : string) (o : t) : option Agent := agents o !! agentName.

(** [getAgentState(agentName)] *)
Definition getAgentState (agentName : string) : M St AgentState :=
  o ← this;
  match agentStates o !! agentName with
  | None =>
      throw (new_AgentError (AgentErrorType_member "VALIDATION")
               ("Agent " +:+ agentName +:+ " is not registered"))
  | Some stateInfo => mret (state stateInfo)
  end.

(** [isAgentHealthy(agentName)] *)
Definition isAgentHealthy (agentName : string) : M St bool :=
  o ← this;
  match agentStates o !! agentName with
  | None => mret false
  | Some stateInfo =>
      let circuitState := CircuitBreaker.getState (circuitBreaker stateInfo) in
      let maxInactiveTime := default 30000 (timeoutMs (base (config o))) in
      currentTime ← now;
      mret (negb (CircuitBreaker.CircuitState_eqb circuitState CircuitBreaker.OPEN)
            && (currentTime - lastActiveTime stateInfo <? maxInactiveTime)
            && negb (AgentState_eqb (state stateInfo) ERROR))
  end.

(** [MessageValidators.validateOrchestratorMessage(message)] *)
Definition validateOrchestratorMessage (input : Unknown) : M St BaseAgentMessage :=
  match OrchestratorMessageSchema_parse input with
  | Some m => mret m
  | None =>
      throw (new_AgentError3 (AgentErrorType_member "VALIDATION")
               ("Invalid message format: " +:+ ZodError_message rt input) input)
  end.

(** [this.messageQueue.enqueue(message)] *)
Definition queue_enqueue (m : BaseAgentMessage) : M St unit :=
  ms ← now;
  assign (fun o => set_messageQueue (PriorityMessageQueue.enqueue_at ms m (messageQueue o)) o).

(** [this.messageQueue.dequeue()] *)
Definition queue_dequeue : M St (option BaseAgentMessage) :=
  fun '(o, e) =>
    let '(m, q') := PriorityMessageQueue.dequeue (messageQueue o) in
    (Returned m, (set_messageQueue q' o, e)).

Definition set_queue_isProcessing (value : bool) : M St unit :=
  assign (fun o =>
    set_messageQueue (PriorityMessageQueue.set_isProcessing value (messageQueue o)) o).

(** [stateInfo.circuitBreaker.execute(operation, context)] for the
    breaker of [agentName]: the breaker runs the operation on the
    orchestrator and the environment, and its own fields end up in the
    [stateInfo] object. *)
Definition breaker_execute {T} (agentName : string) (breaker : CircuitBreaker.t)
    (operation : M St T) (context : string) : M St T :=
  fun s =>
    let '(r, (breaker', s')) :=
      CircuitBreaker.execute Date_now_St operation context (breaker, s) in
    let '(_, s'') := update_info agentName (set_circuitBreaker breaker') s' in
    (r, s'').

(** [stateInfo.healthMetrics.recordSuccess(t)] and [recordError(t)] *)
Definition record (agentName : string)
    (method : Q -> M (HealthMetrics.t * Env) unit) (processingTime : Z) : M St unit :=
  fun '(o, e) =>
    match agentStates o !! agentName with
    | None => (Returned tt, (o, e))
    | Some stateInfo =>
        let '(_, (hm', e')) := method (inject_Z processingTime) (healthMetrics stateInfo, e) in
        update_info agentName (set_healthMetrics hm') (o, e')
    end.

(** [routeMessage(message)] *)
Definition routeMessage (m : BaseAgentMessage) : M St unit :=
  let target := targetAgent m in
  o ← this;
  match agents o !! target, agentStates o !! target with
  | Some agent, Some stateInfo =>
      startTime ← now;
      try_catch
        (breaker_execute target (circuitBreaker stateInfo)
           (update_info target (set_state WORKING);;
            ms ← now;
            update_info target (set_lastActiveTime ms);;
            on_snd (worker_processMessage rt agent m);;
            update_info target (set_state IDLE);;
            update_info target (set_errorCount 0);;
            finished ← now;
            record target (HealthMetrics.recordSuccess (Date_now rt)) (finished - startTime))
           ("processing message for agent " +:+ target))
        (fun error =>
           update_info target (set_state ERROR);;
           update_info target (fun i => set_errorCount (errorCount i + 1) i);;
           finished ← now;
           record target (HealthMetrics.recordError (Date_now rt)) (finished - startTime);;
           throw (new_AgentError3 (AgentErrorType_member "OPERATION")
                    ("Message processing failed for agent " +:+ target) error))
  | _, _ =>
      throw (new_AgentError (AgentErrorType_member "VALIDATION")
               ("Target agent " +:+ target +:+ " not found"))
  end.

(** One pass of the [while] loop of [processQueuedMessages] for the
    message just dequeued.  The timer of [withTimeout] is armed with
    [this.config.timeoutMs], a key the constructor always fills in. *)
Definition dispatch (m : BaseAgentMessage) : M St unit :=
  let target := targetAgent m in
  o ← this;
  match agents o !! target, agentStates o !! target with
  | Some agent, Some stateInfo =>
      healthy ← isAgentHealthy target;
      if negb healthy then
        if errorCount stateInfo <? default 3 (maxRetries (base (config o)))
        then queue_enqueue m
        else log_error ("Agent " +:+ target +:+ " is unhealthy, dropping message")
      else
        try_catch
          (Utils.withTimeout timer_wins_St
             (Utils.withRetry sleep_St (routeMessage m)
                (default 3 (maxRetries (base (config o))))
                (default 1000 (retryDelay (config o)))
                ("routing to " +:+ target))
             (default 0 (timeoutMs (base (config o))))
             "message routing")
          (fun error => log_error "Failed to process message:")
  | _, _ => warn ("Target agent " +:+ target +:+ " not found, skipping message")
  end.

(** The [try { while ... } finally { isProcessing = false }] of
    [processQueuedMessages].  A pass is taken as one step; [passes] is
    how many of them the loop completes before the caller looks at the
    orchestrator again, and a loop with work left after that many is
    [Suspended] with the flag still set. *)
Fixpoint drain (passes : nat) : M St Progress :=
  o ← this;
  if PriorityMessageQueue.size (messageQueue o) >? 0 then
    match passes with
    | O => mret Suspended
    | S passes' =>
        next ← queue_dequeue;
        match next with
        | None => set_queue_isProcessing false;; mret Finished
        | Some m =>
            try_catch (dispatch m)
              (fun error => set_queue_isProcessing false;; throw error);;
            drain passes'
        end
    end
  else set_queue_isProcessing false;; mret Finished.

(** [processQueuedMessages()] *)
Definition processQueuedMessages (passes : nat) : M St Progress :=
  o ← this;
  if PriorityMessageQueue.isProcessing (messageQueue o) then mret Finished
  else
    set_queue_isProcessing true;;
    drain passes.

(** [processQueuedMessages()] from its call to the first [await] it
    reaches, which is as far as it runs before its caller goes on: it
    returns at once when the flag is set; otherwise it sets the flag
    and either finds the queue empty, clears the flag and ends, or
    takes a message off the queue and waits for it at
    [await this.messageQueue.dequeue()]. *)
Definition processQueuedMessages_begin : M St Loop :=
  o ← this;
  if PriorityMessageQueue.isProcessing (messageQueue o) then mret Over
  else
    set_queue_isProcessing true;;
    o' ← this;
    if PriorityMessageQueue.size (messageQueue o') >? 0 then
      next ← queue_dequeue;
      mret (Waiting next)
    else set_queue_isProcessing false;; mret Over.

(** The loop from where it waits: the pass for the message it holds,
    then [passes] more as in [drain]. *)
Definition resume (passes : nat) (loop : Loop) : M St Progress :=
  match loop with
  | NotStarted | Over => mret Finished
  | Waiting None => set_queue_isProcessing false;; mret Finished
  | Waiting (Some m) =>
      try_catch (dispatch m)
        (fun error => set_queue_isProcessing false;; throw error);;
      drain passes
  end.

(** [await call] in a method that others may run beside: the call made
    runs at once as far as it goes by itself, and [others] is what
    else the event loop runs before the method goes on with the call's
    outcome. *)
Definition await {A} (others : St -> St) (call : M St A) : M St A :=
  fun s => let '(r, s') := call s in (r, others s').

(** [processMessage(message)] up to its return; [others1] and
    [others2] are what else runs while it waits at its first and at
    its second [await].  With [void this.processQueuedMessages()] the
    loop is started and left behind at its first [await]; the value
    returned here tells where that loop stands. *)
Definition processMessage (others1 others2 : St -> St) (input : Unknown) : M St Loop :=
  validatedMessage ← await others1 (validateOrchestratorMessage input);
  o ← this;
  if PriorityMessageQueue.size (messageQueue o) >=? default 1000 (maxQueueSize (base (config o)))
  then throw (new_AgentError3 (AgentErrorType_member "OPERATION") "Message queue is full"
                (PriorityMessageQueue.size (messageQueue o)))
  else
    await others2 (queue_enqueue validatedMessage);;
    o' ← this;
    if negb (PriorityMessageQueue.isProcessing (messageQueue o'))
    then processQueuedMessages_begin
    else mret NotStarted.

(** [getQueueStats()] *)
Definition getQueueStats (o : t) : PriorityMessageQueue.Stats * bool :=
  (PriorityMessageQueue.getStats (messageQueue o),
   PriorityMessageQueue.isProcessing (messageQueue o)).
End Methods.

(** [interface HealthCheckResult] *)
Record HealthCheckResult : Type := mkHealthCheck {
  healthy : bool;
  status : AgentState;
  circuitState : CircuitBreaker.CircuitState;
  lastCheck : Z;
  metrics : HealthMetrics.Data.t;
}.

Section Health.
Context {Env : Type}.
Variable rt : Runtime Env.

(** [getAgentHealth(agentName)] *)
Definition getAgentHealth (agentName : string) : M (t * Env) HealthCheckResult :=
  o ← this;
  match agentStates o !! agentName with
  | None =>
      throw (new_AgentError (AgentErrorType_member "VALIDATION")
               ("Agent " +:+ agentName +:+ " is not registered"))
  | Some stateInfo =>
      let circuitMetrics := CircuitBreaker.getMetrics (circuitBreaker stateInfo) in
      let healthMetrics := HealthMetrics.getMetrics (healthMetrics stateInfo) in
      isHealthy ← isAgentHealthy rt agentName;
      ms ← now rt;
      mret (mkHealthCheck isHealthy (state stateInfo)
              (CircuitBreaker.metrics_state circuitMetrics) ms healthMetrics)
  end.
End Health.

End OrchestratorAgent.

(** ** The registry ([AgentRegistry.ts]) *)

Module AgentRegistry.

(** [interface RegistryConfig] *)
Record RegistryConfig : Type := mkConfig {
  config_maxAgents : option Z;
  healthCheckIntervalMs : option Z;
}.

(** [interface AgentHealth] *)
Record AgentHealth : Type := mkHealth {
  health_name : string;
  health_state : AgentState;
  lastActive : option Z;
}.

(** The fields of the registry; [healthCheckTimer] tells whether the
    interval timer is armed. *)
Record t : Type := mk {
  agents : gmap string Agent;
  maxAgents : Z;
  healthCheckInterval : Z;
  healthCheckTimer : bool;
  lastHealthCheck : gmap string AgentHealth;
}.

(** [new AgentRegistry(config)] *)
Definition constructor (cfg : option RegistryConfig) : t :=
  mk ∅ (default 10 (cfg ≫= config_maxAgents))
     (default 1000 (cfg ≫= healthCheckIntervalMs)) true ∅.

Definition snapshot (name : string) (agent : Agent) : AgentHealth :=
  mkHealth name (getState agent) (Some (getLastActiveTime agent)).

(** [registerAgent(name, agent)]; [None] is a missing handle. *)
Definition registerAgent (name : string) (agent : option Agent) : M t unit :=
  fun r =>
    match agent with
    | None => (Thrown (Error "Invalid agent"), r)
    | Some a =>
        if bool_decide (is_Some (agents r !! name))
        then (Thrown (Error ("Agent with name " +:+ name +:+ " already exists")), r)
        else if Z.of_nat (base.size (agents r)) >=? maxAgents r
        then (Thrown (Error "Maximum number of agents reached"), r)
        else
          (Returned tt,
           mk (<[name := a]> (agents r)) (maxAgents r) (healthCheckInterval r)
              (healthCheckTimer r)
              (<[name := snapshot name a]> (lastHealthCheck r)))
    end.

(** [getAgent(name)] *)
Definition getAgent (name : string) (r : t) : option Agent :=
  agents r !! name.

(** [getAgentHealth()] *)
Definition getAgentHealth (r : t) : list AgentHealth :=
  snd <$> map_to_list (lastHealthCheck r).

(** The callback of the interval timer. *)
Definition healthCheck (r : t) : t :=
  mk (agents r) (maxAgents r) (healthCheckInterval r) (healthCheckTimer r)
     (map_imap (fun name agent => Some (snapshot name agent)) (agents r)
      ∪ lastHealthCheck r).

(** [dispose()] *)
Definition dispose (r : t) : t :=
  mk ∅ (maxAgents r) (healthCheckInterval r) false ∅.

(** The registry with its [orchestrator] field. *)
Record Core : Type := mkCore {
  registry : t;
  orchestrator : option OrchestratorAgent.t;
}.

Section CoreAgents.
Context {Env : Type}.
Variable rt : Runtime Env.
(** [new ESLint(options)] of the eslint package *)
Variable new_ESLint : M Env unit.

Local Abbreviation St := (Core * Env)%type.

(** What [super(config)] of a new agent leaves for a holder to read:
    the name, IDLE, and the clock's reading as the last active time. *)
Definition new_agent (agentName : string) : M St Agent :=
  on_snd (fun e =>
    let '(ms, e') := Date_now rt e in (Returned (mkAgent agentName IDLE ms), e')).

(** A method of the registry itself. *)
Definition on_registry {A} (m : M t A) : M St A :=
  fun '(c, e) =>
    let '(r, registry') := m (registry c) in
    (r, (mkCore registry' (orchestrator c), e)).

(** A method of [this.orchestrator]. *)
Definition on_orchestrator {A} (m : M (OrchestratorAgent.t * Env) A) : M St A :=
  fun '(c, e) =>
    match orchestrator c with
    | Some o =>
        let '(r, (o', e')) := m (o, e) in
        (r, (mkCore (registry c) (Some o'), e'))
    | None =>
        (Thrown (TypeError "Cannot read properties of null (reading 'registerAgent')"),
         (c, e))
    end.

(** [getOrchestrator()] *)
Definition getOrchestrator : M St OrchestratorAgent.t :=
  fun '(c, e) =>
    match orchestrator c with
    | Some o => (Returned o, (c, e))
    | None => (Thrown (Error "Orchestrator not initialized"), (c, e))
    end.

(** [initializeCoreAgents()] *)
Definition initializeCoreAgents : M St unit :=
  on_registry (fun r =>
    (Returned tt, mk ∅ (maxAgents r) (healthCheckInterval r) (healthCheckTimer r) ∅));;
  orchestratorAgent ← new_agent "orchestrator";
  (fun '(c, e) =>
     (Returned tt,
      (mkCore (registry c)
         (Some (OrchestratorAgent.constructor
                  (OrchestratorAgent.mkConfig
                     (mkAgentConfig "orchestrator" None None None None) None None None))),
       e)));;
  on_registry (registerAgent "orchestrator" (Some orchestratorAgent));;
  compatibilityAgent ← new_agent "compatibility";
  eslintAgent ← new_agent "eslint";
  on_snd new_ESLint;;
  deploymentAgent ← new_agent "deployment";
  on_registry (registerAgent "compatibility" (Some compatibilityAgent));;
  on_registry (registerAgent "eslint" (Some eslintAgent));;
  on_registry (registerAgent "deployment" (Some deploymentAgent));;
  on_orchestrator (OrchestratorAgent.registerAgent rt compatibilityAgent ["VERSION_CHECK"]);;
  on_orchestrator (OrchestratorAgent.registerAgent rt eslintAgent ["LINT_REQUEST"]);;
  on_orchestrator
    (OrchestratorAgent.registerAgent rt deploymentAgent ["DEPLOYMENT_REQUEST"]).
End CoreAgents.

End AgentRegistry.

(** ** The version checker ([CompatibilityAgent.ts]) *)

Module CompatibilityAgent.

(** [interface VersionMatrix] *)
Record VersionMatrix : Type := mkMatrix {
  vite : list string;
  react : list string;
  next : list string;
}.

(** [Partial<VersionMatrix>] and [config.supportedVersions]; [None] is
    an absent key. *)
Record PartialMatrix : Type := mkPartial {
  partial_vite : option (list string);
  partial_react : option (list string);
  partial_next : option (list string);
}.

Definition DEFAULT_VERSION_MATRIX : VersionMatrix :=
  mkMatrix ["5.x"] ["18.x"] ["14.x"].

(** [message.payload] of a [VersionCheckMessage] *)
Record Payload : Type := mkPayload {
  viteVersion : string;
  reactVersion : option string;
  nextVersion : option string;
}.

(** The [versionMatrix] the constructor installs from
    [config.supportedVersions]. *)
Definition constructor (supportedVersions : option PartialMatrix) : VersionMatrix :=
  mkMatrix
    (default (vite DEFAULT_VERSION_MATRIX) (supportedVersions ≫= partial_vite))
    (default (react DEFAULT_VERSION_MATRIX) (supportedVersions ≫= partial_react))
    (default (next DEFAULT_VERSION_MATRIX) (supportedVersions ≫= partial_next)).

(** [updateVersionMatrix(matrix)] *)
Definition updateVersionMatrix (matrix : PartialMatrix) (this : VersionMatrix)
    : VersionMatrix :=
  mkMatrix (default (vite this) (partial_vite matrix))
    (default (react this) (partial_react matrix))
    (default (next this) (partial_next matrix)).

(** [Array.prototype.join(", ")] *)
Definition join (l : list string) : string := String.concat ", " l.

Section Methods.
(** [semver.clean(version)], [None] for [null], and
    [semver.satisfies(version, range)], which may throw. *)
Variable semver_clean : string -> option string.
Variable semver_satisfies : string -> string -> Outcome bool.

(** [semver.clean(version) || version] *)
Definition cleaned (version : string) : string :=
  match semver_clean version with
  | Some c => if String.eqb c "" then version else c
  | None => version
  end.

(** [isVersionCompatible(version, supportedVersions)] *)
Definition isVersionCompatible (version : string) (supportedVersions : list string) : bool :=
  existsb
    (fun supported =>
       match semver_satisfies (cleaned version) supported with
       | Returned b => b
       | Thrown _ => false
       end)
    supportedVersions.

(** A string in a condition: absent and empty are falsy. *)
Definition given (version : option string) : bool :=
  match version with
  | Some v => negb (String.eqb v "")
  | None => false
  end.

(** The [incompatibleVersions] array of [checkVersions] when its three
    checks are done. *)
Definition incompatibleVersions (this : VersionMatrix) (payload : Payload) : list string :=
  let found := [] in
  let found :=
    if negb (isVersionCompatible (viteVersion payload) (vite this))
    then found ++ ["Vite version " +:+ viteVersion payload
                     +:+ " is not supported. Please use one of: " +:+ join (vite this)]
    else found in
  let found :=
    if given (reactVersion payload)
       && negb (isVersionCompatible (default "" (reactVersion payload)) (react this))
    then found ++ ["React version " +:+ default "" (reactVersion payload)
                     +:+ " is not supported. Please use one of: " +:+ join (react this)]
    else found in
  let found :=
    if given (nextVersion payload)
       && negb (isVersionCompatible (default "" (nextVersion payload)) (next this))
    then found ++ ["Next.js version " +:+ default "" (nextVersion payload)
                     +:+ " is not supported. Please use one of: " +:+ join (next this)]
    else found in
  found.

(** [checkVersions(message)] *)
Definition checkVersions (payload : Payload) : M VersionMatrix unit :=
  fun this =>
    if Z.of_nat (length (incompatibleVersions this payload)) >? 0
    then (Thrown (new_AgentError3 (AgentErrorType_member "VALIDATION")
                    "Incompatible versions detected" (incompatibleVersions this payload)),
          this)
    else (Returned tt, this).
End Methods.

End CompatibilityAgent.

(** ** The build step ([DeploymentAgent.ts]) *)

Module DeploymentAgent.

Inductive BuildStatus : Set := pending | building | success | failed.

(** [interface BuildResult]; [None] is an absent key. *)
Record BuildResult : Type := mkBuild {
  status : BuildStatus;
  duration : Z;
  errors : option (list string);
  warnings : option (list string);
  artifacts : option (list string);
}.

Section Methods.
Context {Env : Type}.
Variable Date_now : Env -> Z * Env.
(** [Math.random()] *)
Variable Math_random : Env -> Q * Env.
(** A timer of the given number of milliseconds runs out. *)
Variable sleep : Q -> Env -> Env.
(** [console.log("Build result:", payload)] *)
Variable console_log : BuildResult -> Env -> Env.

(** The agent's [currentBuild] field and the environment. *)
Local Abbreviation St := (option BuildResult * Env)%type.

Definition now : M St Z :=
  on_snd (fun e => let '(ms, e') := Date_now e in (Returned ms, e')).

Definition set_currentBuild (v : BuildResult) : M St unit :=
  fun '(_, e) => (Returned tt, (Some v, e)).

(** [this.currentBuild.status = "building"] *)
Definition set_status (v : BuildStatus) : M St unit :=
  fun '(b, e) =>
    match b with
    | Some r =>
        (Returned tt,
         (Some (mkBuild v (duration r) (errors r) (warnings r) (artifacts r)), e))
    | None =>
        (Thrown (TypeError "Cannot set properties of null (setting 'status')"), (b, e))
    end.

(** [mockBuildProcess()] *)
Definition mockBuildProcess : M Env unit :=
  fun e =>
    let '(r1, e1) := Math_random e in
    let buildTime := (r1 * 2000 + 1000)%Q in
    let '(r2, e2) := Math_random e1 in
    if num_lt r2 (1 # 10)
    then (Thrown (Error "Random build failure"), e2)
    else (Returned tt, sleep buildTime e2).

(** [sendMessage(message)], which logs the payload. *)
Definition sendMessage (payload : BuildResult) : M St unit :=
  on_snd (modify (console_log payload)).

(** [(error as Error).message] *)
Definition message_of (error : JsError) : M St string :=
  match error with
  | ThrownUndefined =>
      throw (TypeError "Cannot read properties of undefined (reading 'message')")
  | _ => mret (error_message error)
  end.

(** [buildProject(message)] for [message.payload.projectPath]. *)
Definition buildProject (projectPath : string) : M St unit :=
  if String.eqb projectPath ""
  then throw (new_AgentError (AgentErrorType_member "VALIDATION") "Project path is required")
  else
    set_currentBuild (mkBuild pending 0 None None None);;
    startTime ← now;
    try_catch
      (set_status building;;
       on_snd mockBuildProcess;;
       finished ← now;
       let result :=
         mkBuild success (finished - startTime) None None
           (Some ["dist/index.html"; "dist/assets/main.js"; "dist/assets/style.css"]) in
       set_currentBuild result;;
       sendMessage result)
      (fun error =>
         finished ← now;
         text ← message_of error;
         let result := mkBuild failed (finished - startTime) (Some [text]) None None in
         set_currentBuild result;;
         sendMessage result;;
         throw error).

(** [getCurrentBuild()] *)
Definition getCurrentBuild (s : St) : option BuildResult := fst s.
End Methods.

End DeploymentAgent.

(** * Properties *)

(** ** Numbers *)

Lemma num_ge_true (a b : Q) : num_ge a b = true <-> (b <= a)%Q.
Proof. unfold num_ge. apply Qle_bool_iff. Qed.

Lemma num_ge_false (a b : Q) : num_ge a b = false <-> (a < b)%Q.
Proof.
  unfold num_ge. split; intros H.
  - apply Qnot_le_lt. intros Hle. apply Qle_bool_iff in Hle. congruence.
  - destruct (Qle_bool b a) eqn:E; [|reflexivity].
    apply Qle_bool_iff in E. lra.
Qed.


(** ** Circuit breaker *)

Module CircuitBreakerProps.
Import CircuitBreaker.

Section Props.
Context {World : Type}.
Variable Date_now : World -> Z * World.


(** The breaker and the world that [execute] leaves behind. *)
Definition after {T} (operation : M World T) (context : string) (s : t * World)
    : t * World :=
  snd (execute Date_now operation context s).

Definition opened_at (ms : Z) (cb : t) : t :=
  mk (config cb) OPEN (failures cb) (lastFailureTime cb) ms.

Lemma transitionTo_run (newState : CircuitState) (cb : t) (w : World) :
  transitionTo Date_now newState (cb, w) =
    (Returned tt,
     (mk (config cb) newState
         (if CircuitState_eqb newState CLOSED then 0 else failures cb)
         (lastFailureTime cb) (fst (Date_now w)),
      snd (Date_now w))).
Proof.
  unfold transitionTo, now, assign, mbind, M_bind, mret, M_ret.
  destruct (Date_now w) as [ms w1]. destruct newState; reflexivity.
Qed.

Lemma checkState_run (cb : t) (w : World) :
  checkState Date_now (cb, w) =
    let ms := fst (Date_now w) in
    let w1 := snd (Date_now w) in
    match state cb with
    | OPEN =>
        if num_ge (inject_Z (ms - lastStateChange cb)) (resetTimeout (config cb))
        then transitionTo Date_now HALF_OPEN (cb, w1)
        else (Thrown (AgentError None "Circuit breaker is OPEN"), (cb, w1))
    | HALF_OPEN =>
        if num_ge (inject_Z (ms - lastStateChange cb)) (halfOpenTimeout (config cb))
        then transitionTo Date_now CLOSED (cb, w1)
        else (Returned tt, (cb, w1))
    | CLOSED => (Returned tt, (cb, w1))
    end.
Proof.
  unfold checkState, now, this, mbind, M_bind, mret, M_ret, throw.
  destruct (Date_now w) as [ms w1]. cbn [fst snd].
  destruct (state cb); try reflexivity; destruct (num_ge _ _); reflexivity.
Qed.

Lemma onSuccess_run (cb : t) (w : World) :
  onSuccess Date_now (cb, w) =
    match state cb with
    | HALF_OPEN =>
        (Returned tt,
         (mk (config cb) CLOSED 0 (lastFailureTime cb) (fst (Date_now w)),
          snd (Date_now w)))
    | st => (Returned tt, (mk (config cb) st 0 (lastFailureTime cb) (lastStateChange cb), w))
    end.
Proof.
  unfold onSuccess, this, assign, mbind, M_bind, mret, M_ret. cbn [fst].
  destruct (state cb) eqn:Hst; cbn [CircuitState_eqb].
  - unfold set_failures. rewrite Hst. reflexivity.
  - unfold set_failures. rewrite Hst. reflexivity.
  - rewrite transitionTo_run. reflexivity.
Qed.

Lemma onFailure_run (cb : t) (w : World) :
  onFailure Date_now (cb, w) =
    let ms := fst (Date_now w) in
    let w1 := snd (Date_now w) in
    let cb1 := mk (config cb) (state cb) (failures cb + 1) ms (lastStateChange cb) in
    if num_ge (inject_Z (failures cb + 1)) (failureThreshold (config cb))
    then transitionTo Date_now OPEN (cb1, w1)
    else (Returned tt, (cb1, w1)).
Proof.
  unfold onFailure, now, this, assign, mbind, M_bind, mret, M_ret.
  destruct (Date_now w) as [ms w1]. cbn.
  destruct (num_ge _ _); reflexivity.
Qed.

Lemma execute_run {T} (operation : M World T) (context : string) (s : t * World) :
  execute Date_now operation context s =
    match checkState Date_now s with
    | (Thrown e, s1) => (Thrown e, s1)
    | (Returned _, (cb1, w1)) =>
        match operation w1 with
        | (Returned result, w2) =>
            (Returned result, snd (onSuccess Date_now (cb1, w2)))
        | (Thrown error, w2) =>
            (Thrown (AgentError None ("Circuit breaker: " +:+ context +:+ " failed")),
             snd (onFailure Date_now (cb1, w2)))
        end
    end.
Proof.
  unfold execute, try_catch, on_snd, throw. unfold mbind at 1, M_bind at 1.
  destruct (checkState Date_now s) as [[[]|e] [cb1 w1]]; [|reflexivity].
  unfold mbind at 1, M_bind at 1.
  destruct (operation w1) as [[result|error] w2].
  - unfold mbind, M_bind, mret, M_ret. rewrite onSuccess_run.
    destruct (state cb1); reflexivity.
  - unfold mbind, M_bind. rewrite onFailure_run. cbn zeta.
    destruct (num_ge _ _); [rewrite transitionTo_run|]; reflexivity.
Qed.

Lemma checkState_open_cooling (cb : t) (w : World) :
  state cb = OPEN ->
  (inject_Z (fst (Date_now w) - lastStateChange cb) < resetTimeout (config cb))%Q ->
  checkState Date_now (cb, w) =
    (Thrown (AgentError None "Circuit breaker is OPEN"), (cb, snd (Date_now w))).
Proof.
  intros Hst Hlt. rewrite checkState_run, Hst. cbn zeta.
  apply num_ge_false in Hlt. rewrite Hlt. reflexivity.
Qed.

Lemma execute_open_cooling {T} (operation : M World T) (context : string)
    (cb : t) (w : World) :
  state cb = OPEN ->
  (inject_Z (fst (Date_now w) - lastStateChange cb) < resetTimeout (config cb))%Q ->
  execute Date_now operation context (cb, w) =
    (Thrown (AgentError None "Circuit breaker is OPEN"), (cb, snd (Date_now w))).
Proof.
  intros Hst Hlt. rewrite execute_run, checkState_open_cooling by assumption.
  reflexivity.
Qed.









(** C2.  What an OPEN breaker that is still cooling down throws: the
    operation is not started, the breaker is unchanged, and the error is
    the one value [AgentError undefined "Circuit breaker is OPEN"].  Its
    [type] is [undefined], since [AgentErrorType] has no [OPERATION]
    member, and the remaining cooldown given as third constructor
    argument is not part of it. *)
Theorem open_rejection_error {T} (operation : M World T) (context : string)
    (cb : t) (w : World) :
  state cb = OPEN ->
  (inject_Z (fst (Date_now w) - lastStateChange cb) < resetTimeout (config cb))%Q ->
  execute Date_now operation context (cb, w) =
    (Thrown (AgentError None "Circuit breaker is OPEN"), (cb, snd (Date_now w))) /\
  AgentErrorType_member "OPERATION" = None.
Proof.
  intros Hst Hlt. split; [|reflexivity].
  apply execute_open_cooling; assumption.
Qed.
End Props.

(** A world that is its own clock, and two operations that take 10 ms. *)
Definition clock (w : Z) : Z * Z := (w, w).
Definition failing_operation : M Z unit := fun w => (Thrown (Error "worker down"), w + 10).
Definition working_operation : M Z unit := fun w => (Returned tt, w + 10).

Definition breaker_config : CircuitBreakerConfig :=
  {| failureThreshold := 3; resetTimeout := 30000; halfOpenTimeout := 15000 |}.




Lemma open_rejection_error_witness :
  execute clock working_operation "probe" (mk breaker_config OPEN 3 20 20, 1000) =
    (Thrown (AgentError None "Circuit breaker is OPEN"),
     (mk breaker_config OPEN 3 20 20, 1000)) /\
  AgentErrorType_member "OPERATION" = None.
Proof.
  apply (open_rejection_error clock working_operation "probe"
           (mk breaker_config OPEN 3 20 20) 1000);
    [reflexivity | vm_compute; reflexivity].
Defined.

End CircuitBreakerProps.

(** ** Health metrics *)

Module HealthMetricsProps.
Import HealthMetrics.

(** One recorded outcome with its latency. *)
Inductive Sample : Type :=
| Success (processingTime : Q)
| Failure (processingTime : Q).

Definition latency (s : Sample) : Q :=
  match s with Success q | Failure q => q end.

Definition is_failure (s : Sample) : bool :=
  match s with Failure _ => true | Success _ => false end.

(** The last 100 entries of a list. *)
Definition window (l : list Q) : list Q := drop (length l - 100) l.

Lemma window_short (l : list Q) : (length l <= 100)%nat -> window l = l.
Proof.
  intros H. unfold window. replace (length l - 100)%nat with 0%nat by lia. reflexivity.
Qed.

Lemma window_length (l : list Q) : (length (window l) <= 100)%nat.
Proof. unfold window. rewrite length_drop. lia. Qed.

Lemma window_snoc (l : list Q) (x : Q) :
  window (l ++ [x]) =
    if Z.of_nat (length (window l ++ [x])) >? 100
    then tl (window l ++ [x]) else window l ++ [x].
Proof.
  unfold window at 1. rewrite length_app. cbn [length].
  destruct (le_lt_dec 100 (length l)) as [Hge|Hlt].
  - assert (Hlen : length (window l) = 100%nat).
    { unfold window. rewrite length_drop. lia. }
    rewrite length_app, Hlen. cbn [length Nat.add].
    replace (Z.of_nat (100 + 1) >? 100) with true by reflexivity.
    unfold window.
    replace (length l + 1 - 100)%nat with (S (length l - 100)) by lia.
    rewrite drop_app_le by lia.
    destruct (drop (length l - 100) l) as [|y ys] eqn:E.
    + apply (f_equal length) in E. rewrite length_drop in E. cbn in E. lia.
    + cbn [tl app].
      replace (S (length l - 100)) with (length l - 100 + 1)%nat by lia.
      rewrite <- drop_drop, E. reflexivity.
  - rewrite (window_short l) by lia.
    replace (length l + 1 - 100)%nat with 0%nat by lia. cbn [drop].
    rewrite length_app. cbn [length].
    destruct (Z.of_nat (length l + 1) >? 100) eqn:E; [|reflexivity].
    apply Z.gtb_lt in E. lia.
Qed.

Section Props.
Context {World : Type}.
Variable Date_now : World -> Z * World.

Definition record_one (s : Sample) : M (t * World) unit :=
  match s with
  | Success q => recordSuccess Date_now q
  | Failure q => recordError Date_now q
  end.

(** The recorder and the world after a sequence of records. *)
Fixpoint record_all (samples : list Sample) (st : t * World) : t * World :=
  match samples with
  | [] => st
  | s :: rest => record_all rest (snd (record_one s st))
  end.

Lemma record_all_app (l1 l2 : list Sample) (st : t * World) :
  record_all (l1 ++ l2) st = record_all l2 (record_all l1 st).
Proof. revert st. induction l1 as [|s l1 IH]; intros st; cbn; [reflexivity|apply IH]. Qed.

Lemma record_one_fields (s : Sample) (hm : t) (w : World) :
  let hm' := fst (snd (record_one s (hm, w))) in
  messageCount hm' = messageCount hm + 1 /\
  errorCount hm' = errorCount hm + (if is_failure s then 1 else 0) /\
  maxSamples hm' = maxSamples hm /\
  processingTimes hm' =
    (let pushed := processingTimes hm ++ [latency s] in
     if Z.of_nat (length pushed) >? maxSamples hm then tl pushed else pushed).
Proof.
  destruct s as [q|q]; cbn [record_one]; unfold recordSuccess, recordError;
    destruct (Date_now w) as [ms w1]; cbn; repeat split; try lia; reflexivity.
Qed.

(** What a recorder holds after [samples], when it started with 100 as
    its sample limit and its window in [kept]. *)
Lemma record_all_fields (samples : list Sample) (previous : list Q) (hm : t) (w : World) :
  maxSamples hm = 100 ->
  processingTimes hm = window previous ->
  let hm' := fst (record_all samples (hm, w)) in
  messageCount hm' = messageCount hm + Z.of_nat (length samples) /\
  errorCount hm' = errorCount hm + Z.of_nat (length (List.filter is_failure samples)) /\
  maxSamples hm' = 100 /\
  processingTimes hm' = window (previous ++ (latency <$> samples)).
Proof.
  revert previous hm w. induction samples as [|s rest IH]; intros previous hm w Hmax Hpts.
  - cbn. rewrite app_nil_r. repeat split; [lia|lia|exact Hmax|exact Hpts].
  - cbn [record_all].
    destruct (record_one s (hm, w)) as [r [hm1 w1]] eqn:E.
    pose proof (record_one_fields s hm w) as F. rewrite E in F. cbn [fst snd] in F.
    destruct F as (F1 & F2 & F3 & F4).
    assert (Hpts1 : processingTimes hm1 = window (previous ++ [latency s])).
    { rewrite F4, Hmax, Hpts. cbn zeta. symmetry. apply window_snoc. }
    destruct (IH (previous ++ [latency s]) hm1 w1 ltac:(congruence) Hpts1)
      as (G1 & G2 & G3 & G4).
    cbn [snd]. repeat split.
    + rewrite G1, F1. cbn [length]. lia.
    + rewrite G2, F2. cbn [List.filter]. destruct (is_failure s); cbn [length]; lia.
    + exact G3.
    + rewrite G4. rewrite <- app_assoc. reflexivity.
Qed.

Lemma filter_length_le {A} (p : A -> bool) (l : list A) :
  (length (List.filter p l) <= length l)%nat.
Proof. induction l as [|x l IH]; cbn; [lia|]. destruct (p x); cbn; lia. Qed.

Lemma rate_bounds (n e : Z) :
  0 < n -> 0 <= e <= n ->
  (0 <= inject_Z (n - e) / inject_Z n * 100 <= 100)%Q.
Proof.
  intros Hn He.
  assert (Hy : (0 < inject_Z n)%Q).
  { change 0%Q with (inject_Z 0). rewrite <- Zlt_Qlt. exact Hn. }
  assert (Hx0 : (0 <= inject_Z (n - e))%Q).
  { change 0%Q with (inject_Z 0). rewrite <- Zle_Qle. lia. }
  assert (Hxy : (inject_Z (n - e) <= inject_Z n)%Q).
  { rewrite <- Zle_Qle. lia. }
  assert (H0 : (0 <= inject_Z (n - e) / inject_Z n)%Q).
  { apply Qle_shift_div_l; [exact Hy|]. lra. }
  assert (H1 : (inject_Z (n - e) / inject_Z n <= 1)%Q).
  { apply Qle_shift_div_r; [exact Hy|]. lra. }
  split; lra.
Qed.

(** What the claim says of the reply, in the arithmetic of the
    runtime: the average is the samples added up one after the other,
    the oldest first and starting from 0, divided by their number, and
    the rate is the share of the messages that were no errors, times
    100. *)
Context {number : Type}.
Variable double : Q -> number.
Variables plus divide times : number -> number -> number.

Fixpoint added_up (newest_first : list Q) : number :=
  match newest_first with
  | [] => double 0%Q
  | x :: older => plus (added_up older) (double x)
  end.

Definition average (oldest_first : list Q) : number :=
  divide (added_up (rev oldest_first))
    (double (inject_Z (Z.of_nat (length oldest_first)))).

Definition share (messages errors : Z) : number :=
  times (divide (double (inject_Z (messages - errors))) (double (inject_Z messages)))
    (double 100%Q).

Lemma reduce_plus_added_up (l : list Q) :
  reduce_plus double plus l = added_up (rev l).
Proof.
  unfold reduce_plus. induction l as [|x l IH] using rev_ind; [reflexivity|].
  rewrite fold_left_app, rev_app_distr. cbn [fold_left rev app added_up].
  rewrite IH. reflexivity.
Qed.

Lemma getMetrics_with_average (hm : t) :
  Reply.avgProcessingTime (getMetrics_with double plus divide times hm) =
    match processingTimes hm with
    | [] => double 0%Q
    | _ => average (processingTimes hm)
    end.
Proof.
  cbn [getMetrics_with Reply.avgProcessingTime].
  destruct (processingTimes hm) as [|x l] eqn:E; [reflexivity|].
  assert (Hpos : (Z.of_nat (length (x :: l)) >? 0) = true)
    by (apply Z.gtb_lt; cbn [length]; lia).
  rewrite Hpos. unfold average. rewrite reduce_plus_added_up. reflexivity.
Qed.

Lemma getMetrics_with_share (hm : t) :
  Reply.successRate (getMetrics_with double plus divide times hm) =
    if messageCount hm >? 0 then share (messageCount hm) (errorCount hm)
    else double 100%Q.
Proof. reflexivity. Qed.

(** C3, in the arithmetic of the runtime, whatever its rounding.
    (1) A fresh recorder that has taken 150 records, successes and
    errors in any mix, holds the latencies of the last 100 of them, in
    order, and [getMetrics] reports the average of exactly those: the
    100 samples added up from the oldest to the newest, divided by 100.
    It has counted 150 messages and as many errors as there were error
    records, and reports the share of the others as its success rate.
    (2) [successRate] is 100 when [messageCount] is 0.
    (3) For [messageCount] n > 0 and [errorCount] e with 0 <= e <= n,
    [successRate] is (n - e) / n * 100.
    (4) [avgProcessingTime] is 0 when no sample is held, and the
    average of the samples held otherwise. *)
Theorem windowing_and_rates :
  (forall (samples : list Sample) (w : World),
     length samples = 150%nat ->
     let hm := fst (record_all samples (constructor, w)) in
     let reply := getMetrics_with double plus divide times hm in
     let errors := Z.of_nat (length (List.filter is_failure samples)) in
     processingTimes hm = drop 50 (latency <$> samples) /\
     length (processingTimes hm) = 100%nat /\
     Reply.avgProcessingTime reply = average (drop 50 (latency <$> samples)) /\
     Reply.avgProcessingTime reply =
       divide (added_up (rev (drop 50 (latency <$> samples)))) (double 100%Q) /\
     messageCount hm = 150 /\
     errorCount hm = errors /\
     Reply.messageCount reply = 150 /\
     Reply.errorCount reply = errors /\
     Reply.successRate reply = share 150 errors) /\
  (forall hm : t,
     messageCount hm = 0 ->
     Reply.successRate (getMetrics_with double plus divide times hm) = double 100%Q) /\
  (forall hm : t,
     0 < messageCount hm ->
     0 <= errorCount hm <= messageCount hm ->
     Reply.successRate (getMetrics_with double plus divide times hm) =
       times (divide (double (inject_Z (messageCount hm - errorCount hm)))
                (double (inject_Z (messageCount hm)))) (double 100%Q)) /\
  (forall hm : t,
     (processingTimes hm = [] ->
      Reply.avgProcessingTime (getMetrics_with double plus divide times hm) =
        double 0%Q) /\
     (processingTimes hm <> [] ->
      Reply.avgProcessingTime (getMetrics_with double plus divide times hm) =
        average (processingTimes hm))).
Proof.
  split; [|split; [|split]].
  - intros samples w Hlen. cbn zeta.
    destruct (record_all_fields samples [] constructor w eq_refl eq_refl)
      as (F1 & F2 & F3 & F4).
    cbn [app] in F4. unfold window in F4. rewrite length_fmap, Hlen in F4.
    change (150 - 100)%nat with 50%nat in F4.
    change (messageCount constructor) with 0 in F1.
    change (errorCount constructor) with 0 in F2.
    rewrite Hlen in F1. cbn in F1.
    assert (Hkept : length (drop 50 (latency <$> samples)) = 100%nat).
    { rewrite length_drop, length_fmap, Hlen. reflexivity. }
    assert (Havg : Reply.avgProcessingTime
                     (getMetrics_with double plus divide times
                        (fst (record_all samples (constructor, w)))) =
                   average (drop 50 (latency <$> samples))).
    { rewrite getMetrics_with_average, F4.
      destruct (drop 50 (latency <$> samples)); [discriminate|reflexivity]. }
    split; [exact F4|]. split; [rewrite F4; exact Hkept|]. split; [exact Havg|].
    split; [rewrite Havg; unfold average; rewrite Hkept; reflexivity|].
    split; [exact F1|]. split; [rewrite F2; lia|].
    split; [exact F1|].
    split; [cbn [getMetrics_with Reply.errorCount]; rewrite F2; lia|].
    rewrite getMetrics_with_share, F1, F2. cbn. unfold share. repeat f_equal; lia.
  - intros hm H0. rewrite getMetrics_with_share, H0. reflexivity.
  - intros hm Hn He. rewrite getMetrics_with_share.
    assert (Hpos : (messageCount hm >? 0) = true) by (apply Z.gtb_lt; lia).
    rewrite Hpos. reflexivity.
  - intros hm. rewrite getMetrics_with_average. split.
    + intros ->. reflexivity.
    + intros Hne. destruct (processingTimes hm); [congruence|reflexivity].
Qed.
End Props.

(** [getMetrics] is [getMetrics_with] in the arithmetic of the
    rationals, where nothing is rounded. *)
Lemma getMetrics_exact (hm : t) :
  getMetrics hm =
    let reply := getMetrics_with (fun q => q) Qplus Qdiv Qmult hm in
    Data.mk (Reply.messageCount reply) (Reply.errorCount reply) (Reply.successRate reply)
      (Reply.avgProcessingTime reply) (Reply.lastProcessingTime reply)
      (Reply.lastErrorTime reply) (Reply.lastSuccessTime reply).
Proof. reflexivity. Qed.

Definition ticking_clock (w : Z) : Z * Z := (w, w + 1).

(** 150 records with latencies 0, 1, ..., 149 ms, every third an error. *)
Definition samples150 : list Sample :=
  (fun i : nat =>
     if (i mod 3 =? 0)%nat then Failure (inject_Z (Z.of_nat i))
     else Success (inject_Z (Z.of_nat i))) <$> seq 0 150.

(** An arithmetic that rounds and overflows: a number is a multiple of
    1/1024 below 2^20 in size, or none; every result is cut to such a
    multiple. *)
Definition cut (q : Q) : option Q :=
  let n := Qnum q * 1024 / Zpos (Qden q) in
  if Z.abs n <? 1024 * 2 ^ 20 then Some (n # 1024) else None.
Definition cut2 (f : Q -> Q -> Q) (a b : option Q) : option Q :=
  match a, b with
  | Some x, Some y => cut (f x y)
  | _, _ => None
  end.
Definition cut_plus : option Q -> option Q -> option Q := cut2 Qplus.
Definition cut_divide : option Q -> option Q -> option Q := cut2 Qdiv.
Definition cut_times : option Q -> option Q -> option Q := cut2 Qmult.

Lemma windowing_and_rates_witness :
  (let hm := fst (record_all ticking_clock samples150 (constructor, 0)) in
   let reply := getMetrics_with cut cut_plus cut_divide cut_times hm in
   processingTimes hm = drop 50 (latency <$> samples150) /\
   Reply.avgProcessingTime reply =
     cut_divide (added_up cut cut_plus (rev (drop 50 (latency <$> samples150))))
       (cut 100%Q) /\
   messageCount hm = 150 /\
   Reply.successRate reply = share cut cut_divide cut_times 150 50) /\
  Reply.successRate (getMetrics_with cut cut_plus cut_divide cut_times constructor) =
    cut 100%Q /\
  Reply.successRate
    (getMetrics_with cut cut_plus cut_divide cut_times (mk 3 1 [] 100 0 0 0)) =
    cut_times (cut_divide (cut (inject_Z (3 - 1))) (cut (inject_Z 3))) (cut 100%Q) /\
  Reply.avgProcessingTime (getMetrics_with cut cut_plus cut_divide cut_times constructor) =
    cut 0%Q.
Proof.
  destruct (windowing_and_rates ticking_clock cut cut_plus cut_divide cut_times)
    as (W1 & W2 & W3 & W4).
  split; [|split; [|split]].
  - destruct (W1 samples150 0 eq_refl) as (H1 & _ & _ & H4 & H5 & _ & _ & _ & H9).
    split; [exact H1|]. split; [exact H4|]. split; [exact H5|exact H9].
  - apply (W2 constructor). reflexivity.
  - apply (W3 (mk 3 1 [] 100 0 0 0)); cbn; lia.
  - apply (proj1 (W4 constructor)). reflexivity.
Defined.

(** Three messages, one of them an error, in the cutting arithmetic:
    the rate reported is 66 + 616/1024, the value the two rounded
    operations give, not 200/3.  The 100 samples held after
    [samples150] are 50, ..., 149; their average is 99 + 1/2. *)
Example rate_is_rounded :
  Reply.successRate
    (getMetrics_with cut cut_plus cut_divide cut_times (mk 3 1 [] 100 0 0 0)) =
    Some (68200 # 1024)%Q /\
  Reply.avgProcessingTime
    (getMetrics_with cut cut_plus cut_divide cut_times
       (fst (record_all ticking_clock samples150 (constructor, 0)))) =
    Some (101888 # 1024)%Q.
Proof. split; vm_compute; reflexivity. Qed.

End HealthMetricsProps.

(** ** The orchestrator's queue *)

Module PriorityMessageQueueProps.
Import PriorityMessageQueue.

(** Older items first. *)
Definition older_first (a b : QueueItem) : Prop := addedAt a <= addedAt b.
Definition ordered (l : list QueueItem) : Prop := StronglySorted older_first l.

(** Where a new item with time stamp [ms] ends up in an ordered tier:
    behind every item stamped [ms] or earlier, ahead of the later ones. *)
Definition placed (item : QueueItem) (tier : list QueueItem) : list QueueItem :=
  List.filter (fun y => addedAt y <=? addedAt item) tier
    ++ item :: List.filter (fun y => addedAt item <? addedAt y) tier.

Lemma Array_insert_length {A} (compare : A -> A -> Z) (x : A) (l : list A) :
  length (Array_insert compare x l) = S (length l).
Proof.
  induction l as [|y ys IH]; cbn; [reflexivity|].
  destruct (compare x y <=? 0); cbn; [reflexivity|]. by rewrite IH.
Qed.

Lemma Array_sort_length {A} (compare : A -> A -> Z) (l : list A) :
  length (Array_sort compare l) = length l.
Proof.
  induction l as [|x xs IH]; cbn; [reflexivity|].
  by rewrite Array_insert_length, IH.
Qed.

Lemma Array_insert_front (x : QueueItem) (l : list QueueItem) :
  Forall (older_first x) l -> Array_insert sortByTimestamp x l = x :: l.
Proof.
  intros H. destruct l as [|y ys]; [reflexivity|]. cbn.
  inversion H as [|? ? Hy _]; subst. unfold older_first in Hy. unfold sortByTimestamp.
  destruct (addedAt x - addedAt y <=? 0) eqn:E; [reflexivity|].
  apply Z.leb_gt in E. lia.
Qed.

Lemma Array_sort_ordered_id (l : list QueueItem) :
  ordered l -> Array_sort sortByTimestamp l = l.
Proof.
  induction 1 as [|a r Hr IH Ha]; cbn; [reflexivity|].
  rewrite IH. apply Array_insert_front. exact Ha.
Qed.

Lemma Array_insert_ordered (x : QueueItem) (l : list QueueItem) :
  ordered l -> ordered (Array_insert sortByTimestamp x l).
Proof.
  induction 1 as [|a r Hr IH Ha]; cbn.
  - repeat constructor.
  - unfold sortByTimestamp at 1. destruct (addedAt x - addedAt a <=? 0) eqn:E.
    + apply Z.leb_le in E. constructor; [constructor; assumption|].
      constructor; [unfold older_first; lia|].
      eapply List.Forall_impl; [|exact Ha]. unfold older_first. intros; lia.
    + apply Z.leb_gt in E. constructor; [exact IH|].
      clear IH Hr. induction r as [|b r IHr]; cbn.
      * repeat constructor. unfold older_first. lia.
      * inversion Ha; subst. destruct (sortByTimestamp x b <=? 0).
        -- constructor; [unfold older_first; lia|constructor; assumption].
        -- constructor; [assumption|]. apply IHr. assumption.
Qed.

Lemma Array_sort_ordered (l : list QueueItem) : ordered (Array_sort sortByTimestamp l).
Proof.
  induction l as [|x xs IH]; cbn; [constructor|]. apply Array_insert_ordered, IH.
Qed.

Lemma Array_sort_snoc (tier : list QueueItem) (item : QueueItem) :
  ordered tier -> Array_sort sortByTimestamp (tier ++ [item]) = placed item tier.
Proof.
  unfold placed. induction 1 as [|a r Hr IH Ha]; [reflexivity|].
  cbn [app Array_sort List.filter]. rewrite IH. clear IH.
  destruct (addedAt a <=? addedAt item) eqn:E.
  - apply Z.leb_le in E.
    assert (Hlt : (addedAt item <? addedAt a) = false) by (apply Z.ltb_ge; lia).
    rewrite Hlt. cbn [app].
    apply Array_insert_front.
    apply List.Forall_app. split.
    + apply List.Forall_forall. intros y Hy. apply filter_In in Hy as [Hy _].
      rewrite List.Forall_forall in Ha. apply Ha, Hy.
    + constructor; [exact E|].
      apply List.Forall_forall. intros y Hy. apply filter_In in Hy as [Hy _].
      rewrite List.Forall_forall in Ha. apply Ha, Hy.
  - apply Z.leb_gt in E.
    assert (Hlt : (addedAt item <? addedAt a) = true) by (apply Z.ltb_lt; lia).
    rewrite Hlt.
    assert (Hnone : List.filter (fun y => addedAt y <=? addedAt item) r = []).
    { clear Hr. induction r as [|b r IHr]; [reflexivity|]. cbn.
      inversion Ha as [|? ? Hb Hrest]; subst. unfold older_first in Hb.
      destruct (addedAt b <=? addedAt item) eqn:Eb; [apply Z.leb_le in Eb; lia|].
      apply IHr, Hrest. }
    assert (Hall : List.filter (fun y => addedAt item <? addedAt y) r = r).
    { clear Hr Hnone. induction r as [|b r IHr]; [reflexivity|]. cbn.
      inversion Ha as [|? ? Hb Hrest]; subst. unfold older_first in Hb.
      destruct (addedAt item <? addedAt b) eqn:Eb; [|apply Z.ltb_ge in Eb; lia].
      f_equal. apply IHr, Hrest. }
    rewrite Hnone, Hall. cbn [app Array_insert]. unfold sortByTimestamp at 1.
    destruct (addedAt a - addedAt item <=? 0) eqn:E2; [apply Z.leb_le in E2; lia|].
    f_equal. apply Array_insert_front, Ha.
Qed.

Lemma placed_at_tail (tier : list QueueItem) (item : QueueItem) :
  Forall (fun y => addedAt y <= addedAt item) tier -> placed item tier = tier ++ [item].
Proof.
  unfold placed. induction 1 as [|y ys Hy Hys IH]; [reflexivity|].
  cbn [List.filter].
  assert (E1 : (addedAt y <=? addedAt item) = true) by (apply Z.leb_le; lia).
  assert (E2 : (addedAt item <? addedAt y) = false) by (apply Z.ltb_ge; lia).
  rewrite E1, E2. cbn [app]. f_equal. exact IH.
Qed.

(** The three classes of priority. *)
Definition high_priority (m : BaseAgentMessage) : Prop :=
  exists p, priority m = Some p /\ (5 < p)%Q.
Definition normal_priority (m : BaseAgentMessage) : Prop :=
  exists p, priority m = Some p /\ (2 < p)%Q /\ (p <= 5)%Q.
Definition low_priority (m : BaseAgentMessage) : Prop :=
  priority m = None \/ exists p, priority m = Some p /\ (p <= 2)%Q.

Definition all_ordered (q : t) : Prop :=
  ordered (high q) /\ ordered (normal q) /\ ordered (low q).

Lemma priority_above_true (bound : Q) (m : BaseAgentMessage) :
  (0 <= bound)%Q ->
  priority_above bound m = true <-> exists p, priority m = Some p /\ (bound < p)%Q.
Proof.
  intros Hb. unfold priority_above, truthy, num_gt.
  destruct (priority m) as [p|]; split.
  - intros H. apply andb_true_iff in H as [_ H]. exists p. split; [reflexivity|].
    apply Qnot_le_lt. intros Hle. apply Qle_bool_iff in Hle. rewrite Hle in H. discriminate.
  - intros (p' & Hp & Hlt). injection Hp as <-. apply andb_true_iff. split.
    + destruct (Qeq_bool p 0) eqn:E; [|reflexivity].
      apply Qeq_bool_iff in E. lra.
    + destruct (Qle_bool p bound) eqn:E; [|reflexivity].
      apply Qle_bool_iff in E. lra.
  - discriminate.
  - intros (p & Hp & _). discriminate.
Qed.

Lemma priority_above_false (bound : Q) (m : BaseAgentMessage) :
  (0 <= bound)%Q ->
  priority_above bound m = false <->
    (priority m = None \/ exists p, priority m = Some p /\ (p <= bound)%Q).
Proof.
  intros Hb. split.
  - intros H. destruct (priority m) as [p|] eqn:Hp; [|left; reflexivity].
    right. exists p. split; [reflexivity|].
    apply Qnot_lt_le. intros Hlt.
    assert (Ht : priority_above bound m = true).
    { apply priority_above_true; [exact Hb|]. exists p. auto. }
    congruence.
  - intros H. destruct (priority_above bound m) eqn:E; [|reflexivity].
    apply priority_above_true in E as (p & Hp & Hlt); [|exact Hb].
    destruct H as [H|(p' & Hp' & Hle)]; [congruence|].
    assert (p' = p) by congruence. subst p'. lra.
Qed.

Lemma priority_classes (m : BaseAgentMessage) :
  (priority_above 5 m = true <-> high_priority m) /\
  (priority_above 5 m = false /\ priority_above 2 m = true <-> normal_priority m) /\
  (priority_above 5 m = false /\ priority_above 2 m = false <-> low_priority m).
Proof.
  split; [|split].
  - apply priority_above_true. lra.
  - split.
    + intros [H5 H2]. apply priority_above_true in H2 as (p & Hp & Hlt); [|lra].
      assert (H05 : (0 <= 5)%Q) by lra.
      apply (proj1 (priority_above_false 5 m H05)) in H5.
      destruct H5 as [H5|(p' & Hp' & Hle)]; [congruence|].
      assert (p' = p) by congruence. subst p'. exists p. auto.
    + intros (p & Hp & Hlt & Hle). split.
      * apply priority_above_false; [lra|]. right. exists p. auto.
      * apply priority_above_true; [lra|]. exists p. auto.
  - split.
    + intros [_ H2]. apply priority_above_false in H2; [exact H2|lra].
    + intros H. split; apply priority_above_false; try lra.
      * destruct H as [H|(p & Hp & Hle)]; [left; exact H|].
        right. exists p. split; [exact Hp|lra].
      * exact H.
Qed.

Lemma enqueue_at_tiers (ms : Z) (m : BaseAgentMessage) (q : t) :
  all_ordered q ->
  let item := mkQueueItem m ms in
  enqueue_at ms m q =
    if priority_above 5 m
    then mk (placed item (high q)) (normal q) (low q) (_isProcessing q)
    else if priority_above 2 m
    then mk (high q) (placed item (normal q)) (low q) (_isProcessing q)
    else mk (high q) (normal q) (placed item (low q)) (_isProcessing q).
Proof.
  intros (Hh & Hn & Hl). cbn zeta. unfold enqueue_at, sortQueues.
  destruct (priority_above 5 m); [|destruct (priority_above 2 m)];
    cbn [high normal low _isProcessing];
    rewrite ?Array_sort_snoc by assumption;
    rewrite ?Array_sort_ordered_id by assumption; reflexivity.
Qed.

Lemma enqueue_at_lengths (ms : Z) (m : BaseAgentMessage) (q : t) :
  length (high (enqueue_at ms m q)) =
    (if priority_above 5 m then S (length (high q)) else length (high q)) /\
  length (normal (enqueue_at ms m q)) =
    (if priority_above 5 m then length (normal q)
     else if priority_above 2 m then S (length (normal q)) else length (normal q)) /\
  length (low (enqueue_at ms m q)) =
    (if priority_above 5 m then length (low q)
     else if priority_above 2 m then length (low q) else S (length (low q))).
Proof.
  unfold enqueue_at, sortQueues.
  destruct (priority_above 5 m); [|destruct (priority_above 2 m)];
    cbn [high normal low]; rewrite !Array_sort_length, ?length_app; cbn [length];
    repeat split; lia.
Qed.

Lemma enqueue_at_size (ms : Z) (m : BaseAgentMessage) (q : t) :
  size (enqueue_at ms m q) = size q + 1.
Proof.
  destruct (enqueue_at_lengths ms m q) as (L1 & L2 & L3).
  unfold size. rewrite L1, L2, L3.
  destruct (priority_above 5 m); [|destruct (priority_above 2 m)]; lia.
Qed.

Lemma enqueue_at_isProcessing (ms : Z) (m : BaseAgentMessage) (q : t) :
  _isProcessing (enqueue_at ms m q) = _isProcessing q.
Proof.
  unfold enqueue_at, sortQueues.
  destruct (priority_above 5 m); [|destruct (priority_above 2 m)]; reflexivity.
Qed.

Lemma enqueue_at_ordered (ms : Z) (m : BaseAgentMessage) (q : t) :
  all_ordered (enqueue_at ms m q).
Proof.
  unfold enqueue_at, sortQueues, all_ordered. cbn [high normal low].
  repeat split; apply Array_sort_ordered.
Qed.

Lemma ordered_tail (x : QueueItem) (l : list QueueItem) : ordered (x :: l) -> ordered l.
Proof. intros H. inversion H; assumption. Qed.

Lemma dequeueItem_cases (q : t) :
  dequeueItem q =
    match high q, normal q, low q with
    | x :: h, _, _ => (Some x, mk h (normal q) (low q) (_isProcessing q))
    | [], y :: n, _ => (Some y, mk [] n (low q) (_isProcessing q))
    | [], [], z :: l => (Some z, mk [] [] l (_isProcessing q))
    | [], [], [] => (None, mk [] [] [] (_isProcessing q))
    end.
Proof.
  destruct q as [h n l flag]. unfold dequeueItem. cbn [high normal low _isProcessing].
  destruct h as [|x h]; [|reflexivity].
  destruct n as [|y n]; [|reflexivity].
  destruct l as [|z l]; reflexivity.
Qed.

Lemma dequeueItem_ordered (q : t) : all_ordered q -> all_ordered (snd (dequeueItem q)).
Proof.
  rewrite dequeueItem_cases. destruct q as [h n l flag]. unfold all_ordered.
  cbn [high normal low _isProcessing]. intros (Hh & Hn & Hl).
  destruct h as [|x h]; [destruct n as [|y n]; [destruct l as [|z l]|]|];
    cbn [snd high normal low]; repeat split;
    try assumption; try constructor; eapply ordered_tail; eassumption.
Qed.

Lemma size_nonneg (q : t) : 0 <= size q.
Proof. unfold size. lia. Qed.

Lemma dequeue_some (q q1 : t) (m : BaseAgentMessage) :
  dequeue q = (Some m, q1) ->
  size q1 = size q - 1 /\ _isProcessing q1 = _isProcessing q.
Proof.
  unfold dequeue. rewrite dequeueItem_cases. unfold size.
  destruct q as [h n l flag]. cbn [high normal low _isProcessing].
  destruct h as [|x h]; [destruct n as [|y n]; [destruct l as [|z l]|]|];
    cbn; intros H; inversion H; subst; cbn [high normal low _isProcessing length];
    split; try reflexivity; lia.
Qed.

(** C4.  (1) [enqueue] adds the message to exactly one tier: to [high]
    exactly when its priority is greater than 5, to [normal] exactly
    when its priority is greater than 2 and not greater than 5, and to
    [low] exactly otherwise, which includes a message without priority.
    In a queue whose tiers are ordered by time stamp the new item goes
    behind the items of its tier stamped no later than it, and the other
    two tiers and the processing flag stay as they were.
    (2) [dequeue] returns the message at the head of the first
    non-empty tier in the order high, normal, low, removes it, and
    returns nothing from an empty queue.
    (3) Every tier is ordered by time stamp after any [enqueue], and
    [dequeue] and [clear] keep it so; in a tier whose items are all
    stamped no later than the new item, the new item is last, so
    messages leave a tier in the order they arrived. *)
Theorem tiers_and_order :
  (forall (q : t) (m : BaseAgentMessage) (ms : Z),
     let q' := enqueue_at ms m q in
     (length (high q') = S (length (high q)) <-> high_priority m) /\
     (length (normal q') = S (length (normal q)) <-> normal_priority m) /\
     (length (low q') = S (length (low q)) <-> low_priority m) /\
     size q' = size q + 1) /\
  (forall (q : t) (m : BaseAgentMessage) (ms : Z),
     all_ordered q ->
     let item := mkQueueItem m ms in
     let q' := enqueue_at ms m q in
     (high_priority m ->
      q' = mk (placed item (high q)) (normal q) (low q) (_isProcessing q)) /\
     (normal_priority m ->
      q' = mk (high q) (placed item (normal q)) (low q) (_isProcessing q)) /\
     (low_priority m ->
      q' = mk (high q) (normal q) (placed item (low q)) (_isProcessing q))) /\
  (forall q : t,
     dequeue q =
       match high q, normal q, low q with
       | x :: h, _, _ => (Some (message x), mk h (normal q) (low q) (_isProcessing q))
       | [], y :: n, _ => (Some (message y), mk [] n (low q) (_isProcessing q))
       | [], [], z :: l => (Some (message z), mk [] [] l (_isProcessing q))
       | [], [], [] => (None, mk [] [] [] (_isProcessing q))
       end) /\
  (all_ordered constructor /\
   (forall q m ms, all_ordered (enqueue_at ms m q)) /\
   (forall q, all_ordered q -> all_ordered (snd (dequeue q))) /\
   (forall q, all_ordered (clear q)) /\
   (forall (tier : list QueueItem) (item : QueueItem),
      Forall (fun y => addedAt y <= addedAt item) tier ->
      placed item tier = tier ++ [item])).
Proof.
  split; [|split; [|split]].
  - intros q m ms. cbn zeta.
    destruct (enqueue_at_lengths ms m q) as (L1 & L2 & L3).
    destruct (priority_classes m) as (C5 & C2 & C0).
    rewrite enqueue_at_size, L1, L2, L3.
    destruct (priority_above 5 m) eqn:E5; [|destruct (priority_above 2 m) eqn:E2].
    + repeat split; try (intros; lia); try (intros _; apply C5; reflexivity).
      * intros H. apply C2 in H as [H _]. discriminate.
      * intros H. apply C0 in H as [H _]. discriminate.
    + repeat split; try (intros; lia); try (intros _; apply C2; auto).
      * intros H. apply C5 in H. discriminate.
      * intros H. apply C0 in H as [_ H]. discriminate.
    + repeat split; try (intros; lia); try (intros _; apply C0; auto).
      * intros H. apply C5 in H. discriminate.
      * intros H. apply C2 in H as [_ H]. discriminate.
  - intros q m ms Hq. cbn zeta. rewrite (enqueue_at_tiers ms m q Hq). cbn zeta.
    destruct (priority_classes m) as (C5 & C2 & C0).
    repeat split.
    + intros H. apply C5 in H. rewrite H. reflexivity.
    + intros H. apply C2 in H as [H5 H2]. rewrite H5, H2. reflexivity.
    + intros H. apply C0 in H as [H5 H2]. rewrite H5, H2. reflexivity.
  - intros q. unfold dequeue. rewrite dequeueItem_cases.
    destruct (high q) as [|x h]; [destruct (normal q) as [|y n];
      [destruct (low q) as [|z l]|]|]; reflexivity.
  - repeat split; try constructor.
    + apply Array_sort_ordered.
    + apply Array_sort_ordered.
    + apply Array_sort_ordered.
    + unfold dequeue. pose proof (dequeueItem_ordered q H) as (A & B & C).
      destruct (dequeueItem q). exact A.
    + unfold dequeue. pose proof (dequeueItem_ordered q H) as (A & B & C).
      destruct (dequeueItem q). exact B.
    + unfold dequeue. pose proof (dequeueItem_ordered q H) as (A & B & C).
      destruct (dequeueItem q). exact C.
    + apply placed_at_tail.
Qed.

Definition message_with (name : string) (prio : option Q) : BaseAgentMessage :=
  mkMessage name "TASK" "worker" JsUndefined prio None.

Definition busy_queue : t :=
  mk [mkQueueItem (message_with "a" (Some 7%Q)) 10]
     [mkQueueItem (message_with "b" (Some 3%Q)) 11]
     [mkQueueItem (message_with "c" None) 12] false.

Lemma tiers_and_order_witness :
  enqueue_at 20 (message_with "d" (Some 6%Q)) busy_queue =
    mk (placed (mkQueueItem (message_with "d" (Some 6%Q)) 20) (high busy_queue))
       (normal busy_queue) (low busy_queue) false /\
  enqueue_at 20 (message_with "e" (Some 5%Q)) busy_queue =
    mk (high busy_queue)
       (placed (mkQueueItem (message_with "e" (Some 5%Q)) 20) (normal busy_queue))
       (low busy_queue) false /\
  enqueue_at 20 (message_with "f" (Some 2%Q)) busy_queue =
    mk (high busy_queue) (normal busy_queue)
       (placed (mkQueueItem (message_with "f" (Some 2%Q)) 20) (low busy_queue)) false /\
  all_ordered (snd (dequeue busy_queue)) /\
  placed (mkQueueItem (message_with "d" (Some 6%Q)) 20) (high busy_queue) =
    high busy_queue ++ [mkQueueItem (message_with "d" (Some 6%Q)) 20].
Proof.
  destruct tiers_and_order as (_ & T2 & _ & (_ & _ & T4 & _ & T5)).
  assert (Hq : all_ordered busy_queue).
  { repeat split; repeat constructor. }
  split; [|split; [|split; [|split]]].
  - apply (T2 busy_queue (message_with "d" (Some 6%Q)) 20 Hq).
    exists 6%Q. split; [reflexivity|]. reflexivity.
  - apply (T2 busy_queue (message_with "e" (Some 5%Q)) 20 Hq).
    exists 5%Q. split; [reflexivity|]. split; [reflexivity|]. discriminate.
  - apply (T2 busy_queue (message_with "f" (Some 2%Q)) 20 Hq).
    right. exists 2%Q. split; [reflexivity|]. discriminate.
  - apply (T4 busy_queue Hq).
  - apply T5. repeat constructor. cbn. lia.
Defined.

End PriorityMessageQueueProps.

(** ** Retry with backoff *)

Module RetryProps.
Import Utils.

(** What a run of [withRetry] does to the outside: it starts the
    operation and it waits. *)
Inductive Event : Type :=
| Invoked
| Slept (ms : Z).

Definition is_invocation (ev : Event) : bool :=
  match ev with Invoked => true | Slept _ => false end.

Definition invocations (trace : list Event) : nat :=
  length (List.filter is_invocation trace).

Fixpoint delays (trace : list Event) : list Z :=
  match trace with
  | [] => []
  | Invoked :: rest => delays rest
  | Slept ms :: rest => ms :: delays rest
  end.

(** The failed attempts [first], [first + 1], ..., each followed by
    its backoff wait. *)
Fixpoint failed_attempts (baseDelayMs first : Z) (count : nat) : list Event :=
  match count with
  | O => []
  | S count' =>
      Invoked :: Slept (baseDelayMs * 2 ^ first)
        :: failed_attempts baseDelayMs (first + 1) count'
  end.

Section Traced.
Context {World T : Type}.

(** A world with a log of what happened in it. *)
Definition traced (operation : M World T) : M (list Event * World) T :=
  fun '(trace, w) => let '(r, w') := operation w in (r, (trace ++ [Invoked], w')).

Definition traced_sleep (ms : Z) (s : list Event * World) : list Event * World :=
  (fst s ++ [Slept ms], snd s).

Definition gave_up (operationName : string) (maxRetries : Z) : JsError :=
  AgentError None
    ("Operation " +:+ operationName +:+ " failed after " +:+ pretty maxRetries +:+ " retries").

Lemma withRetry_loop_trace (operation : M World T) (maxRetries baseDelayMs : Z)
    (operationName : string) (turns : nat) (attempt : Z) (lastError : JsError)
    (trace : list Event) (w : World) :
  0 <= attempt <= maxRetries ->
  turns = Z.to_nat (maxRetries + 1 - attempt) ->
  exists (retries : nat) (r : Outcome T) (w' : World),
    withRetry_loop traced_sleep (traced operation) maxRetries baseDelayMs operationName
      turns attempt lastError (trace, w) =
      (r, (trace ++ failed_attempts baseDelayMs attempt retries ++ [Invoked], w')) /\
    Z.of_nat retries <= maxRetries - attempt /\
    (forall e, r = Thrown e ->
       Z.of_nat retries = maxRetries - attempt /\ e = gave_up operationName maxRetries).
Proof.
  revert attempt lastError trace w.
  induction turns as [|turns IH]; intros attempt lastError trace w Hatt Hturns; [lia|].
  cbn [withRetry_loop].
  assert (Hle : (attempt <=? maxRetries) = true) by (apply Z.leb_le; lia).
  rewrite Hle. unfold try_catch, traced at 1.
  destruct (operation w) as [[v|error] w1].
  - exists 0%nat, (Returned v), w1. cbn [failed_attempts app].
    split; [reflexivity|]. split; [lia|]. intros e He. discriminate.
  - destruct (attempt =? maxRetries) eqn:Elast.
    + apply Z.eqb_eq in Elast.
      exists 0%nat, (Thrown (gave_up operationName maxRetries)), w1.
      cbn [failed_attempts app]. split; [reflexivity|]. split; [lia|].
      intros e He. injection He as <-. split; [lia|reflexivity].
    + apply Z.eqb_neq in Elast.
      unfold mbind, M_bind, modify.
      change (traced_sleep (baseDelayMs * 2 ^ attempt) (trace ++ [Invoked], w1))
        with ((trace ++ [Invoked]) ++ [Slept (baseDelayMs * 2 ^ attempt)], w1).
      destruct (IH (attempt + 1) (as_Error error)
                  ((trace ++ [Invoked]) ++ [Slept (baseDelayMs * 2 ^ attempt)]) w1
                  ltac:(lia) ltac:(lia))
        as (retries & r & w' & Hrun & Hbound & Hthrown).
      exists (S retries), r, w'. split; [|split].
      * rewrite Hrun. cbn [failed_attempts]. rewrite <- !app_assoc. reflexivity.
      * lia.
      * intros e He. destruct (Hthrown e He) as [H1 H2]. split; [lia|exact H2].
Qed.

Lemma invocations_app (l1 l2 : list Event) :
  invocations (l1 ++ l2) = (invocations l1 + invocations l2)%nat.
Proof. unfold invocations. rewrite List.filter_app, length_app. reflexivity. Qed.

Lemma delays_app (l1 l2 : list Event) : delays (l1 ++ l2) = delays l1 ++ delays l2.
Proof.
  induction l1 as [|[|ms] l1 IH]; cbn; [reflexivity|exact IH|]. by rewrite IH.
Qed.

Lemma failed_attempts_invocations (baseDelayMs first : Z) (count : nat) :
  invocations (failed_attempts baseDelayMs first count) = count.
Proof.
  revert first. induction count as [|count IH]; intros first; [reflexivity|].
  cbn [failed_attempts]. unfold invocations in *. cbn. by rewrite IH.
Qed.

Lemma failed_attempts_delays (baseDelayMs first : Z) (count : nat) :
  delays (failed_attempts baseDelayMs first count) =
    (fun k : nat => baseDelayMs * 2 ^ (first + Z.of_nat k)) <$> seq 0 count.
Proof.
  revert first. induction count as [|count IH]; intros first; [reflexivity|].
  cbn [failed_attempts delays seq fmap list_fmap]. rewrite IH.
  replace (first + Z.of_nat 0) with first by lia. f_equal.
  rewrite <- fmap_S_seq, <- list_fmap_compose. apply list_fmap_ext.
  intros _ k _. cbn. f_equal. f_equal. lia.
Qed.

(** C8, as the code has it.  For every operation and every whole number
    [maxRetries >= 0], [withRetry] starts the operation at least once
    and at most [maxRetries + 1] times: a first attempt and at most
    [maxRetries] retries.  Every start but the last is a failed attempt
    directly followed by a wait, and the wait after failed attempt
    number k, counting from 0, is [baseDelayMs * 2 ^ k] milliseconds.
    When [withRetry] throws, the operation was started exactly
    [maxRetries + 1] times and the error is the one that reports
    [maxRetries] retries. *)
Theorem retry_bound_and_backoff (operation : M World T) (maxRetries baseDelayMs : Z)
    (operationName : string) (w : World) :
  0 <= maxRetries ->
  let run :=
    withRetry traced_sleep (traced operation) maxRetries baseDelayMs operationName ([], w) in
  let trace := fst (snd run) in
  (1 <= invocations trace)%nat /\
  Z.of_nat (invocations trace) <= maxRetries + 1 /\
  trace = failed_attempts baseDelayMs 0 (invocations trace - 1) ++ [Invoked] /\
  delays trace =
    (fun k : nat => baseDelayMs * 2 ^ Z.of_nat k) <$> seq 0 (invocations trace - 1) /\
  (forall e, fst run = Thrown e ->
     Z.of_nat (invocations trace) = maxRetries + 1 /\
     e = gave_up operationName maxRetries).
Proof.
  intros Hmax. cbn zeta. unfold withRetry.
  destruct (withRetry_loop_trace operation maxRetries baseDelayMs operationName
              (Z.to_nat (maxRetries + 1)) 0 ThrownUndefined [] w)
    as (retries & r & w' & Hrun & Hbound & Hthrown); [lia|f_equal; lia|].
  rewrite Hrun. cbn [fst snd app].
  assert (Hinv : invocations (failed_attempts baseDelayMs 0 retries ++ [Invoked]) = S retries).
  { rewrite invocations_app, failed_attempts_invocations. cbn. lia. }
  rewrite Hinv. replace (S retries - 1)%nat with retries by lia.
  repeat split.
  - lia.
  - lia.
  - rewrite delays_app, failed_attempts_delays. cbn [delays]. rewrite app_nil_r.
    reflexivity.
  - destruct (Hthrown e H). lia.
  - destruct (Hthrown e H). assumption.
Qed.
End Traced.

Definition always_down : M unit unit := fun w => (Thrown (Error "worker down"), w).

Lemma retry_bound_and_backoff_witness :
  let run := withRetry traced_sleep (traced always_down) 2 1000 "job" ([], tt) in
  let trace := fst (snd run) in
  (1 <= invocations trace)%nat /\
  Z.of_nat (invocations trace) <= 2 + 1 /\
  trace = failed_attempts 1000 0 (invocations trace - 1) ++ [Invoked] /\
  delays trace = (fun k : nat => 1000 * 2 ^ Z.of_nat k) <$> seq 0 (invocations trace - 1) /\
  (forall e, fst run = Thrown e ->
     Z.of_nat (invocations trace) = 2 + 1 /\ e = gave_up "job" 2).
Proof.
  apply (retry_bound_and_backoff always_down 2 1000 "job" tt). lia.
Defined.

(** With [maxRetries = 2] an operation that always fails is started
    three times, which is more than [maxRetries] times. *)
Lemma retry_bound_counterexample :
  let run := withRetry traced_sleep (traced always_down) 2 1000 "job" ([], tt) in
  fst (snd run) = [Invoked; Slept 1000; Invoked; Slept 2000; Invoked] /\
  invocations (fst (snd run)) = 3%nat /\
  ~ (Z.of_nat (invocations (fst (snd run))) <= 2).
Proof.
  cbn zeta. split; [vm_compute; reflexivity|]. split; [vm_compute; reflexivity|].
  vm_compute. intros H. apply H. reflexivity.
Qed.

End RetryProps.

(** ** The registry *)

Module AgentRegistryProps.
Import AgentRegistry.

Definition name_taken (name : string) : JsError :=
  Error ("Agent with name " +:+ name +:+ " already exists").

Definition registry_full : JsError := Error "Maximum number of agents reached".

Lemma registerAgent_taken (r : t) (name : string) (a existing : Agent) :
  agents r !! name = Some existing ->
  registerAgent name (Some a) r = (Thrown (name_taken name), r).
Proof.
  intros H. unfold registerAgent. rewrite bool_decide_eq_true_2; [reflexivity|].
  rewrite H. eauto.
Qed.

Lemma registerAgent_full (r : t) (name : string) (a : Agent) :
  agents r !! name = None ->
  maxAgents r <= Z.of_nat (base.size (agents r)) ->
  registerAgent name (Some a) r = (Thrown registry_full, r).
Proof.
  intros Hfree Hfull. unfold registerAgent.
  rewrite bool_decide_eq_false_2 by (rewrite Hfree; apply is_Some_None).
  assert (E : (Z.of_nat (base.size (agents r)) >=? maxAgents r) = true)
    by (apply Z.geb_le; lia).
  rewrite E. reflexivity.
Qed.

Lemma registerAgent_accepted (r : t) (name : string) (a : Agent) :
  agents r !! name = None ->
  Z.of_nat (base.size (agents r)) < maxAgents r ->
  registerAgent name (Some a) r =
    (Returned tt,
     mk (<[name := a]> (agents r)) (maxAgents r) (healthCheckInterval r)
        (healthCheckTimer r)
        (<[name := snapshot name a]> (lastHealthCheck r))).
Proof.
  intros Hfree Hroom. unfold registerAgent.
  rewrite bool_decide_eq_false_2 by (rewrite Hfree; apply is_Some_None).
  assert (E : (Z.of_nat (base.size (agents r)) >=? maxAgents r) = false).
  { destruct (Z.of_nat (base.size (agents r)) >=? maxAgents r) eqn:G; [|reflexivity].
    apply Z.geb_le in G. lia. }
  rewrite E. reflexivity.
Qed.

(** C9.  (1) A registry built with [maxAgents = 1] accepts the first
    registration of an agent and then holds exactly that agent; a
    second registration under another name is rejected with the
    capacity error and leaves the registry as it was.
    (2) In every registry, registering an agent under a name that is
    already taken is rejected with the name-collision error and leaves
    the registry, its agent map included, as it was. *)
Theorem capacity_and_uniqueness :
  (forall (cfg : RegistryConfig) (first second : string) (a1 a2 : Agent),
     config_maxAgents cfg = Some 1 ->
     first <> second ->
     exists r1,
       registerAgent first (Some a1) (constructor (Some cfg)) = (Returned tt, r1) /\
       agents r1 = {[first := a1]} /\
       registerAgent second (Some a2) r1 = (Thrown registry_full, r1)) /\
  (forall (r : t) (name : string) (a existing : Agent),
     agents r !! name = Some existing ->
     registerAgent name (Some a) r = (Thrown (name_taken name), r)).
Proof.
  split.
  - intros cfg first second a1 a2 Hmax Hne.
    assert (Hnew : maxAgents (constructor (Some cfg)) = 1).
    { unfold constructor. cbn. rewrite Hmax. reflexivity. }
    eexists. split; [|split].
    + apply registerAgent_accepted.
      * unfold constructor. cbn. apply lookup_empty.
      * rewrite Hnew. unfold constructor. cbn. rewrite map_size_empty. lia.
    + cbn. apply insert_empty.
    + apply registerAgent_full.
      * cbn. rewrite lookup_insert_ne by exact Hne. apply lookup_empty.
      * cbn. rewrite Hmax. cbn. rewrite map_size_insert_None by apply lookup_empty.
        rewrite map_size_empty. lia.
  - intros r name a existing. apply registerAgent_taken.
Qed.

Definition idle_worker (workerName : string) : Agent := mkAgent workerName IDLE 0.

Lemma capacity_and_uniqueness_witness :
  (exists r1,
     registerAgent "test1" (Some (idle_worker "test1"))
       (constructor (Some (mkConfig (Some 1) None))) = (Returned tt, r1) /\
     agents r1 = {["test1" := idle_worker "test1"]} /\
     registerAgent "test2" (Some (idle_worker "test2")) r1 = (Thrown registry_full, r1)) /\
  registerAgent "test" (Some (idle_worker "other"))
    (mk {["test" := idle_worker "test"]} 10 1000 true ∅) =
    (Thrown (name_taken "test"), mk {["test" := idle_worker "test"]} 10 1000 true ∅).
Proof.
  destruct capacity_and_uniqueness as [C1 C2]. split.
  - apply (C1 (mkConfig (Some 1) None) "test1" "test2"); [reflexivity|discriminate].
  - apply (C2 _ "test" (idle_worker "other") (idle_worker "test")).
    vm_compute. reflexivity.
Defined.

End AgentRegistryProps.

(** ** Clearing a queue *)

Module ClearProps.

Section Props.
Context {Env : Type}.
Variable rt : Runtime Env.

Lemma drain_empty (passes : nat) (o : OrchestratorAgent.t) (e : Env) :
  PriorityMessageQueue.size (OrchestratorAgent.messageQueue o) = 0 ->
  OrchestratorAgent.drain rt passes (o, e) =
    (Returned OrchestratorAgent.Finished,
     (OrchestratorAgent.set_messageQueue
        (PriorityMessageQueue.set_isProcessing false (OrchestratorAgent.messageQueue o)) o,
      e)).
Proof.
  intros Hsize. destruct passes; cbn [OrchestratorAgent.drain];
    unfold mbind, M_bind, OrchestratorAgent.this; cbn [fst]; rewrite Hsize; reflexivity.
Qed.

(** C10.  [PriorityMessageQueue.clear] empties the three tiers, so the
    size becomes 0, and leaves the processing flag as it was: cleared
    while the flag is set, the queue still reads as processing. The
    drain loop is what resets it: at its next test it finds the queue
    empty, leaves and sets the flag to false. [MessageQueue.clear]
    empties the queue and sets its own flag to false. *)
Theorem clear_and_processing_flag :
  (forall q : PriorityMessageQueue.t,
     PriorityMessageQueue.high (PriorityMessageQueue.clear q) = [] /\
     PriorityMessageQueue.normal (PriorityMessageQueue.clear q) = [] /\
     PriorityMessageQueue.low (PriorityMessageQueue.clear q) = [] /\
     PriorityMessageQueue.size (PriorityMessageQueue.clear q) = 0 /\
     PriorityMessageQueue.isProcessing (PriorityMessageQueue.clear q) =
       PriorityMessageQueue.isProcessing q) /\
  (forall (passes : nat) (o : OrchestratorAgent.t) (e : Env),
     let cleared :=
       OrchestratorAgent.set_messageQueue
         (PriorityMessageQueue.clear (OrchestratorAgent.messageQueue o)) o in
     OrchestratorAgent.drain rt passes (cleared, e) =
       (Returned OrchestratorAgent.Finished,
        (OrchestratorAgent.set_messageQueue (PriorityMessageQueue.mk [] [] [] false) o, e))) /\
  (forall (World : Type) (q : MessageQueue.t World) (w : World),
     MessageQueue.clear (q, w) =
       (Returned tt,
        (MessageQueue.mk [] false (MessageQueue.maxSize q) (MessageQueue.processCallback q),
         w))).
Proof.
  split; [|split].
  - intros q. repeat split.
  - intros passes o e. cbn zeta. rewrite drain_empty; reflexivity.
  - intros World q w. reflexivity.
Qed.
End Props.

End ClearProps.

(** ** The per-agent queue *)

Module MessageQueueProps.
Import MessageQueue.

Definition queue_full : JsError := AgentError (Some QUEUE_FULL) "Queue is full".
Definition not_a_function : JsError := TypeError "this.processCallback is not a function".

Section Props.
Context {World : Type}.

(** The guard of [enqueue]. *)
Lemma enqueue_full (m : BaseAgentMessage) (q : t World) (w : World) :
  maxSize q <= Z.of_nat (length (queue q)) ->
  enqueue m (q, w) = (Thrown queue_full, (q, w)).
Proof.
  intros H. unfold enqueue, mbind, M_bind, this. cbn [fst].
  assert (E : (Z.of_nat (length (queue q)) >=? maxSize q) = true)
    by (apply Z.geb_le; lia).
  rewrite E. reflexivity.
Qed.

(** An idle empty queue with room takes the message and hands it to
    the callback at once. *)
Lemma enqueue_idle_empty (m : BaseAgentMessage) (size : Z) (callback : Callback World)
    (w : World) :
  0 < size ->
  enqueue m (mk [] false size callback, w) =
    match callback with
    | Function f =>
        match f m w with
        | (Returned _, w') => (Returned tt, (mk [] false size callback, w'))
        | (Thrown e, w') => (Thrown e, (mk [] false size callback, w'))
        end
    | NotCallable _ => (Thrown not_a_function, (mk [] false size callback, w))
    end.
Proof.
  intros Hsize. unfold enqueue, mbind, M_bind, this. cbn [fst queue maxSize length].
  assert (E : (Z.of_nat 0 >=? size) = false).
  { destruct (Z.of_nat 0 >=? size) eqn:G; [|reflexivity]. apply Z.geb_le in G. lia. }
  rewrite E.
  destruct callback as [f|v]; cbv; [|reflexivity].
  destruct (f m w) as [[[]|e] w']; reflexivity.
Qed.

(** A callback that resolves for every message. *)
Definition resolves (f : BaseAgentMessage -> M World unit) : Prop :=
  forall m w, exists w', f m w = (Returned tt, w').

Lemma enqueue_resolving (f : BaseAgentMessage -> M World unit) (m : BaseAgentMessage)
    (size : Z) (w : World) :
  0 < size ->
  resolves f ->
  exists w',
    enqueue m (mk [] false size (Function f), w) =
      (Returned tt, (mk [] false size (Function f), w')).
Proof.
  intros Hsize Hf. rewrite enqueue_idle_empty by exact Hsize.
  destruct (Hf m w) as [w' Hw]. rewrite Hw. eauto.
Qed.

Variable Date_now : World -> Z * World.
Variable ZodError_message : Unknown -> string.

Lemma enqueueMessage_fresh (cfg : AgentConfig) (input : Unknown) (m : BaseAgentMessage)
    (w : World) :
  BaseMessageSchema_parse input = Some m ->
  let s0 := BaseAgent.constructor Date_now cfg w in
  BaseAgent.enqueueMessage ZodError_message input s0 = (Thrown not_a_function, s0).
Proof.
  intros Hparse. cbn zeta. unfold BaseAgent.constructor.
  destruct (Date_now w) as [ms w1].
  unfold BaseAgent.enqueueMessage, BaseAgent.validateMessage, mbind, M_bind.
  rewrite Hparse. unfold mret, M_ret, BaseAgent.on_messageQueue.
  cbn [BaseAgent.messageQueue]. unfold constructor. cbn [default].
  rewrite enqueue_idle_empty by lia. reflexivity.
Qed.

(** C6, what the code does.  (1) An agent built by the [BaseAgent]
    constructor, whatever [maxQueueSize] its configuration gives, has a
    queue whose limit is 100 and whose callback is that number; each of
    three [enqueueMessage] calls with well-formed messages is rejected
    with a [TypeError], none with a queue-full error, and the queue is
    empty after them.
    (2) A [MessageQueue] built with a callback that resolves and a
    limit of 2 accepts three [enqueue] calls in a row and is empty
    after them.
    (3) The guard of [enqueue] taken alone: an [enqueue] on a queue
    whose length is at or above its limit throws the queue-full error
    and leaves queue and world as they were. *)
Theorem agent_queue_capacity :
  (forall (cfg : AgentConfig) (w : World) (i1 i2 i3 : Unknown) (m1 m2 m3 : BaseAgentMessage),
     BaseMessageSchema_parse i1 = Some m1 ->
     BaseMessageSchema_parse i2 = Some m2 ->
     BaseMessageSchema_parse i3 = Some m3 ->
     let s0 := BaseAgent.constructor Date_now cfg w in
     let r1 := BaseAgent.enqueueMessage ZodError_message i1 s0 in
     let r2 := BaseAgent.enqueueMessage ZodError_message i2 (snd r1) in
     let r3 := BaseAgent.enqueueMessage ZodError_message i3 (snd r2) in
     maxSize (BaseAgent.messageQueue (fst s0)) = 100 /\
     processCallback (BaseAgent.messageQueue (fst s0)) =
       NotCallable (JsNumber (inject_Z (default 1000 (maxQueueSize cfg)))) /\
     fst r1 = Thrown not_a_function /\
     fst r2 = Thrown not_a_function /\
     fst r3 = Thrown not_a_function /\
     size (BaseAgent.messageQueue (fst (snd r3))) = 0) /\
  (forall (f : BaseAgentMessage -> M World unit) (m1 m2 m3 : BaseAgentMessage) (w : World),
     resolves f ->
     let s0 := (constructor (Function f) (Some 2), w) in
     let r1 := enqueue m1 s0 in
     let r2 := enqueue m2 (snd r1) in
     let r3 := enqueue m3 (snd r2) in
     fst r1 = Returned tt /\ fst r2 = Returned tt /\ fst r3 = Returned tt /\
     size (fst (snd r3)) = 0) /\
  (forall (m : BaseAgentMessage) (q : t World) (w : World),
     maxSize q <= Z.of_nat (length (queue q)) ->
     enqueue m (q, w) = (Thrown queue_full, (q, w))).
Proof.
  split; [|split].
  - intros cfg w i1 i2 i3 m1 m2 m3 H1 H2 H3. cbn zeta.
    rewrite (enqueueMessage_fresh cfg i1 m1 w H1). cbn [snd].
    rewrite (enqueueMessage_fresh cfg i2 m2 w H2). cbn [snd].
    rewrite (enqueueMessage_fresh cfg i3 m3 w H3). cbn [fst snd].
    unfold BaseAgent.constructor. destruct (Date_now w) as [ms w1].
    repeat split.
  - intros f m1 m2 m3 w Hf. cbn zeta.
    change (constructor (Function f) (Some 2)) with (mk [] false 2 (Function f)).
    destruct (enqueue_resolving f m1 2 w ltac:(lia) Hf) as [w1 E1]. rewrite E1. cbn [snd].
    destruct (enqueue_resolving f m2 2 w1 ltac:(lia) Hf) as [w2 E2]. rewrite E2. cbn [snd].
    destruct (enqueue_resolving f m3 2 w2 ltac:(lia) Hf) as [w3 E3]. rewrite E3.
    repeat split.
  - intros m q w. apply enqueue_full.
Qed.
End Props.

Definition frozen_clock (w : Z) : Z * Z := (w, w).
Definition zod_says (input : Unknown) : string := "Required".
Definition task (name : string) : BaseAgentMessage :=
  mkMessage name "TEST" "test-agent" (JsObject "{}") None (Some 0%Q).
Definition capacity_two : AgentConfig := mkAgentConfig "small" None (Some 2) None None.
Definition count_calls (m : BaseAgentMessage) : M Z unit := fun w => (Returned tt, w + 1).

Lemma agent_queue_capacity_witness :
  (let s0 := BaseAgent.constructor frozen_clock capacity_two 0 in
   let r1 := BaseAgent.enqueueMessage zod_says (to_unknown (task "1")) s0 in
   let r2 := BaseAgent.enqueueMessage zod_says (to_unknown (task "2")) (snd r1) in
   let r3 := BaseAgent.enqueueMessage zod_says (to_unknown (task "3")) (snd r2) in
   maxSize (BaseAgent.messageQueue (fst s0)) = 100 /\
   processCallback (BaseAgent.messageQueue (fst s0)) =
     NotCallable (JsNumber (inject_Z (default 1000 (maxQueueSize capacity_two)))) /\
   fst r1 = Thrown not_a_function /\
   fst r2 = Thrown not_a_function /\
   fst r3 = Thrown not_a_function /\
   size (BaseAgent.messageQueue (fst (snd r3))) = 0) /\
  (let s0 := (constructor (Function count_calls) (Some 2), 0) in
   let r1 := enqueue (task "1") s0 in
   let r2 := enqueue (task "2") (snd r1) in
   let r3 := enqueue (task "3") (snd r2) in
   fst r1 = Returned tt /\ fst r2 = Returned tt /\ fst r3 = Returned tt /\
   size (fst (snd r3)) = 0) /\
  enqueue (task "3") (mk [task "1"; task "2"] true 2 (Function count_calls), 0) =
    (Thrown queue_full, (mk [task "1"; task "2"] true 2 (Function count_calls), 0)).
Proof.
  destruct (agent_queue_capacity frozen_clock zod_says) as (Q1 & Q2 & Q3).
  split; [|split].
  - apply (Q1 capacity_two 0 _ _ _ (task "1") (task "2") (task "3")); reflexivity.
  - apply (Q2 count_calls). intros m w. eexists. reflexivity.
  - apply Q3. cbn. lia.
Defined.

End MessageQueueProps.

(** ** The orchestrator *)

Module OrchestratorProps.
Import OrchestratorAgent.

Section Props.
Context {Env : Type}.
Variable rt : Runtime Env.

Definition queue_limit (o : t) : Z := default 1000 (maxQueueSize (base (config o))).
Definition retry_limit (o : t) : Z := default 3 (maxRetries (base (config o))).

(** The orchestrator once [m] has been put on its queue at [ms]. *)
Definition with_enqueued (ms : Z) (m : BaseAgentMessage) (o : t) : t :=
  set_messageQueue (PriorityMessageQueue.enqueue_at ms m (messageQueue o)) o.

Lemma queue_enqueue_run (m : BaseAgentMessage) (o : t) (e : Env) :
  queue_enqueue rt m (o, e) =
    (Returned tt, (with_enqueued (fst (Date_now rt e)) m o, snd (Date_now rt e))).
Proof.
  unfold queue_enqueue, now, on_snd, assign, mbind, M_bind.
  destruct (Date_now rt e) as [ms e1]. reflexivity.
Qed.

(** *** The drain loop and an unhealthy target *)

Definition healthy_at (currentTime : Z) (o : t) (stateInfo : AgentStateInfo) : bool :=
  negb (CircuitBreaker.CircuitState_eqb
          (CircuitBreaker.getState (circuitBreaker stateInfo)) CircuitBreaker.OPEN)
  && (currentTime - lastActiveTime stateInfo <? default 30000 (timeoutMs (base (config o))))
  && negb (AgentState_eqb (state stateInfo) ERROR).

Lemma isAgentHealthy_run (agentName : string) (stateInfo : AgentStateInfo)
    (o : t) (e : Env) :
  agentStates o !! agentName = Some stateInfo ->
  isAgentHealthy rt agentName (o, e) =
    (Returned (healthy_at (fst (Date_now rt e)) o stateInfo), (o, snd (Date_now rt e))).
Proof.
  intros H. unfold isAgentHealthy, mbind, M_bind, this, now, on_snd. cbn [fst].
  rewrite H. destruct (Date_now rt e) as [ms e1]. reflexivity.
Qed.

Lemma dispatch_unhealthy (m : BaseAgentMessage) (agent : Agent)
    (stateInfo : AgentStateInfo) (o : t) (e : Env) :
  agents o !! targetAgent m = Some agent ->
  agentStates o !! targetAgent m = Some stateInfo ->
  healthy_at (fst (Date_now rt e)) o stateInfo = false ->
  dispatch rt m (o, e) =
    let e1 := snd (Date_now rt e) in
    if errorCount stateInfo <? retry_limit o
    then (Returned tt, (with_enqueued (fst (Date_now rt e1)) m o, snd (Date_now rt e1)))
    else (Returned tt,
          (o, console_error rt
                ("Agent " +:+ targetAgent m +:+ " is unhealthy, dropping message") e1)).
Proof.
  intros Hagent Hinfo Hsick. cbn zeta.
  unfold dispatch. unfold mbind at 1, M_bind at 1, this at 1. cbn [fst].
  rewrite Hagent, Hinfo. unfold mbind at 1, M_bind at 1.
  rewrite (isAgentHealthy_run _ stateInfo) by exact Hinfo.
  rewrite Hsick. cbn [negb]. unfold retry_limit.
  destruct (errorCount stateInfo <? _).
  - apply queue_enqueue_run.
  - reflexivity.
Qed.

Lemma drain_suspends (o : t) (e : Env) :
  0 < PriorityMessageQueue.size (messageQueue o) ->
  drain rt 0 (o, e) = (Returned Suspended, (o, e)).
Proof.
  intros H. cbn [drain]. unfold mbind, M_bind, this. cbn [fst].
  assert (E : (PriorityMessageQueue.size (messageQueue o) >? 0) = true)
    by (apply Z.gtb_lt; lia).
  rewrite E. reflexivity.
Qed.

Lemma drain_0_queue (o : t) (e : Env) :
  let queue' := messageQueue (fst (snd (drain rt 0 (o, e)))) in
  (exists progress, fst (drain rt 0 (o, e)) = Returned progress) /\
  PriorityMessageQueue.high queue' = PriorityMessageQueue.high (messageQueue o) /\
  PriorityMessageQueue.normal queue' = PriorityMessageQueue.normal (messageQueue o) /\
  PriorityMessageQueue.low queue' = PriorityMessageQueue.low (messageQueue o).
Proof.
  cbn zeta. cbn [drain]. unfold mbind, M_bind, this. cbn [fst].
  destruct (PriorityMessageQueue.size (messageQueue o) >? 0); cbn; eauto.
Qed.

(** C7.  Let the drain loop take one pass in which it dequeues a
    message whose target is registered and is found unhealthy by
    [isAgentHealthy].  The pass returns without throwing.  If the
    target's [errorCount] is below [maxRetries] (3 when absent), the
    message is enqueued again, stamped with the clock reading taken
    after the health check, and the queue is as large as before the
    pass.  If [errorCount] has reached [maxRetries], the message is not
    enqueued again: the tiers are as the dequeue left them and the
    queue is smaller by one. *)
Theorem requeue_or_drop (m : BaseAgentMessage) (q1 : PriorityMessageQueue.t)
    (agent : Agent) (stateInfo : AgentStateInfo) (o : t) (e : Env) :
  PriorityMessageQueue.dequeue (messageQueue o) = (Some m, q1) ->
  agents o !! targetAgent m = Some agent ->
  agentStates o !! targetAgent m = Some stateInfo ->
  fst (isAgentHealthy rt (targetAgent m) (o, e)) = Returned false ->
  let run := drain rt 1 (o, e) in
  let queue' := messageQueue (fst (snd run)) in
  (exists progress, fst run = Returned progress) /\
  (errorCount stateInfo < retry_limit o ->
   queue' =
     PriorityMessageQueue.enqueue_at (fst (Date_now rt (snd (Date_now rt e)))) m q1 /\
   PriorityMessageQueue.size queue' = PriorityMessageQueue.size (messageQueue o)) /\
  (retry_limit o <= errorCount stateInfo ->
   PriorityMessageQueue.high queue' = PriorityMessageQueue.high q1 /\
   PriorityMessageQueue.normal queue' = PriorityMessageQueue.normal q1 /\
   PriorityMessageQueue.low queue' = PriorityMessageQueue.low q1 /\
   PriorityMessageQueue.size queue' = PriorityMessageQueue.size (messageQueue o) - 1).
Proof.
  intros Hdeq Hagent Hinfo Hsick. cbn zeta.
  rewrite (isAgentHealthy_run _ stateInfo) in Hsick by exact Hinfo.
  cbn [fst] in Hsick. injection Hsick as Hsick.
  destruct (PriorityMessageQueueProps.dequeue_some _ _ _ Hdeq) as [Hsize Hflag].
  pose proof (PriorityMessageQueueProps.size_nonneg q1) as Hq1.
  assert (Hrun : drain rt 1 (o, e) =
    let e1 := snd (Date_now rt e) in
    if errorCount stateInfo <? retry_limit o
    then drain rt 0 (with_enqueued (fst (Date_now rt e1)) m (set_messageQueue q1 o),
                     snd (Date_now rt e1))
    else drain rt 0 (set_messageQueue q1 o,
                     console_error rt
                       ("Agent " +:+ targetAgent m +:+ " is unhealthy, dropping message")
                       e1)).
  { cbn zeta. cbn [drain]. unfold mbind at 1, M_bind at 1, this at 1. cbn [fst].
    assert (E : (PriorityMessageQueue.size (messageQueue o) >? 0) = true)
      by (apply Z.gtb_lt; lia).
    rewrite E. unfold mbind at 1, M_bind at 1, queue_dequeue at 1. rewrite Hdeq.
    unfold mbind at 1, M_bind at 1, try_catch at 1.
    rewrite (dispatch_unhealthy m agent stateInfo (set_messageQueue q1 o) e
               Hagent Hinfo Hsick).
    cbn zeta. change (retry_limit (set_messageQueue q1 o)) with (retry_limit o).
    destruct (errorCount stateInfo <? retry_limit o); reflexivity. }
  rewrite Hrun. cbn zeta. clear Hrun.
  destruct (errorCount stateInfo <? retry_limit o) eqn:Elt.
  - apply Z.ltb_lt in Elt.
    rewrite drain_suspends.
    2:{ cbn [with_enqueued messageQueue set_messageQueue].
        rewrite PriorityMessageQueueProps.enqueue_at_size. lia. }
    cbn [fst snd with_enqueued messageQueue set_messageQueue].
    split; [eauto|]. split; [|intros; lia].
    intros _. split; [reflexivity|].
    rewrite PriorityMessageQueueProps.enqueue_at_size. lia.
  - apply Z.ltb_ge in Elt.
    match goal with |- context [drain rt 0 (?a, ?b)] =>
      destruct (drain_0_queue a b) as (Hret & Hh & Hn & Hl) end.
    cbn [messageQueue set_messageQueue] in Hh, Hn, Hl.
    split; [exact Hret|]. split; [intros; lia|].
    intros _. repeat split; try assumption.
    unfold PriorityMessageQueue.size in *. rewrite Hh, Hn, Hl. lia.
Qed.
End Props.

(** A runtime for examples: the environment is a clock that advances by
    one at each reading, workers take 5 ms and succeed. *)
Definition example_runtime : Runtime Z :=
  {| Date_now := fun e => (e, e + 1);
     sleep := fun ms e => e + ms;
     timer_wins := fun _ _ _ => false;
     console_warn := fun _ e => e;
     console_error := fun _ e => e;
     worker_processMessage := fun _ _ e => (Returned tt, e + 5);
     ZodError_message := fun _ => "Required" |}.

Definition example_message (name : string) (prio : option Q) : BaseAgentMessage :=
  mkMessage name "TEST_TYPE" "worker" (JsObject "{}") prio None.

Definition example_breaker : CircuitBreaker.t :=
  CircuitBreaker.mk
    {| CircuitBreaker.failureThreshold := 3;
       CircuitBreaker.resetTimeout := 30000;
       CircuitBreaker.halfOpenTimeout := 15000 |}
    CircuitBreaker.CLOSED 0 0 0.

(** An orchestrator with one registered worker in the given condition
    and the given queue. *)
Definition example_orchestrator (limit : option Z) (workerState : AgentState)
    (errors : Z) (queue : PriorityMessageQueue.t) : t :=
  mk (mkConfig (with_defaults (mkAgentConfig "orchestrator" None limit None None))
        None None None)
     {["worker" := mkAgent "worker" IDLE 0]}
     {["worker" := mkInfo workerState 0 errors example_breaker HealthMetrics.constructor]}
     queue.

Definition one_waiting (flag : bool) : PriorityMessageQueue.t :=
  PriorityMessageQueue.mk [] [] [mkQueueItem (example_message "waiting" None) 0] flag.

Lemma requeue_or_drop_witness :
  (let o := example_orchestrator None ERROR 1 (one_waiting true) in
   let run := drain example_runtime 1 (o, 10) in
   let queue' := messageQueue (fst (snd run)) in
   (exists progress, fst run = Returned progress) /\
   (1 < retry_limit o ->
    queue' =
      PriorityMessageQueue.enqueue_at
        (fst (Date_now example_runtime (snd (Date_now example_runtime 10))))
        (example_message "waiting" None) (PriorityMessageQueue.mk [] [] [] true) /\
    PriorityMessageQueue.size queue' = PriorityMessageQueue.size (messageQueue o)) /\
   (retry_limit o <= 1 ->
    PriorityMessageQueue.high queue' = [] /\
    PriorityMessageQueue.normal queue' = [] /\
    PriorityMessageQueue.low queue' = [] /\
    PriorityMessageQueue.size queue' = PriorityMessageQueue.size (messageQueue o) - 1)) /\
  (let o := example_orchestrator None ERROR 3 (one_waiting true) in
   let run := drain example_runtime 1 (o, 10) in
   let queue' := messageQueue (fst (snd run)) in
   (exists progress, fst run = Returned progress) /\
   (3 < retry_limit o ->
    queue' =
      PriorityMessageQueue.enqueue_at
        (fst (Date_now example_runtime (snd (Date_now example_runtime 10))))
        (example_message "waiting" None) (PriorityMessageQueue.mk [] [] [] true) /\
    PriorityMessageQueue.size queue' = PriorityMessageQueue.size (messageQueue o)) /\
   (retry_limit o <= 3 ->
    PriorityMessageQueue.high queue' = [] /\
    PriorityMessageQueue.normal queue' = [] /\
    PriorityMessageQueue.low queue' = [] /\
    PriorityMessageQueue.size queue' = PriorityMessageQueue.size (messageQueue o) - 1)).
Proof.
  split.
  - apply (requeue_or_drop example_runtime (example_message "waiting" None)
             (PriorityMessageQueue.mk [] [] [] true) (mkAgent "worker" IDLE 0)
             (mkInfo ERROR 0 1 example_breaker HealthMetrics.constructor));
      vm_compute; reflexivity.
  - apply (requeue_or_drop example_runtime (example_message "waiting" None)
             (PriorityMessageQueue.mk [] [] [] true) (mkAgent "worker" IDLE 0)
             (mkInfo ERROR 0 3 example_breaker HealthMetrics.constructor));
      vm_compute; reflexivity.
Defined.

End OrchestratorProps.

(** ** Runs on concrete inputs *)

Module Examples.
Import OrchestratorProps.

(** Priorities 1, 3, 2 enqueued in that order: 3 is in the normal tier
    and leaves first, 1 and 2 share the low tier and leave in the order
    they came. *)
Example shared_queue_1_3_2 :
  let q :=
    PriorityMessageQueue.enqueue_at 2 (example_message "third" (Some 2%Q))
      (PriorityMessageQueue.enqueue_at 1 (example_message "second" (Some 3%Q))
         (PriorityMessageQueue.enqueue_at 0 (example_message "first" (Some 1%Q))
            PriorityMessageQueue.constructor)) in
  let d1 := PriorityMessageQueue.dequeue q in
  let d2 := PriorityMessageQueue.dequeue (snd d1) in
  let d3 := PriorityMessageQueue.dequeue (snd d2) in
  let d4 := PriorityMessageQueue.dequeue (snd d3) in
  (id <$> fst d1, id <$> fst d2, id <$> fst d3, id <$> fst d4) =
    (Some "second", Some "first", Some "third", None).
Proof. reflexivity. Qed.

(** A later arrival with an earlier time stamp overtakes. *)
Example shared_queue_clock_set_back :
  PriorityMessageQueue.low
    (PriorityMessageQueue.enqueue_at 5 (example_message "late" None)
       (PriorityMessageQueue.enqueue_at 9 (example_message "early" None)
          PriorityMessageQueue.constructor)) =
    [mkQueueItem (example_message "late" None) 5;
     mkQueueItem (example_message "early" None) 9].
Proof. reflexivity. Qed.

(** A busy per-agent queue keeps higher priorities in front. *)
Example agent_queue_1_3_2 :
  let busy : MessageQueue.t Z :=
    MessageQueue.mk [] true 100 (MessageQueue.Function (fun _ w => (Returned tt, w))) in
  let s1 := snd (MessageQueue.enqueue (example_message "a" (Some 1%Q)) (busy, 0)) in
  let s2 := snd (MessageQueue.enqueue (example_message "b" (Some 3%Q)) s1) in
  let s3 := snd (MessageQueue.enqueue (example_message "c" (Some 2%Q)) s2) in
  id <$> MessageQueue.queue (fst s3) = ["b"; "c"; "a"].
Proof. reflexivity. Qed.

(** An operation that fails once is retried after the base delay. *)
Example retry_once :
  let flaky : M nat unit :=
    fun calls =>
      match calls with
      | O => (Thrown (Error "First attempt fails"), S calls)
      | _ => (Returned tt, S calls)
      end in
  Utils.withRetry RetryProps.traced_sleep (RetryProps.traced flaky) 2 1000 "job" ([], 0%nat) =
    (Returned tt, ([RetryProps.Invoked; RetryProps.Slept 1000; RetryProps.Invoked], 2%nat)).
Proof. reflexivity. Qed.

End Examples.

(** * Further properties *)

(** ** Circuit breaker: what every call keeps *)

Module CircuitBreakerMore.
Import CircuitBreaker CircuitBreakerProps.

(** A breaker that is not CLOSED has at least [failureThreshold]
    failures on its counter, and the counter is never negative. *)
Definition tripped_consistent (cb : t) : Prop :=
  0 <= failures cb /\
  (state cb <> CLOSED -> (failureThreshold (config cb) <= inject_Z (failures cb))%Q).

(** An operation, with all that runs while it is awaited, that leaves
    the breaker as it was: no other call on the breaker returns or
    throws in the meantime, and nothing resets it. *)
Definition undisturbed {World T} (operation : M (t * World) T) : Prop :=
  forall (cb : t) (w : World), fst (snd (operation (cb, w))) = cb.

(** An operation that rejects wherever it is started. *)
Definition always_rejects {World T} (operation : M (t * World) T) : Prop :=
  forall s, exists e, fst (operation s) = Thrown e.

Section Props.
Context {World : Type}.
Variable Date_now : World -> Z * World.

Lemma checkState_returns (cb cb1 : t) (w w1 : World) :
  checkState Date_now (cb, w) = (Returned tt, (cb1, w1)) ->
  config cb1 = config cb /\
  ((state cb1 = CLOSED /\ failures cb1 = (if CircuitState_eqb (state cb) CLOSED
                                         then failures cb else 0)) \/
   (state cb1 = HALF_OPEN /\ failures cb1 = failures cb /\ state cb <> CLOSED)).
Proof.
  rewrite (checkState_run Date_now). cbn zeta.
  destruct (state cb) eqn:Hst.
  - intros H. injection H as <- <-. rewrite Hst. auto.
  - destruct (num_ge _ _).
    + rewrite (transitionTo_run Date_now). intros H. injection H as <- <-. cbn.
      split; [reflexivity|]. right. repeat split. discriminate.
    + discriminate.
  - destruct (num_ge _ _).
    + rewrite (transitionTo_run Date_now). intros H. injection H as <- <-. cbn. auto.
    + intros H. injection H as <- <-. rewrite Hst. split; [reflexivity|]. right.
      repeat split. discriminate.
Qed.

(** [execute] is [execute_shared] for an operation that cannot reach
    the breaker. *)
Lemma execute_alone {T} (operation : M World T) (context : string) :
  execute Date_now operation context =
  execute_shared Date_now (on_snd operation) context.
Proof. reflexivity. Qed.

Lemma on_snd_undisturbed {T} (operation : M World T) : undisturbed (on_snd operation).
Proof. intros cb w. unfold on_snd. destruct (operation w). reflexivity. Qed.

Lemma execute_shared_run {T} (operation : M (t * World) T) (context : string)
    (s : t * World) :
  execute_shared Date_now operation context s =
    match checkState Date_now s with
    | (Thrown e, s1) => (Thrown e, s1)
    | (Returned _, s1) =>
        match operation s1 with
        | (Returned result, s2) => (Returned result, snd (onSuccess Date_now s2))
        | (Thrown error, s2) =>
            (Thrown (AgentError None ("Circuit breaker: " +:+ context +:+ " failed")),
             snd (onFailure Date_now s2))
        end
    end.
Proof.
  unfold execute_shared, try_catch, throw. unfold mbind at 1, M_bind at 1.
  destruct (checkState Date_now s) as [[[]|e] s1]; [|reflexivity].
  unfold mbind at 1, M_bind at 1.
  destruct (operation s1) as [[result|error] [cb2 w2]].
  - unfold mbind, M_bind, mret, M_ret. rewrite (onSuccess_run Date_now).
    destruct (state cb2); reflexivity.
  - unfold mbind, M_bind. rewrite (onFailure_run Date_now). cbn zeta.
    destruct (num_ge _ _); [rewrite (transitionTo_run Date_now)|]; reflexivity.
Qed.

Lemma undisturbed_run {T} (operation : M (t * World) T) (cb : t) (w : World) :
  undisturbed operation ->
  operation (cb, w) = (fst (operation (cb, w)), (cb, snd (snd (operation (cb, w))))).
Proof.
  intros H. specialize (H cb w). destruct (operation (cb, w)) as [r [cb2 w2]].
  cbn in *. subst cb2. reflexivity.
Qed.

(** A call on a breaker that nothing else touches while the call is
    in flight: whatever state the breaker was in, if the call returns
    it leaves the breaker CLOSED with its failure counter at 0. *)
Theorem returned_call_closes {T} (operation : M (t * World) T) (context : string)
    (cb cb' : t) (w w' : World) (result : T) :
  undisturbed operation ->
  execute_shared Date_now operation context (cb, w) = (Returned result, (cb', w')) ->
  state cb' = CLOSED /\ failures cb' = 0 /\ config cb' = config cb.
Proof.
  intros Hund. rewrite execute_shared_run.
  destruct (checkState Date_now (cb, w)) as [[[]|e] [cb1 w1]] eqn:Hc; [|discriminate].
  destruct (checkState_returns cb cb1 w w1 Hc) as [Hcfg Hcases].
  rewrite (undisturbed_run operation cb1 w1 Hund).
  destruct (fst (operation (cb1, w1))) as [v|error]; [|discriminate].
  rewrite (onSuccess_run Date_now). intros H.
  destruct Hcases as [[Hst _]|[Hst _]]; rewrite Hst in H; cbn in H;
    injection H as _ <- _; cbn; auto.
Qed.

(** A call on a breaker that nothing else touches while the call is
    in flight keeps [tripped_consistent], whatever the operation
    returns or throws and whatever the clock says, and never changes
    the configuration. *)
Theorem execute_keeps_consistent {T} (operation : M (t * World) T) (context : string)
    (cb : t) (w : World) :
  undisturbed operation ->
  tripped_consistent cb ->
  let cb' := fst (snd (execute_shared Date_now operation context (cb, w))) in
  tripped_consistent cb' /\ config cb' = config cb.
Proof.
  intros Hund [Hpos Htrip]. cbn zeta. unfold tripped_consistent.
  rewrite execute_shared_run.
  destruct (checkState Date_now (cb, w)) as [[[]|e] [cb1 w1]] eqn:Hc.
  - destruct (checkState_returns cb cb1 w w1 Hc) as [Hcfg Hcases].
    assert (H1 : tripped_consistent cb1).
    { unfold tripped_consistent. destruct Hcases as [[Hst Hf]|[Hst [Hf Hne]]]; split.
      - rewrite Hf. destruct (CircuitState_eqb (state cb) CLOSED); lia.
      - intros Hn. congruence.
      - lia.
      - intros _. rewrite Hcfg, Hf. apply Htrip, Hne. }
    destruct H1 as [Hpos1 Htrip1].
    rewrite (undisturbed_run operation cb1 w1 Hund).
    destruct (fst (operation (cb1, w1))) as [v|error]; cbn [fst snd].
    + rewrite (onSuccess_run Date_now).
      destruct (state cb1) eqn:Hst1; cbn; (split; [split; [lia|]|congruence]);
        try (intros Hn; congruence).
      exfalso. destruct Hcases as [[Hx _]|[Hx _]]; congruence.
    + rewrite (onFailure_run Date_now). cbn zeta.
      destruct (num_ge (inject_Z (failures cb1 + 1)) (failureThreshold (config cb1))) eqn:Hge.
      * rewrite (transitionTo_run Date_now). cbn. split; [|exact Hcfg].
        split; [lia|]. intros _. apply num_ge_true in Hge. exact Hge.
      * cbn. split; [|exact Hcfg]. split; [lia|]. intros Hn.
        specialize (Htrip1 Hn). apply num_ge_false in Hge.
        rewrite inject_Z_plus in Hge. change (inject_Z 1) with 1%Q in Hge. lra.
  - cbn [fst snd].
    rewrite (checkState_run Date_now) in Hc. cbn zeta in Hc.
    destruct (state cb) eqn:Hst.
    + discriminate.
    + destruct (num_ge _ _).
      * rewrite (transitionTo_run Date_now) in Hc. discriminate.
      * injection Hc as _ <- _. split; [|reflexivity]. split; [exact Hpos|].
        rewrite Hst. exact Htrip.
    + destruct (num_ge _ _).
      * rewrite (transitionTo_run Date_now) in Hc. discriminate.
      * discriminate.
Qed.

Lemma constructor_consistent (cfg : CircuitBreakerConfig) (w : World) :
  tripped_consistent (fst (constructor Date_now cfg w)) /\
  state (fst (constructor Date_now cfg w)) = CLOSED.
Proof.
  unfold constructor, tripped_consistent. destruct (Date_now w) as [ms w1]. cbn.
  split; [|reflexivity]. split; [lia|]. intros H. congruence.
Qed.

(** A probe that fails, on a HALF_OPEN breaker that nothing else
    touches while the call is in flight.  Made before [halfOpenTimeout]
    has passed, the failure puts the counter one up; the breaker opens
    again if the counter has then reached [failureThreshold], with the
    cooldown restarted at the clock reading taken by the transition,
    and stays HALF_OPEN otherwise.  Made at or after [halfOpenTimeout],
    the call finds the breaker closed and its counter cleared by
    [checkState]: the failure is counted as the first, and the breaker
    stays CLOSED unless the threshold is 1 or less, in which case it
    opens. *)
Theorem failed_probe {T} (operation : M (t * World) T) (context : string)
    (cb : t) (w : World) :
  state cb = HALF_OPEN ->
  undisturbed operation ->
  always_rejects operation ->
  let elapsed := inject_Z (fst (Date_now w) - lastStateChange cb) in
  let cb' := fst (snd (execute_shared Date_now operation context (cb, w))) in
  ((elapsed < halfOpenTimeout (config cb))%Q ->
   failures cb' = failures cb + 1 /\
   state cb' =
     (if num_ge (inject_Z (failures cb + 1)) (failureThreshold (config cb))
      then OPEN else HALF_OPEN) /\
   ((failureThreshold (config cb) <= inject_Z (failures cb + 1))%Q ->
    lastStateChange cb' =
      fst (Date_now (snd (Date_now (snd (snd (operation (cb, snd (Date_now w)))))))))) /\
  ((halfOpenTimeout (config cb) <= elapsed)%Q ->
   failures cb' = 1 /\
   state cb' =
     (if num_ge 1 (failureThreshold (config cb)) then OPEN else CLOSED)).
Proof.
  intros Hst Hund Hfail. cbn zeta.
  rewrite execute_shared_run, (checkState_run Date_now), Hst. cbn zeta. split.
  - intros Hlt. apply num_ge_false in Hlt. rewrite Hlt.
    rewrite (undisturbed_run operation cb _ Hund).
    destruct (Hfail (cb, snd (Date_now w))) as [e He]. rewrite He.
    rewrite (onFailure_run Date_now). cbn zeta. cbn [config failures state snd fst].
    destruct (num_ge (inject_Z (failures cb + 1)) (failureThreshold (config cb))) eqn:Hge.
    + rewrite (transitionTo_run Date_now). cbn. auto.
    + cbn. repeat split; [exact Hst|]. intros Hle. apply num_ge_true in Hle. congruence.
  - intros Hge. apply num_ge_true in Hge. rewrite Hge, (transitionTo_run Date_now).
    cbn [CircuitState_eqb].
    rewrite (undisturbed_run operation _ _ Hund).
    match goal with |- context [fst (operation ?s)] =>
      destruct (Hfail s) as [e He]; rewrite He end.
    rewrite (onFailure_run Date_now). cbn zeta. cbn [config failures state snd fst].
    change (inject_Z (0 + 1)) with 1%Q.
    destruct (num_ge 1 (failureThreshold (config cb))).
    + rewrite (transitionTo_run Date_now). cbn. auto.
    + cbn. auto.
Qed.

(** [reset] makes the breaker as good as new: whatever state it was in,
    it is afterwards what the constructor builds from the same
    configuration at the same reading of the clock.  The next call is
    never refused: the operation is started after one more reading, a
    success leaves the breaker exactly as it was, and a failure is
    counted as the first. *)
Theorem reset_is_like_new {T} (operation : M World T) (context : string)
    (cb : t) (w : World) :
  let fresh := constructor Date_now (config cb) w in
  let started := snd (Date_now (snd fresh)) in
  reset Date_now (cb, w) = (Returned tt, fresh) /\
  execute Date_now operation context fresh =
    match operation started with
    | (Returned result, w2) => (Returned result, (fst fresh, w2))
    | (Thrown error, w2) =>
        (Thrown (AgentError None ("Circuit breaker: " +:+ context +:+ " failed")),
         snd (onFailure Date_now (fst fresh, w2)))
    end /\
  failures (fst (snd (execute Date_now operation context fresh))) =
    match fst (operation started) with
    | Returned _ => 0
    | Thrown _ => 1
    end.
Proof.
  cbn zeta.
  assert (Hnew : constructor Date_now (config cb) w =
                 (mk (config cb) CLOSED 0 0 (fst (Date_now w)), snd (Date_now w))).
  { unfold constructor. destruct (Date_now w). reflexivity. }
  rewrite Hnew. cbn [fst snd].
  assert (Hrun : execute Date_now operation context
                   (mk (config cb) CLOSED 0 0 (fst (Date_now w)), snd (Date_now w)) =
    match operation (snd (Date_now (snd (Date_now w)))) with
    | (Returned result, w2) =>
        (Returned result, (mk (config cb) CLOSED 0 0 (fst (Date_now w)), w2))
    | (Thrown error, w2) =>
        (Thrown (AgentError None ("Circuit breaker: " +:+ context +:+ " failed")),
         snd (onFailure Date_now (mk (config cb) CLOSED 0 0 (fst (Date_now w)), w2)))
    end).
  { rewrite (execute_run Date_now), (checkState_run Date_now). cbn zeta. cbn [state].
    destruct (operation _) as [[result|error] w2]; [|reflexivity].
    rewrite (onSuccess_run Date_now). reflexivity. }
  split; [|split].
  - unfold reset, assign, now, mbind, M_bind. destruct (Date_now w). reflexivity.
  - exact Hrun.
  - rewrite Hrun. destruct (operation _) as [[result|error] w2]; [reflexivity|].
    cbn [fst snd]. rewrite (onFailure_run Date_now). cbn zeta.
    destruct (num_ge _ _); [rewrite (transitionTo_run Date_now)|]; reflexivity.
Qed.
End Props.

(** A second call on the same breaker, made and failed while the
    first is awaited. *)
Definition overlapped : M (t * Z) unit :=
  fun s => (Returned tt, snd (execute_shared clock (on_snd failing_operation) "second" s)).

Definition touchy_config : CircuitBreakerConfig :=
  {| failureThreshold := 1; resetTimeout := 30000; halfOpenTimeout := 15000 |}.

Lemma returned_call_closes_witness :
  state (mk breaker_config CLOSED 0 20 30030) = CLOSED /\
  failures (mk breaker_config CLOSED 0 20 30030) = 0 /\
  config (mk breaker_config CLOSED 0 20 30030) = config (mk breaker_config OPEN 3 20 20).
Proof.
  apply (returned_call_closes clock (on_snd working_operation) "probe"
           (mk breaker_config OPEN 3 20 20) _ 30020 30030 tt).
  - intros cb w. reflexivity.
  - vm_compute. reflexivity.
Defined.

Lemma execute_keeps_consistent_witness :
  let cb' := fst (snd (execute_shared clock (on_snd failing_operation) "probe"
                         (mk breaker_config CLOSED 2 0 0, 5))) in
  tripped_consistent cb' /\ config cb' = breaker_config.
Proof.
  apply (execute_keeps_consistent clock (on_snd failing_operation) "probe"
           (mk breaker_config CLOSED 2 0 0) 5).
  - intros cb w. reflexivity.
  - split; [cbn; lia|]. intros H. exfalso. apply H. reflexivity.
Defined.

Lemma failed_probe_witness :
  let cb := mk breaker_config HALF_OPEN 3 20 30020 in
  let cb' := fst (snd (execute_shared clock (on_snd failing_operation) "probe"
                         (cb, 30030))) in
  failures cb' = 4 /\ state cb' = OPEN /\ lastStateChange cb' = 30040.
Proof.
  destruct (failed_probe clock (on_snd failing_operation) "probe"
              (mk breaker_config HALF_OPEN 3 20 30020) 30030) as [H _].
  - reflexivity.
  - intros cb w. reflexivity.
  - intros [cb w]. eexists. reflexivity.
  - destruct H as (H1 & H2 & H3); [reflexivity|].
    split; [exact H1|]. split; [exact H2|]. apply H3. cbn. discriminate.
Defined.

(** Two calls that overlap.  While the first call's operation is
    awaited, a second call on the same breaker fails and, the threshold
    being 1, opens it.  The first call then returns: it leaves the
    breaker OPEN with no failure on its counter. *)
Example overlapping_calls :
  execute_shared clock overlapped "first" (mk touchy_config CLOSED 0 0 0, 5) =
    (Returned tt, (mk touchy_config OPEN 0 15 15, 15)) /\
  ~ undisturbed overlapped /\
  tripped_consistent (mk touchy_config CLOSED 0 0 0) /\
  ~ tripped_consistent (mk touchy_config OPEN 0 15 15).
Proof.
  split; [vm_compute; reflexivity|]. split; [|split].
  - intros H. specialize (H (mk touchy_config CLOSED 0 0 0) 5). vm_compute in H.
    discriminate.
  - split; [cbn; lia|]. intros H. exfalso. apply H. reflexivity.
  - intros [_ H]. assert (Hq : (1 <= 0)%Q) by (apply H; discriminate).
    revert Hq. vm_compute. intros Hq. apply Hq. reflexivity.
Qed.

End CircuitBreakerMore.

(** ** Health metrics: any history *)

Module HealthMetricsMore.
Import HealthMetrics HealthMetricsProps.

Section Props.
Context {World : Type}.
Variable Date_now : World -> Z * World.

Lemma record_one_last (s : Sample) (hm : t) (w : World) :
  lastProcessingTime (fst (snd (record_one Date_now s (hm, w)))) = latency s.
Proof.
  destruct s as [q|q]; cbn [record_one]; unfold recordSuccess, recordError;
    destruct (Date_now w) as [ms w1]; reflexivity.
Qed.

(** A fresh recorder after any sequence of records: it has counted
    every record and every error record, it retains the latencies of
    the last [min n 100] records in order, its [lastProcessingTime] is
    the latency of the last record, and the success rate it reports is
    between 0 and 100. *)
Theorem any_history (samples : list Sample) (w : World) :
  let hm := fst (record_all Date_now samples (constructor, w)) in
  messageCount hm = Z.of_nat (length samples) /\
  errorCount hm = Z.of_nat (length (List.filter is_failure samples)) /\
  0 <= errorCount hm <= messageCount hm /\
  processingTimes hm = drop (length samples - 100) (latency <$> samples) /\
  length (processingTimes hm) = Nat.min (length samples) 100 /\
  (forall s, last samples = Some s -> lastProcessingTime hm = latency s) /\
  (0 <= Data.successRate (getMetrics hm) <= 100)%Q.
Proof.
  cbn zeta.
  destruct (record_all_fields Date_now samples [] constructor w eq_refl eq_refl)
    as (F1 & F2 & F3 & F4).
  cbn [app] in F4. unfold window in F4. rewrite length_fmap in F4.
  change (messageCount constructor) with 0 in F1.
  change (errorCount constructor) with 0 in F2.
  pose proof (filter_length_le is_failure samples) as Hle.
  repeat split.
  - lia.
  - lia.
  - lia.
  - lia.
  - exact F4.
  - rewrite F4, length_drop, length_fmap. lia.
  - intros s Hlast. apply last_Some in Hlast as [front ->].
    rewrite (record_all_app Date_now). cbn [record_all].
    destruct (record_all Date_now front (constructor, w)) as [hm0 w0].
    apply record_one_last.
  - cbn [getMetrics Data.successRate].
    destruct (messageCount _ >? 0) eqn:E; [|discriminate].
    apply Z.gtb_lt in E. apply rate_bounds; lia.
  - cbn [getMetrics Data.successRate].
    destruct (messageCount _ >? 0) eqn:E; [|discriminate].
    apply Z.gtb_lt in E. apply rate_bounds; lia.
Qed.

(** [reset] forgets any history: the recorder is again what the
    constructor builds, with its limit of 100 samples, and reports no
    messages, a success rate of 100 and an average of 0. *)
Theorem reset_forgets_history (samples : list Sample) (w : World) :
  reset (fst (record_all Date_now samples (constructor, w))) = constructor /\
  getMetrics constructor = Data.mk 0 0 100 0 0 0 0.
Proof.
  destruct (record_all_fields Date_now samples [] constructor w eq_refl eq_refl)
    as (_ & _ & F3 & _).
  split; [|reflexivity]. unfold reset. rewrite F3. reflexivity.
Qed.
End Props.

End HealthMetricsMore.

(** ** The orchestrator's queue: nothing lost, fixed order out *)

Module PriorityMessageQueueMore.
Import PriorityMessageQueue PriorityMessageQueueProps.

(** Every item of the queue, in the order the tiers are served. *)
Definition items (q : t) : list QueueItem := high q ++ normal q ++ low q.

(** [n] calls of [dequeue], stopping at the first that returns nothing:
    the messages returned and the queue that is left. *)
Fixpoint dequeue_upto (n : nat) (q : t) : list BaseAgentMessage * t :=
  match n with
  | O => ([], q)
  | S n' =>
      match dequeue q with
      | (Some m, q') => let '(ms, q'') := dequeue_upto n' q' in (m :: ms, q'')
      | (None, q') => ([], q')
      end
  end.

Lemma Array_insert_perm {A} (compare : A -> A -> Z) (x : A) (l : list A) :
  Permutation (Array_insert compare x l) (x :: l).
Proof.
  induction l as [|y ys IH]; cbn; [reflexivity|].
  destruct (compare x y <=? 0); [reflexivity|].
  rewrite IH. apply perm_swap.
Qed.

Lemma Array_sort_perm {A} (compare : A -> A -> Z) (l : list A) :
  Permutation (Array_sort compare l) l.
Proof.
  induction l as [|x xs IH]; cbn; [reflexivity|].
  rewrite Array_insert_perm. by rewrite IH.
Qed.

Lemma enqueue_at_items (ms : Z) (m : BaseAgentMessage) (q : t) :
  Permutation (items (enqueue_at ms m q)) (mkQueueItem m ms :: items q).
Proof.
  unfold items, enqueue_at, sortQueues.
  destruct (priority_above 5 m); [|destruct (priority_above 2 m)];
    cbn [high normal low]; rewrite !Array_sort_perm.
  - rewrite <- app_assoc. cbn [app].
    rewrite <- Permutation_middle. reflexivity.
  - rewrite <- app_assoc. cbn [app].
    rewrite (app_assoc (high q)). rewrite <- Permutation_middle.
    rewrite <- app_assoc. reflexivity.
  - rewrite !app_assoc. rewrite <- Permutation_cons_append. reflexivity.
Qed.

(** [enqueue] adds the new item and nothing else, whatever state the
    tiers were in: the items afterwards are the items before plus the
    new one, each as often as before; the size is one up and the
    processing flag is as it was. *)
Theorem enqueue_adds_one_item (ms : Z) (m : BaseAgentMessage) (q : t) :
  Permutation (items (enqueue_at ms m q)) (mkQueueItem m ms :: items q) /\
  size (enqueue_at ms m q) = size q + 1 /\
  Z.of_nat (length (items (enqueue_at ms m q))) = size (enqueue_at ms m q) /\
  isProcessing (enqueue_at ms m q) = isProcessing q.
Proof.
  split; [apply enqueue_at_items|]. split; [apply enqueue_at_size|]. split.
  - unfold size, items. rewrite !length_app. lia.
  - apply enqueue_at_isProcessing.
Qed.

Lemma dequeue_items (q : t) :
  dequeue q =
    match items q with
    | [] => (None, clear q)
    | x :: _ =>
        (Some (message x),
         snd (dequeue q))
    end /\
  items (snd (dequeue q)) = tl (items q) /\
  _isProcessing (snd (dequeue q)) = _isProcessing q.
Proof.
  unfold dequeue. rewrite dequeueItem_cases. unfold items, clear.
  destruct q as [h n l flag]. cbn [high normal low _isProcessing].
  destruct h as [|x h]; [destruct n as [|y n]; [destruct l as [|z l]|]|];
    cbn; repeat split.
Qed.

(** Draining.  Calling [dequeue] as many times as there are items, or
    more, returns every message of the queue exactly once: first those
    of the high tier, then the normal tier, then the low tier, each tier
    in its stored order.  The queue is empty afterwards, its flag is
    untouched, and a further [dequeue] returns nothing. *)
Theorem dequeue_drains_in_tier_order (n : nat) (q : t) :
  (length (items q) <= n)%nat ->
  dequeue_upto n q = (message <$> items q, clear q) /\
  dequeue (clear q) = (None, clear q).
Proof.
  intros Hn. split; [|reflexivity].
  revert q Hn. induction n as [|n IH]; intros q Hn.
  - destruct q as [h nq l flag]. unfold items in *. cbn [high normal low] in *.
    destruct h; [destruct nq; [destruct l|]|]; cbn in Hn; try lia. reflexivity.
  - cbn [dequeue_upto].
    destruct (dequeue_items q) as (D1 & D2 & D3).
    destruct (items q) as [|x rest] eqn:E.
    + rewrite D1. reflexivity.
    + rewrite D1. rewrite IH.
      * rewrite D2. cbn [tl fmap list_fmap]. unfold clear. rewrite D3. reflexivity.
      * rewrite D2. cbn [tl]. cbn [length] in Hn. lia.
Qed.

(** A message of priority above 5 that arrives while the high tier is
    empty is the next one out, whatever waits in the other tiers. *)
Theorem urgent_message_is_next (ms : Z) (m : BaseAgentMessage) (q : t) :
  high q = [] ->
  high_priority m ->
  fst (dequeue (enqueue_at ms m q)) = Some m /\
  high (snd (dequeue (enqueue_at ms m q))) = [].
Proof.
  intros Hh Hm. destruct (priority_classes m) as (C5 & _).
  apply C5 in Hm. unfold enqueue_at, sortQueues. rewrite Hm, Hh.
  cbn [high normal low app Array_sort Array_insert].
  unfold dequeue. rewrite dequeueItem_cases. cbn. auto.
Qed.

Lemma dequeue_drains_in_tier_order_witness :
  dequeue_upto 5 busy_queue = (message <$> items busy_queue, clear busy_queue) /\
  dequeue (clear busy_queue) = (None, clear busy_queue).
Proof.
  apply (dequeue_drains_in_tier_order 5 busy_queue). cbn. lia.
Defined.

Lemma urgent_message_is_next_witness :
  let q := mk [] (normal busy_queue) (low busy_queue) false in
  fst (dequeue (enqueue_at 20 (message_with "d" (Some 6%Q)) q)) =
    Some (message_with "d" (Some 6%Q)) /\
  high (snd (dequeue (enqueue_at 20 (message_with "d" (Some 6%Q)) q))) = [].
Proof.
  apply (urgent_message_is_next 20 (message_with "d" (Some 6%Q))
           (mk [] (normal busy_queue) (low busy_queue) false)).
  - reflexivity.
  - exists 6%Q. split; reflexivity.
Defined.

End PriorityMessageQueueMore.

(** ** The per-agent queue: insertion order and draining *)

Module MessageQueueMore.
Import MessageQueue MessageQueueProps.

(** Higher priorities first. *)
Definition descending (l : list BaseAgentMessage) : Prop :=
  StronglySorted (fun a b => (priority_or_0 b <= priority_or_0 a)%Q) l.

(** Where [enqueue] is to put a message of priority [p]: behind the
    messages of priority [p] or more, ahead of the others. *)
Definition inserted (m : BaseAgentMessage) (l : list BaseAgentMessage)
    : list BaseAgentMessage :=
  List.filter (fun x => num_ge (priority_or_0 x) (priority_or_0 m)) l
    ++ m :: List.filter (fun x => num_lt (priority_or_0 x) (priority_or_0 m)) l.

Lemma findIndex_spec {A} (p : A -> bool) (l : list A) :
  (findIndex p l = -1 /\ Forall (fun x => p x = false) l) \/
  (exists l1 x l2,
     l = l1 ++ x :: l2 /\ Forall (fun y => p y = false) l1 /\ p x = true /\
     findIndex p l = Z.of_nat (length l1)).
Proof.
  induction l as [|x xs IH]; cbn [findIndex].
  - left. split; [reflexivity|constructor].
  - destruct (p x) eqn:Hx.
    + right. exists [], x, xs. repeat split; [constructor|exact Hx].
    + destruct IH as [[Hi Hall]|(l1 & y & l2 & -> & Hall & Hy & Hi)].
      * left. rewrite Hi. cbn. split; [reflexivity|]. constructor; assumption.
      * right. exists (x :: l1), y, l2. rewrite Hi.
        assert (E : (Z.of_nat (length l1) =? -1) = false) by (apply Z.eqb_neq; lia).
        rewrite E. repeat split; [constructor; assumption|exact Hy|].
        cbn [length]. lia.
Qed.

Lemma findLastIndex_spec {A} (p : A -> bool) (l : list A) :
  (findLastIndex p l = -1 /\ Forall (fun x => p x = false) l) \/
  (exists l1 x l2,
     l = l1 ++ x :: l2 /\ p x = true /\ Forall (fun y => p y = false) l2 /\
     findLastIndex p l = Z.of_nat (length l1)).
Proof.
  induction l as [|x xs IH]; cbn [findLastIndex].
  - left. split; [reflexivity|constructor].
  - destruct IH as [[Hi Hall]|(l1 & y & l2 & -> & Hy & Hall & Hi)].
    + rewrite Hi. cbn. destruct (p x) eqn:Hx.
      * right. exists [], x, xs. repeat split; assumption.
      * left. split; [reflexivity|]. constructor; assumption.
    + right. exists (x :: l1), y, l2. rewrite Hi.
      assert (E : (Z.of_nat (length l1) =? -1) = false) by (apply Z.eqb_neq; lia).
      rewrite E. repeat split; [exact Hy|exact Hall|]. cbn [length]. lia.
Qed.

Lemma splice_in_at {A} (l1 l2 : list A) (item : A) :
  splice_in (Z.of_nat (length l1)) item (l1 ++ l2) = l1 ++ item :: l2.
Proof.
  unfold splice_in. rewrite Nat2Z.id.
  rewrite take_app_length, drop_app_length. reflexivity.
Qed.

Lemma filter_all {A} (p : A -> bool) (l : list A) :
  Forall (fun x => p x = true) l -> List.filter p l = l.
Proof. induction 1 as [|x l Hx _ IH]; cbn; [reflexivity|]. by rewrite Hx, IH. Qed.

Lemma filter_none {A} (p : A -> bool) (l : list A) :
  Forall (fun x => p x = false) l -> List.filter p l = [].
Proof. induction 1 as [|x l Hx _ IH]; cbn; [reflexivity|]. by rewrite Hx, IH. Qed.

Lemma num_lt_false_ge (a b : Q) : num_lt a b = false <-> num_ge a b = true.
Proof. unfold num_lt, num_ge. destruct (Qle_bool b a); cbn; split; congruence. Qed.

Lemma num_lt_true_ge (a b : Q) : num_lt a b = true <-> num_ge a b = false.
Proof. unfold num_lt, num_ge. destruct (Qle_bool b a); cbn; split; congruence. Qed.

Lemma num_lt_true (a b : Q) : num_lt a b = true <-> (a < b)%Q.
Proof. rewrite num_lt_true_ge. apply num_ge_false. Qed.

Lemma descending_insert (m : BaseAgentMessage) (l1 l2 : list BaseAgentMessage) :
  descending (l1 ++ l2) ->
  Forall (fun x => (priority_or_0 m <= priority_or_0 x)%Q) l1 ->
  Forall (fun x => (priority_or_0 x <= priority_or_0 m)%Q) l2 ->
  descending (l1 ++ m :: l2).
Proof.
  unfold descending. induction l1 as [|a l1 IH]; cbn [app]; intros Hs H1 H2.
  - constructor; assumption.
  - inversion Hs as [|? ? Hrest Ha]; subst. inversion H1 as [|? ? Hma H1']; subst.
    constructor; [apply IH; assumption|].
    apply List.Forall_app in Ha as [Ha1 Ha2].
    apply List.Forall_app. split; [exact Ha1|]. constructor; assumption.
Qed.

Lemma descending_suffix (l1 l2 : list BaseAgentMessage) :
  descending (l1 ++ l2) -> descending l2.
Proof.
  unfold descending. induction l1 as [|a l1 IH]; cbn [app]; intros H; [exact H|].
  inversion H; subst. apply IH. assumption.
Qed.

(** The insertion of [enqueue] into a queue that is in descending
    priority order. *)
Lemma insertion_descending (m : BaseAgentMessage) (l : list BaseAgentMessage) :
  descending l ->
  let prio := priority_or_0 m in
  let insertIndex := findIndex (fun x => num_lt (priority_or_0 x) prio) l in
  (if insertIndex =? -1 then
     let lastSamePriorityIndex :=
       findLastIndex (fun x => Qeq_bool (priority_or_0 x) prio) l in
     if lastSamePriorityIndex =? -1 then l ++ [m]
     else splice_in (lastSamePriorityIndex + 1) m l
   else splice_in insertIndex m l) = inserted m l /\
  descending (inserted m l).
Proof.
  intros Hdesc. cbn zeta. unfold inserted.
  destruct (findIndex_spec (fun x => num_lt (priority_or_0 x) (priority_or_0 m)) l)
    as [[Hi Hall]|(l1 & x & l2 & -> & Hall & Hx & Hi)].
  - rewrite Hi. cbn [Z.eqb].
    assert (Hge : Forall (fun x => num_ge (priority_or_0 x) (priority_or_0 m) = true) l).
    { eapply List.Forall_impl; [|exact Hall]. intros a Ha. apply num_lt_false_ge, Ha. }
    rewrite (filter_all _ _ Hge), (filter_none _ _ Hall).
    assert (Hsorted : descending (l ++ [m])).
    { apply descending_insert; [rewrite app_nil_r; exact Hdesc| |constructor].
      eapply List.Forall_impl; [|exact Hge]. intros a Ha. apply num_ge_true, Ha. }
    split; [|exact Hsorted].
    destruct (findLastIndex_spec (fun x => Qeq_bool (priority_or_0 x) (priority_or_0 m)) l)
      as [[Hj _]|(l1 & x & l2 & -> & Hx & Hnone & Hj)].
    + rewrite Hj. reflexivity.
    + rewrite Hj.
      assert (E : (Z.of_nat (length l1) =? -1) = false) by (apply Z.eqb_neq; lia).
      rewrite E.
      assert (Hl2 : l2 = []).
      { destruct l2 as [|y l2]; [reflexivity|]. exfalso.
        inversion Hnone as [|? ? Hy _]; subst.
        apply Qeq_bool_iff in Hx.
        assert (Hyx : (priority_or_0 y <= priority_or_0 x)%Q).
        { apply descending_suffix in Hdesc. unfold descending in Hdesc.
          inversion Hdesc as [|? ? _ Hfa]; subst. inversion Hfa; subst. assumption. }
        assert (Hym : (priority_or_0 m <= priority_or_0 y)%Q).
        { rewrite List.Forall_forall in Hge. apply num_ge_true, Hge.
          apply in_or_app. right. right. left. reflexivity. }
        assert (Heq : Qeq_bool (priority_or_0 y) (priority_or_0 m) = true).
        { apply Qeq_bool_iff. apply Qle_antisym; [|exact Hym].
          rewrite <- Hx. exact Hyx. }
        congruence. }
      subst l2.
      replace (Z.of_nat (length l1) + 1) with (Z.of_nat (length (l1 ++ [x])))
        by (rewrite length_app; cbn [length]; lia).
      rewrite <- (app_nil_r (l1 ++ [x])) at 2. rewrite splice_in_at.
      rewrite <- !app_assoc. reflexivity.
  - rewrite Hi.
    assert (E : (Z.of_nat (length l1) =? -1) = false) by (apply Z.eqb_neq; lia).
    rewrite E, splice_in_at.
    assert (Hge1 : Forall (fun a => num_ge (priority_or_0 a) (priority_or_0 m) = true) l1).
    { eapply List.Forall_impl; [|exact Hall]. intros a Ha. apply num_lt_false_ge, Ha. }
    assert (Hlow : Forall (fun a => num_lt (priority_or_0 a) (priority_or_0 m) = true)
                     (x :: l2)).
    { constructor; [exact Hx|].
      apply descending_suffix in Hdesc. unfold descending in Hdesc.
      inversion Hdesc as [|? ? _ Hfa]; subst.
      eapply List.Forall_impl; [|exact Hfa]. intros a Ha. cbn beta in Ha.
      apply num_lt_true. apply num_lt_true in Hx. lra. }
    assert (Hge2 : Forall (fun a => num_ge (priority_or_0 a) (priority_or_0 m) = false)
                     (x :: l2)).
    { eapply List.Forall_impl; [|exact Hlow]. intros a Ha. apply num_lt_true_ge, Ha. }
    rewrite !List.filter_app.
    rewrite (filter_all _ _ Hge1), (filter_none _ _ Hge2), (filter_none _ _ Hall),
      (filter_all _ _ Hlow).
    rewrite app_nil_r. cbn [app]. split; [reflexivity|].
    apply descending_insert; [exact Hdesc| |].
    + eapply List.Forall_impl; [|exact Hge1]. intros a Ha. apply num_ge_true, Ha.
    + eapply List.Forall_impl; [|exact Hlow]. intros a Ha. apply num_lt_true in Ha. lra.
Qed.

Section Props.
Context {World : Type}.

(** A busy queue with room, in descending priority order, takes a new
    message behind the messages of the same or a higher priority and
    ahead of those of a lower one; it stays in descending order, the
    callback is not called and the world is untouched. *)
Theorem busy_enqueue_keeps_priority_order (m : BaseAgentMessage) (q : t World) (w : World) :
  processing q = true ->
  Z.of_nat (length (queue q)) < maxSize q ->
  descending (queue q) ->
  enqueue m (q, w) =
    (Returned tt, (mk (inserted m (queue q)) true (maxSize q) (processCallback q), w)) /\
  descending (inserted m (queue q)).
Proof.
  intros Hbusy Hroom Hdesc.
  destruct (insertion_descending m (queue q) Hdesc) as [Hins Hsorted].
  split; [|exact Hsorted]. cbn zeta in Hins.
  unfold enqueue. unfold mbind at 1, M_bind at 1, this at 1. cbn [fst].
  assert (E : (Z.of_nat (length (queue q)) >=? maxSize q) = false).
  { destruct (_ >=? _) eqn:G; [|reflexivity]. apply Z.geb_le in G. lia. }
  rewrite E. unfold mbind at 1, M_bind at 1.
  assert (Hset : forall v, set_queue v (q, w) =
            (Returned tt, (mk v (processing q) (maxSize q) (processCallback q), w)))
    by reflexivity.
  destruct (findIndex _ (queue q) =? -1).
  - destruct (findLastIndex _ (queue q) =? -1); rewrite Hset, <- Hins;
      unfold mbind, M_bind, this; cbn [fst processing]; rewrite Hbusy; reflexivity.
  - rewrite Hset, <- Hins. unfold mbind, M_bind, this. cbn [fst processing].
    rewrite Hbusy. reflexivity.
Qed.

Lemma upto_empty (bound : nat) (q : t World) (s : World) :
  queue q = [] ->
  processNextMessage_upto bound (q, s) =
    (Returned tt, (mk [] false (maxSize q) (processCallback q), s)).
Proof.
  intros Hq. destruct q as [l flag size cb]. cbn in Hq. subst l.
  destruct bound; reflexivity.
Qed.

Lemma upto_step (bound : nat) (q : t World) (s : World) (m : BaseAgentMessage)
    (rest : list BaseAgentMessage) (g : BaseAgentMessage -> M World unit) :
  queue q = m :: rest ->
  processCallback q = Function g ->
  processNextMessage_upto (S bound) (q, s) =
    match g m s with
    | (Returned _, s') =>
        processNextMessage_upto bound (mk rest true (maxSize q) (Function g), s')
    | (Thrown e, s') => (Thrown e, (mk rest false (maxSize q) (Function g), s'))
    end.
Proof.
  intros Hq Hcb. destruct q as [l flag size cb]. cbn in Hq, Hcb. subst l cb.
  cbn [processNextMessage_upto]. unfold mbind at 1, M_bind at 1, this at 1.
  cbn [fst queue length]. cbn [Z.of_nat Z.eqb Pos.of_succ_nat].
  replace (Z.of_nat (S (length rest)) =? 0) with false
    by (symmetry; apply Z.eqb_neq; lia).
  unfold setProcessing at 1, dequeue at 1, call_processCallback at 1,
    try_catch, mbind, M_bind, this, set_queue, mret, M_ret, on_snd, throw, setProcessing.
  cbn [fst snd queue length processing maxSize processCallback Array_shift].
  replace (Z.of_nat (S (length rest)) =? 0) with false
    by (symmetry; apply Z.eqb_neq; lia).
  cbn [fst snd queue length processing maxSize processCallback Array_shift].
  destruct (g m s) as [[[]|e] s']; reflexivity.
Qed.
End Props.

Section Draining.
Context {World : Type}.

(** A callback that also writes down the message it was called with. *)
Definition logged (f : BaseAgentMessage -> M World unit)
    : BaseAgentMessage -> M (list BaseAgentMessage * World) unit :=
  fun m '(log, w) => let '(r, w') := f m w in (r, (log ++ [m], w')).

Lemma upto_outcome (f : BaseAgentMessage -> M World unit) (bound : nat)
    (l : list BaseAgentMessage) (flag : bool) (size : Z)
    (log : list BaseAgentMessage) (w : World) :
  (length l <= bound)%nat ->
  let run := processNextMessage_upto bound
               (mk l flag size (Function (logged f)), (log, w)) in
  let q' := fst (snd run) in
  processing q' = false /\
  maxSize q' = size /\
  processCallback q' = Function (logged f) /\
  exists called,
    l = called ++ queue q' /\
    fst (snd (snd run)) = log ++ called /\
    (forall u, fst run = Returned u -> queue q' = []) /\
    (forall e, fst run = Thrown e ->
       exists front m w0, called = front ++ [m] /\ fst (f m w0) = Thrown e).
Proof.
  revert l flag log w. induction bound as [|bound IH]; intros l flag log w Hlen.
  - destruct l; [|cbn in Hlen; lia]. cbn zeta. rewrite upto_empty by reflexivity.
    cbn. split; [reflexivity|]. split; [reflexivity|]. split; [reflexivity|].
    exists []. split; [reflexivity|]. split; [by rewrite app_nil_r|].
    split; [reflexivity|]. intros e He. discriminate.
  - destruct l as [|m rest].
    + cbn zeta. rewrite upto_empty by reflexivity.
      cbn. split; [reflexivity|]. split; [reflexivity|]. split; [reflexivity|].
      exists []. split; [reflexivity|]. split; [by rewrite app_nil_r|].
      split; [reflexivity|]. intros e He. discriminate.
    + cbn zeta.
      rewrite (upto_step bound _ _ m rest (logged f)) by reflexivity.
      cbn [maxSize].
      assert (Hl : logged f m (log, w) =
                   let '(r, w') := f m w in (r, (log ++ [m], w'))) by reflexivity.
      rewrite Hl. clear Hl.
      destruct (f m w) as [[[]|e] w'] eqn:Hf.
      * cbn [length] in Hlen.
        destruct (IH rest true (log ++ [m]) w' ltac:(lia))
          as (P1 & P2 & P3 & called & C1 & C2 & C3 & C4).
        split; [exact P1|]. split; [exact P2|]. split; [exact P3|].
        exists (m :: called). split; [|split; [|split]].
        -- cbn [app]. f_equal. exact C1.
        -- rewrite C2, <- app_assoc. reflexivity.
        -- exact C3.
        -- intros e He. destruct (C4 e He) as (front & m' & w0 & -> & Hm').
           exists (m :: front), m', w0. split; [reflexivity|exact Hm'].
      * cbn. split; [reflexivity|]. split; [reflexivity|]. split; [reflexivity|].
        exists [m]. split; [reflexivity|]. split; [reflexivity|]. split.
        -- intros u Hu. discriminate.
        -- intros e' He'. injection He' as <-. exists [], m, w.
           split; [reflexivity|]. rewrite Hf. reflexivity.
Qed.

(** What a run of [processNextMessage] leaves behind, for any callback.
    The callback is called on the queued messages from the head on, in
    order, and on no others.  If the run returns, every message was
    handed over and the queue is empty.  If it throws, the error is the
    one the callback threw on the last message handed over; that
    message and those before it are off the queue, the later ones are
    still on it.  Either way the processing flag is false. *)
Theorem processNextMessage_outcome (f : BaseAgentMessage -> M World unit)
    (q : t (list BaseAgentMessage * World)) (log : list BaseAgentMessage) (w : World) :
  processCallback q = Function (logged f) ->
  let run := processNextMessage (q, (log, w)) in
  let q' := fst (snd run) in
  processing q' = false /\
  exists called,
    queue q = called ++ queue q' /\
    fst (snd (snd run)) = log ++ called /\
    (forall u, fst run = Returned u -> queue q' = []) /\
    (forall e, fst run = Thrown e ->
       exists front m w0, called = front ++ [m] /\ fst (f m w0) = Thrown e).
Proof.
  intros Hcb. cbn zeta. unfold processNextMessage, mbind, M_bind, this. cbn [fst].
  destruct q as [l flag size cb]. cbn in Hcb. subst cb. cbn [queue].
  destruct (upto_outcome f (length l) l flag size log w (le_n _))
    as (P1 & _ & _ & H).
  split; [exact P1|exact H].
Qed.

Lemma enqueue_idle_with_room (m : BaseAgentMessage)
    (q : t (list BaseAgentMessage * World)) (s : list BaseAgentMessage * World) :
  processing q = false ->
  Z.of_nat (length (queue q)) < maxSize q ->
  descending (queue q) ->
  enqueue m (q, s) =
    processNextMessage (mk (inserted m (queue q)) false (maxSize q) (processCallback q), s).
Proof.
  intros Hidle Hroom Hdesc.
  destruct (insertion_descending m (queue q) Hdesc) as [Hins _]. cbn zeta in Hins.
  unfold enqueue. unfold mbind at 1, M_bind at 1, this at 1. cbn [fst].
  assert (E : (Z.of_nat (length (queue q)) >=? maxSize q) = false).
  { destruct (_ >=? _) eqn:G; [|reflexivity]. apply Z.geb_le in G. lia. }
  rewrite E. unfold mbind at 1, M_bind at 1.
  assert (Hset : forall v, set_queue v (q, s) =
            (Returned tt, (mk v (processing q) (maxSize q) (processCallback q), s)))
    by reflexivity.
  destruct (findIndex _ (queue q) =? -1).
  - destruct (findLastIndex _ (queue q) =? -1); rewrite Hset, <- Hins;
      unfold mbind at 1, M_bind at 1, this at 1; cbn [fst processing];
      rewrite Hidle; reflexivity.
  - rewrite Hset, <- Hins. unfold mbind at 1, M_bind at 1, this at 1.
    cbn [fst processing]. rewrite Hidle. reflexivity.
Qed.

(** An idle queue with room, in descending priority order and with a
    callback that resolves for every message: [enqueue] returns after
    the callback has been called on the new message and on every
    message that was waiting, in priority order, the new one behind
    those of the same priority; the queue is empty and idle again. *)
Theorem idle_enqueue_processes_by_priority (f : BaseAgentMessage -> M World unit)
    (m : BaseAgentMessage) (q : t (list BaseAgentMessage * World))
    (log : list BaseAgentMessage) (w : World) :
  processCallback q = Function (logged f) ->
  (forall m' w', fst (f m' w') = Returned tt) ->
  processing q = false ->
  Z.of_nat (length (queue q)) < maxSize q ->
  descending (queue q) ->
  let run := enqueue m (q, (log, w)) in
  fst run = Returned tt /\
  queue (fst (snd run)) = [] /\
  processing (fst (snd run)) = false /\
  fst (snd (snd run)) = log ++ inserted m (queue q).
Proof.
  intros Hcb Hf Hidle Hroom Hdesc. cbn zeta.
  rewrite enqueue_idle_with_room by assumption.
  unfold processNextMessage, mbind, M_bind, this. cbn [fst queue]. rewrite Hcb.
  destruct (upto_outcome f (length (inserted m (queue q))) (inserted m (queue q))
              false (maxSize q) log w (le_n _))
    as (P1 & _ & _ & called & C1 & C2 & C3 & C4).
  destruct (processNextMessage_upto _ _) as [r [q' [log' w']]].
  cbn [fst snd] in *.
  destruct r as [[]|e].
  - specialize (C3 tt eq_refl). rewrite C3, app_nil_r in C1. subst called.
    repeat split; assumption.
  - destruct (C4 e eq_refl) as (front & m' & w0 & _ & Hbad).
    rewrite Hf in Hbad. discriminate.
Qed.
End Draining.

Definition task_with (prio : Z) : BaseAgentMessage :=
  mkMessage (pretty prio) "TEST" "test-agent" (JsObject "{}") (Some (inject_Z prio)) None.

(** A callback that rejects the message named "2". *)
Definition rejects_2 (m : BaseAgentMessage) : M Z unit :=
  fun w =>
    if String.eqb (id m) "2" then (Thrown (Error "Processing failed"), w + 1)
    else (Returned tt, w + 1).

Lemma processNextMessage_outcome_witness :
  let q := mk [task "1"; task "2"; task "3"] false 100 (Function (logged rejects_2)) in
  let run := processNextMessage (q, ([], 0)) in
  let q' := fst (snd run) in
  processing q' = false /\
  exists called,
    queue q = called ++ queue q' /\
    fst (snd (snd run)) = [] ++ called /\
    (forall u, fst run = Returned u -> queue q' = []) /\
    (forall e, fst run = Thrown e ->
       exists front m w0, called = front ++ [m] /\ fst (rejects_2 m w0) = Thrown e).
Proof.
  apply (processNextMessage_outcome rejects_2
           (mk [task "1"; task "2"; task "3"] false 100 (Function (logged rejects_2)))
           [] 0).
  reflexivity.
Defined.

Definition counts (m : BaseAgentMessage) : M Z unit := fun w => (Returned tt, w + 1).

Lemma idle_enqueue_processes_by_priority_witness :
  let q := mk [task_with 3; task_with 1] false 100 (Function (logged counts)) in
  let run := enqueue (task_with 2) (q, ([], 0)) in
  fst run = Returned tt /\
  queue (fst (snd run)) = [] /\
  processing (fst (snd run)) = false /\
  fst (snd (snd run)) = [] ++ inserted (task_with 2) [task_with 3; task_with 1].
Proof.
  apply (idle_enqueue_processes_by_priority counts (task_with 2)
           (mk [task_with 3; task_with 1] false 100 (Function (logged counts))) [] 0).
  - reflexivity.
  - reflexivity.
  - reflexivity.
  - cbn. lia.
  - repeat constructor; cbn; discriminate.
Defined.

Example failed_message_is_lost :
  let q := mk [task "1"; task "2"; task "3"] false 100 (Function (logged rejects_2)) in
  processNextMessage (q, ([], 0)) =
    (Thrown (Error "Processing failed"),
     (mk [task "3"] false 100 (Function (logged rejects_2)), ([task "1"; task "2"], 2))).
Proof. reflexivity. Qed.

Lemma busy_enqueue_keeps_priority_order_witness :
  let q : t Z :=
    mk [task_with 3; task_with 1] true 100 (Function count_calls) in
  enqueue (task_with 2) (q, 0) =
    (Returned tt,
     (mk (inserted (task_with 2) [task_with 3; task_with 1]) true 100
         (Function count_calls), 0)) /\
  descending (inserted (task_with 2) [task_with 3; task_with 1]).
Proof.
  apply (busy_enqueue_keeps_priority_order (task_with 2)
           (mk [task_with 3; task_with 1] true 100 (Function count_calls)) 0).
  - reflexivity.
  - cbn. lia.
  - repeat constructor; cbn; discriminate.
Defined.

End MessageQueueMore.

(** ** Retry: the edges *)

Module RetryMore.
Import Utils RetryProps.

Definition total (ds : list Z) : Z := foldr Z.add 0 ds.

Lemma total_app (l1 l2 : list Z) : total (l1 ++ l2) = total l1 + total l2.
Proof. unfold total. induction l1 as [|x l1 IH]; cbn; [reflexivity|]. rewrite IH. lia. Qed.

Lemma total_backoff (baseDelayMs : Z) (n : nat) :
  total ((fun k : nat => baseDelayMs * 2 ^ Z.of_nat k) <$> seq 0 n) =
    baseDelayMs * (2 ^ Z.of_nat n - 1).
Proof.
  induction n as [|n IH]; [cbn; lia|].
  rewrite seq_S, fmap_app, total_app, IH. cbn [fmap list_fmap total foldr Nat.add].
  rewrite Nat2Z.inj_succ, Z.pow_succ_r by lia. lia.
Qed.

Section Props.
Context {St T : Type}.
Variable sleep : Z -> St -> St.

(** With a negative [maxRetries] the loop is never entered: the
    operation is not started, nothing is waited for, and what is thrown
    is [undefined], the initial value of [lastError]. *)
Theorem negative_maxRetries_throws_undefined (operation : M St T)
    (maxRetries baseDelayMs : Z) (operationName : string) (s : St) :
  maxRetries < 0 ->
  withRetry sleep operation maxRetries baseDelayMs operationName s =
    (Thrown ThrownUndefined, s).
Proof.
  intros Hneg. unfold withRetry.
  replace (Z.to_nat (maxRetries + 1)) with 0%nat by lia. reflexivity.
Qed.

Lemma withRetry_loop_all_fail (operation : M St T) (maxRetries baseDelayMs : Z)
    (operationName : string) (turns : nat) (attempt : Z) (lastError : JsError) (s : St) :
  (forall s0, exists e, fst (operation s0) = Thrown e) ->
  exists e,
    fst (withRetry_loop sleep operation maxRetries baseDelayMs operationName
           turns attempt lastError s) = Thrown e.
Proof.
  intros Hfail. revert attempt lastError s.
  induction turns as [|turns IH]; intros attempt lastError s; cbn [withRetry_loop].
  - eexists. reflexivity.
  - destruct (attempt <=? maxRetries); [|eexists; reflexivity].
    unfold try_catch. destruct (Hfail s) as [e He].
    destruct (operation s) as [r s1]. cbn in He. subst r.
    destruct (attempt =? maxRetries); [eexists; reflexivity|].
    unfold mbind, M_bind, modify. apply IH.
Qed.
End Props.

(** An operation that never succeeds, run with [maxRetries >= 0]: it
    is started [maxRetries + 1] times, the waits between the starts are
    [baseDelayMs * 2^k] for k = 0 .. [maxRetries - 1], which add up to
    [baseDelayMs * (2^maxRetries - 1)] milliseconds, and the error
    thrown in the end is the one that reports [maxRetries] retries, not
    the operation's own. *)
Theorem exhausted_retries {World T : Type} (operation : M World T)
    (maxRetries baseDelayMs : Z) (operationName : string) (w : World) :
  0 <= maxRetries ->
  (forall w0, exists e, fst (operation w0) = Thrown e) ->
  let run :=
    withRetry traced_sleep (traced operation) maxRetries baseDelayMs operationName ([], w) in
  fst run = Thrown (gave_up operationName maxRetries) /\
  invocations (fst (snd run)) = Z.to_nat (maxRetries + 1) /\
  delays (fst (snd run)) =
    (fun k : nat => baseDelayMs * 2 ^ Z.of_nat k) <$> seq 0 (Z.to_nat maxRetries) /\
  total (delays (fst (snd run))) = baseDelayMs * (2 ^ maxRetries - 1).
Proof.
  intros Hmax Hfail. cbn zeta. unfold withRetry.
  destruct (withRetry_loop_trace operation maxRetries baseDelayMs operationName
              (Z.to_nat (maxRetries + 1)) 0 ThrownUndefined [] w)
    as (retries & r & w' & Hrun & Hbound & Hthrown); [lia|f_equal; lia|].
  assert (Hfail' : forall s0 : list Event * World,
             exists e, fst (traced operation s0) = Thrown e).
  { intros [tr w0]. destruct (Hfail w0) as [e He]. exists e. unfold traced.
    destruct (operation w0) as [r0 w1]. exact He. }
  destruct (withRetry_loop_all_fail traced_sleep (traced operation) maxRetries
              baseDelayMs operationName (Z.to_nat (maxRetries + 1)) 0
              ThrownUndefined ([], w) Hfail') as [e He].
  rewrite Hrun in He |- *. cbn [fst snd app] in He |- *. subst r.
  destruct (Hthrown e eq_refl) as [Hn ->].
  assert (Hr : retries = Z.to_nat maxRetries) by lia. subst retries.
  split; [reflexivity|].
  rewrite invocations_app, failed_attempts_invocations, delays_app,
    failed_attempts_delays.
  cbn [delays]. rewrite app_nil_r. split; [cbn; lia|]. split.
  - apply list_fmap_ext. intros _ k _. f_equal.
  - assert (Heq : ((fun k : nat => baseDelayMs * 2 ^ (0 + Z.of_nat k)) <$>
                     seq 0 (Z.to_nat maxRetries)) =
                  ((fun k : nat => baseDelayMs * 2 ^ Z.of_nat k) <$>
                     seq 0 (Z.to_nat maxRetries))).
    { apply list_fmap_ext. intros _ k _. f_equal. }
    rewrite Heq, total_backoff, Z2Nat.id by lia. reflexivity.
Qed.

Lemma negative_maxRetries_throws_undefined_witness :
  withRetry traced_sleep (traced always_down) (-1) 1000 "job" ([], tt) =
    (Thrown ThrownUndefined, ([], tt)).
Proof.
  apply (negative_maxRetries_throws_undefined traced_sleep (traced always_down)
           (-1) 1000 "job" ([], tt)).
  lia.
Defined.

Lemma exhausted_retries_witness :
  let run := withRetry traced_sleep (traced always_down) 3 1000 "job" ([], tt) in
  fst run = Thrown (gave_up "job" 3) /\
  invocations (fst (snd run)) = Z.to_nat (3 + 1) /\
  delays (fst (snd run)) =
    (fun k : nat => 1000 * 2 ^ Z.of_nat k) <$> seq 0 (Z.to_nat 3) /\
  total (delays (fst (snd run))) = 1000 * (2 ^ 3 - 1).
Proof.
  apply (exhausted_retries always_down 3 1000 "job" tt); [lia|].
  intros w0. eexists. reflexivity.
Defined.

End RetryMore.

(** ** The agent's own processing step *)

Module BaseAgentMore.
Import BaseAgent.

Section Props.
Context {World : Type}.
Variable Date_now : World -> Z * World.
Variable processMessage : BaseAgentMessage -> M (t World * World) unit.
Variable timer_wins : Z -> t World * World -> t World * World -> bool.

Definition with_state (v : AgentState) (ms : Z) (a : t World) : t World :=
  mk (agent_name a) v ms (agent_maxRetries a) (messageQueue a) (config a).

Definition with_queue (q : MessageQueue.t World) (a : t World) : t World :=
  mk (agent_name a) (state a) (lastActiveTime a) (agent_maxRetries a) q (config a).

Lemma setState_run (v : AgentState) (a : t World) (w : World) :
  setState Date_now v (a, w) =
    (Returned tt, (with_state v (fst (Date_now w)) a, snd (Date_now w))).
Proof. unfold setState. destruct (Date_now w). reflexivity. Qed.

Lemma setProcessing_run (v : bool) (a : t World) (w : World) :
  on_messageQueue (MessageQueue.setProcessing v) (a, w) =
    (Returned tt,
     (with_queue (MessageQueue.mk (MessageQueue.queue (messageQueue a)) v
                    (MessageQueue.maxSize (messageQueue a))
                    (MessageQueue.processCallback (messageQueue a))) a, w)).
Proof. reflexivity. Qed.

Lemma dequeue_run (a : t World) (w : World) :
  on_messageQueue MessageQueue.dequeue (a, w) =
    match MessageQueue.queue (messageQueue a) with
    | [] => (Returned None, (with_queue (messageQueue a) a, w))
    | m :: rest =>
        (Returned (Some m),
         (with_queue (MessageQueue.mk rest (MessageQueue.processing (messageQueue a))
                        (MessageQueue.maxSize (messageQueue a))
                        (MessageQueue.processCallback (messageQueue a))) a, w))
    end.
Proof.
  unfold on_messageQueue, MessageQueue.dequeue.
  destruct a as [n st la mr [q p ms cb] cfg]. cbn.
  destruct q as [|m rest]; reflexivity.
Qed.


Lemma as_AgentError_is_AgentError (e : JsError) :
  exists type message, as_AgentError e = AgentError type message.
Proof. destruct e; cbn; eauto. Qed.

(** The inner [try]/[catch] of [processNextMessage] and of
    [handleMessage], from the race on. *)
Definition attempt (m : BaseAgentMessage) : M (t World * World) unit :=
  try_catch
    (race_with_timeout processMessage timer_wins m;;
     setState Date_now IDLE)
    (fun error =>
       setState Date_now ERROR;;
       throw (as_AgentError error)).

Lemma attempt_outcome (m : BaseAgentMessage) (s : t World * World) :
  let run := attempt m s in
  let a' := fst (snd run) in
  MessageQueue.processing (messageQueue a') = false /\
  agent_maxRetries a' = agent_maxRetries (fst (snd (processMessage m s))) /\
  ((fst run = Returned tt /\ state a' = IDLE /\
    fst (processMessage m s) = Returned tt) \/
   (exists e,
      fst run = Thrown (as_AgentError e) /\ state a' = ERROR /\
      (fst (processMessage m s) = Thrown e \/
       error_type e = AgentErrorType_member "TIMEOUT"))).
Proof.
  cbn zeta. unfold attempt, try_catch, mbind, M_bind, race_with_timeout.
  destruct (processMessage m s) as [r [a1 w1]] eqn:Hp.
  rewrite setProcessing_run.
  destruct (timer_wins _ s (a1, w1)).
  - rewrite setState_run. cbn. split; [reflexivity|]. split; [reflexivity|].
    right. eexists (AgentError _ _).
    split; [reflexivity|]. split; [reflexivity|]. right. reflexivity.
  - destruct r as [[]|e].
    + rewrite setState_run. cbn. split; [reflexivity|]. split; [reflexivity|].
      left. repeat split.
    + rewrite setState_run. cbn. split; [reflexivity|]. split; [reflexivity|].
      right. exists e. split; [reflexivity|]. split; [reflexivity|]. left. reflexivity.
Qed.

(** The agent when [processMessage] is entered from
    [processNextMessage]. *)
Definition picked_up (a : t World) (w : World) (rest : list BaseAgentMessage)
    : t World * World :=
  (with_queue (MessageQueue.mk rest true (MessageQueue.maxSize (messageQueue a))
                 (MessageQueue.processCallback (messageQueue a)))
     (with_state WORKING (fst (Date_now w)) a),
   snd (Date_now w)).

Lemma processNextMessage_run (a : t World) (w : World)
    (m : BaseAgentMessage) (rest : list BaseAgentMessage) :
  MessageQueue.queue (messageQueue a) = m :: rest ->
  processNextMessage Date_now processMessage timer_wins (a, w) =
    match attempt m (picked_up a w rest) with
    | (Returned v, s') => (Returned v, s')
    | (Thrown e, (a2, w2)) =>
        (Thrown e,
         (with_state ERROR (fst (Date_now w2))
            (with_queue (MessageQueue.mk (MessageQueue.queue (messageQueue a2)) false
                           (MessageQueue.maxSize (messageQueue a2))
                           (MessageQueue.processCallback (messageQueue a2))) a2),
          snd (Date_now w2)))
    end.
Proof.
  intros Hq. unfold processNextMessage.
  unfold try_catch at 1. unfold mbind at 1, M_bind at 1.
  rewrite dequeue_run, Hq.
  unfold mbind at 1, M_bind at 1. rewrite setState_run.
  unfold mbind at 1, M_bind at 1. rewrite setProcessing_run.
  match goal with
  | |- context [try_catch _ _ ?s] => change s with (picked_up a w rest)
  end.
  fold (attempt m).
  destruct (attempt m (picked_up a w rest)) as [[v|e] [a2 w2]].
  - reflexivity.
  - unfold mbind, M_bind. rewrite setProcessing_run, setState_run. reflexivity.
Qed.

(** [processNextMessage] with a message waiting.  The message is taken
    off the queue and handed to [processMessage]; whatever that does,
    the queue's processing flag is false afterwards.  Either the call
    returns and the agent is IDLE, and then [processMessage] returned;
    or it throws and the agent is in ERROR, and then the error is an
    [AgentError]: the one [processMessage] threw if that was one, an
    INTERNAL one with the same message if it threw another error, or
    the TIMEOUT error of the timer. *)
Theorem processNextMessage_settles (a : t World) (w : World)
    (m : BaseAgentMessage) (rest : list BaseAgentMessage) :
  MessageQueue.queue (messageQueue a) = m :: rest ->
  let run := processNextMessage Date_now processMessage timer_wins (a, w) in
  let a' := fst (snd run) in
  let entered := processMessage m (picked_up a w rest) in
  MessageQueue.processing (messageQueue a') = false /\
  ((fst run = Returned tt /\ state a' = IDLE /\ fst entered = Returned tt) \/
   (exists e type message,
      fst run = Thrown (as_AgentError e) /\
      as_AgentError e = AgentError type message /\
      state a' = ERROR /\
      (fst entered = Thrown e \/ error_type e = AgentErrorType_member "TIMEOUT"))).
Proof.
  intros Hq. cbn zeta. rewrite (processNextMessage_run a w m rest Hq).
  destruct (attempt_outcome m (picked_up a w rest)) as (Hproc & _ & Hcases).
  destruct (attempt m (picked_up a w rest)) as [r [a2 w2]]. cbn [fst snd] in *.
  destruct Hcases as [(-> & Hst & Hret) | (e & -> & Hst & Hwhy)].
  - cbn [fst snd]. split; [exact Hproc|]. left. auto.
  - cbn. split; [reflexivity|]. right.
    destruct (as_AgentError_is_AgentError e) as (type & message & He).
    exists e, type, message. auto.
Qed.

End Props.

(** The failed attempts of [handleMessage], each followed by its wait:
    the wait after the k-th failure, counting from 1, is [1000 * k]
    milliseconds. *)
Fixpoint linear_attempts (first : Z) (count : nat) : list RetryProps.Event :=
  match count with
  | O => []
  | S count' =>
      RetryProps.Invoked :: RetryProps.Slept (1000 * first)
        :: linear_attempts (first + 1) count'
  end.

Section Handling.
Context {World : Type}.
Local Abbreviation Logged := (list RetryProps.Event * World)%type.
Variable Date_now : World -> Z * World.
Variable processMessage : BaseAgentMessage -> M (t Logged * World) unit.
Variable timer_wins : Z -> t Logged * Logged -> t Logged * Logged -> bool.

(** The clock, [processMessage] and the waits in a world with a log:
    only the latter two write to it. *)
Definition logged_clock (s : Logged) : Z * Logged :=
  let '(ms, w') := Date_now (snd s) in (ms, (fst s, w')).

Definition logged_processMessage (m : BaseAgentMessage) : M (t Logged * Logged) unit :=
  fun '(a, (trace, w)) =>
    let '(r, (a', w')) := processMessage m (a, w) in
    (r, (a', (trace ++ [RetryProps.Invoked], w'))).

Definition handleMessage_logged (m : BaseAgentMessage) : M (t Logged * Logged) unit :=
  handleMessage logged_clock logged_processMessage timer_wins RetryProps.traced_sleep m.

Hypothesis maxRetries_kept :
  forall m s, agent_maxRetries (fst (snd (processMessage m s))) = agent_maxRetries (fst s).

Lemma logged_clock_run (trace : list RetryProps.Event) (w : World) :
  logged_clock (trace, w) = (fst (Date_now w), (trace, snd (Date_now w))).
Proof. unfold logged_clock. cbn [fst snd]. destruct (Date_now w). reflexivity. Qed.

(** One pass of the [try] block, from the race on. *)
Lemma pass_logged (m : BaseAgentMessage) (a : t Logged) (trace : list RetryProps.Event)
    (w : World) :
  exists r a' w',
    (race_with_timeout logged_processMessage timer_wins m;;
     setState logged_clock IDLE) (a, (trace, w)) =
      (r, (a', (trace ++ [RetryProps.Invoked], w'))) /\
    MessageQueue.processing (messageQueue a') = false /\
    agent_maxRetries a' = agent_maxRetries a /\
    (r = Returned tt -> state a' = IDLE).
Proof.
  unfold mbind, M_bind, race_with_timeout, logged_processMessage.
  pose proof (maxRetries_kept m (a, w)) as Hk.
  destruct (processMessage m (a, w)) as [r [a1 w1]]. cbn [fst snd] in Hk.
  rewrite setProcessing_run.
  destruct (timer_wins _ _ _); [|destruct r as [[]|e]].
  - eexists _, _, _. split; [reflexivity|]. split; [reflexivity|].
    split; [exact Hk|]. discriminate.
  - rewrite setState_run, logged_clock_run.
    eexists _, _, _. split; [reflexivity|]. split; [reflexivity|].
    split; [exact Hk|]. reflexivity.
  - eexists _, _, _. split; [reflexivity|]. split; [reflexivity|].
    split; [exact Hk|]. discriminate.
Qed.

Lemma handleMessage_loop_trace (turns : nat) (m : BaseAgentMessage) (retryCount : Z)
    (a : t Logged) (trace : list RetryProps.Event) (w : World) :
  0 <= retryCount <= agent_maxRetries a ->
  turns = Z.to_nat (agent_maxRetries a + 1 - retryCount) ->
  exists (retries : nat) r a' w',
    handleMessage_loop logged_clock logged_processMessage timer_wins
      RetryProps.traced_sleep turns m retryCount (a, (trace, w)) =
      (r, (a', (trace ++ linear_attempts (retryCount + 1) retries ++ [RetryProps.Invoked],
                w'))) /\
    Z.of_nat retries <= agent_maxRetries a - retryCount /\
    MessageQueue.processing (messageQueue a') = false /\
    (r = Returned tt /\ state a' = IDLE \/
     exists e, r = Thrown (as_AgentError e) /\ state a' = ERROR /\
               Z.of_nat retries = agent_maxRetries a - retryCount).
Proof.
  revert retryCount a trace w.
  induction turns as [|turns IH]; intros retryCount a trace w Hcount Hturns; [lia|].
  cbn [handleMessage_loop]. unfold mbind at 1, M_bind at 1, this at 1. cbn [fst].
  assert (Hle : (retryCount <=? agent_maxRetries a) = true) by (apply Z.leb_le; lia).
  rewrite Hle.
  unfold try_catch at 1. unfold mbind at 1, M_bind at 1.
  rewrite setState_run, logged_clock_run. cbn [fst snd].
  destruct (pass_logged m (with_state WORKING (fst (Date_now w)) a) trace
              (snd (Date_now w))) as (r & a1 & w1 & -> & Hproc & Hmax & Hidle).
  cbn [with_state agent_maxRetries] in Hmax.
  destruct r as [[]|e].
  - exists 0%nat, (Returned tt), a1, w1. cbn [linear_attempts app].
    split; [reflexivity|]. split; [lia|]. split; [exact Hproc|]. left. auto.
  - unfold mbind at 1, M_bind at 1. rewrite setState_run, logged_clock_run.
    cbn [fst snd]. unfold mbind at 1, M_bind at 1, this at 1.
    cbn [fst with_state agent_maxRetries]. rewrite Hmax.
    destruct (retryCount + 1 >? agent_maxRetries a) eqn:Elast.
    + exists 0%nat. eexists _, _, _. cbn [linear_attempts app].
      split; [reflexivity|]. split; [lia|]. split; [exact Hproc|].
      right. exists e. split; [reflexivity|]. split; [reflexivity|]. lia.
    + unfold mbind at 1, M_bind at 1, on_snd, modify.
      change (RetryProps.traced_sleep (1000 * (retryCount + 1))
                (trace ++ [RetryProps.Invoked], snd (Date_now w1)))
        with ((trace ++ [RetryProps.Invoked])
                ++ [RetryProps.Slept (1000 * (retryCount + 1))], snd (Date_now w1)).
      destruct (IH (retryCount + 1) (with_state ERROR (fst (Date_now w1)) a1)
                  ((trace ++ [RetryProps.Invoked])
                     ++ [RetryProps.Slept (1000 * (retryCount + 1))])
                  (snd (Date_now w1)))
        as (retries & r & a' & w' & Hrun & Hbound & Hproc' & Hcases).
      { cbn [with_state agent_maxRetries]. lia. }
      { cbn [with_state agent_maxRetries]. lia. }
      cbn [with_state agent_maxRetries] in Hbound, Hcases.
      exists (S retries), r, a', w'. split; [|split; [|split]].
      * rewrite Hrun. cbn [linear_attempts]. rewrite <- !app_assoc. reflexivity.
      * lia.
      * exact Hproc'.
      * destruct Hcases as [Hret | (e' & Hr & Hst & Hn)]; [left; exact Hret|].
        right. exists e'. split; [exact Hr|]. split; [exact Hst|]. lia.
Qed.

Lemma linear_attempts_invocations (first : Z) (count : nat) :
  RetryProps.invocations (linear_attempts first count) = count.
Proof.
  revert first. induction count as [|count IH]; intros first; [reflexivity|].
  cbn [linear_attempts]. unfold RetryProps.invocations in *. cbn. by rewrite IH.
Qed.

Lemma linear_attempts_delays (first : Z) (count : nat) :
  RetryProps.delays (linear_attempts first count) =
    (fun k : nat => 1000 * (first + Z.of_nat k)) <$> seq 0 count.
Proof.
  revert first. induction count as [|count IH]; intros first; [reflexivity|].
  cbn [linear_attempts RetryProps.delays seq fmap list_fmap]. rewrite IH.
  replace (first + Z.of_nat 0) with first by lia. f_equal.
  rewrite <- fmap_S_seq, <- list_fmap_compose. apply list_fmap_ext.
  intros _ k _. cbn. f_equal. lia.
Qed.

(** [handleMessage] on an agent whose [processMessage] leaves
    [this.maxRetries] alone.  With [maxRetries < 0] it returns at once:
    [processMessage] is not called and the agent is untouched.  With
    [maxRetries >= 0] it calls [processMessage] at least once and at
    most [maxRetries + 1] times; after the k-th failed call, counting
    from 1, it waits [1000 * k] milliseconds; the queue's processing
    flag is false afterwards; it returns with the agent IDLE, or throws
    an [AgentError] with the agent in ERROR after exactly
    [maxRetries + 1] calls. *)
Theorem handleMessage_bound_and_backoff (m : BaseAgentMessage) (a : t Logged) (w : World) :
  let run := handleMessage_logged m (a, ([], w)) in
  let a' := fst (snd run) in
  let trace := fst (snd (snd run)) in
  (agent_maxRetries a < 0 -> run = (Returned tt, (a, ([], w)))) /\
  (0 <= agent_maxRetries a ->
   (1 <= RetryProps.invocations trace)%nat /\
   Z.of_nat (RetryProps.invocations trace) <= agent_maxRetries a + 1 /\
   RetryProps.delays trace =
     (fun k : nat => 1000 * (1 + Z.of_nat k)) <$>
       seq 0 (RetryProps.invocations trace - 1) /\
   MessageQueue.processing (messageQueue a') = false /\
   (fst run = Returned tt /\ state a' = IDLE \/
    exists type message,
      fst run = Thrown (AgentError type message) /\ state a' = ERROR /\
      Z.of_nat (RetryProps.invocations trace) = agent_maxRetries a + 1)).
Proof.
  cbn zeta.
  assert (Hrun : handleMessage_logged m (a, ([], w)) =
                 handleMessage_loop logged_clock logged_processMessage timer_wins
                   RetryProps.traced_sleep (Z.to_nat (agent_maxRetries a + 1)) m 0
                   (a, ([], w))) by reflexivity.
  rewrite Hrun. clear Hrun. split.
  - intros Hneg. replace (Z.to_nat (agent_maxRetries a + 1)) with 0%nat by lia.
    reflexivity.
  - intros Hmax.
    destruct (handleMessage_loop_trace (Z.to_nat (agent_maxRetries a + 1)) m 0 a [] w)
      as (retries & r & a' & w' & -> & Hbound & Hproc & Hcases); [lia|f_equal; lia|].
    cbn [fst snd app].
    rewrite RetryProps.invocations_app, linear_attempts_invocations,
      RetryProps.delays_app, linear_attempts_delays.
    cbn [RetryProps.delays RetryProps.invocations]. rewrite app_nil_r.
    replace (retries + RetryProps.invocations [RetryProps.Invoked] - 1)%nat
      with retries by (cbn; lia).
    split; [cbn; lia|]. split; [cbn; lia|]. split.
    { apply list_fmap_ext. intros _ k _. f_equal. }
    split; [exact Hproc|].
    destruct Hcases as [Hret | (e & -> & Hst & Hn)]; [left; exact Hret|].
    right. destruct (as_AgentError_is_AgentError e) as (type & message & He).
    exists type, message. split; [f_equal; exact He|]. split; [exact Hst|]. cbn. lia.
Qed.
End Handling.

(** A worker whose [processMessage] always throws a plain [Error], and
    a timer that never fires first. *)
Definition crashing {A World : Type} (m : BaseAgentMessage) : M (A * World) unit :=
  fun s => (Thrown (Error "boom"), s).

Definition never_fires {S : Type} (ms : Z) (before after : S) : bool := false.

Definition worker_with {World : Type} (retries : Z) (waiting : list BaseAgentMessage)
    : t World :=
  mk "worker" IDLE 0 retries
    (MessageQueue.mk waiting false 100 (MessageQueue.NotCallable (JsNumber 1000)))
    (with_defaults (mkAgentConfig "worker" (Some retries) None None None)).

Lemma processNextMessage_settles_witness :
  let m := MessageQueueProps.task "t" in
  let a : t Z := worker_with 3 [m] in
  let run := processNextMessage MessageQueueProps.frozen_clock crashing never_fires (a, 5) in
  let a' := fst (snd run) in
  let entered := crashing m (picked_up MessageQueueProps.frozen_clock a 5 []) in
  MessageQueue.processing (messageQueue a') = false /\
  ((fst run = Returned tt /\ state a' = IDLE /\ fst entered = Returned tt) \/
   (exists e type message,
      fst run = Thrown (as_AgentError e) /\
      as_AgentError e = AgentError type message /\
      state a' = ERROR /\
      (fst entered = Thrown e \/ error_type e = AgentErrorType_member "TIMEOUT"))).
Proof.
  apply (processNextMessage_settles MessageQueueProps.frozen_clock crashing never_fires
           (worker_with 3 [MessageQueueProps.task "t"]) 5
           (MessageQueueProps.task "t") []).
  reflexivity.
Defined.

Lemma handleMessage_bound_and_backoff_witness :
  let m := MessageQueueProps.task "t" in
  let a : t (list RetryProps.Event * Z) := worker_with 2 [] in
  let run :=
    handleMessage_logged MessageQueueProps.frozen_clock crashing never_fires m (a, ([], 5)) in
  let a' := fst (snd run) in
  let trace := fst (snd (snd run)) in
  (agent_maxRetries a < 0 -> run = (Returned tt, (a, ([], 5)))) /\
  (0 <= agent_maxRetries a ->
   (1 <= RetryProps.invocations trace)%nat /\
   Z.of_nat (RetryProps.invocations trace) <= agent_maxRetries a + 1 /\
   RetryProps.delays trace =
     (fun k : nat => 1000 * (1 + Z.of_nat k)) <$>
       seq 0 (RetryProps.invocations trace - 1) /\
   MessageQueue.processing (messageQueue a') = false /\
   (fst run = Returned tt /\ state a' = IDLE \/
    exists type message,
      fst run = Thrown (AgentError type message) /\ state a' = ERROR /\
      Z.of_nat (RetryProps.invocations trace) = agent_maxRetries a + 1)).
Proof.
  apply (handleMessage_bound_and_backoff MessageQueueProps.frozen_clock crashing never_fires).
  intros m s. reflexivity.
Defined.

(** The worker above with two retries: three calls, waits of one and
    two seconds, and an INTERNAL error with the message of the
    worker's own. *)
Example crashing_worker_handled :
  let run :=
    handleMessage_logged MessageQueueProps.frozen_clock crashing never_fires
      (MessageQueueProps.task "t") (worker_with 2 [], ([], 5)) in
  fst run = Thrown (AgentError (Some INTERNAL) "boom") /\
  fst (snd (snd run)) =
    [RetryProps.Invoked; RetryProps.Slept 1000; RetryProps.Invoked;
     RetryProps.Slept 2000; RetryProps.Invoked] /\
  state (fst (snd run)) = ERROR.
Proof. vm_compute. auto. Qed.

End BaseAgentMore.

(** ** The orchestrator: registration, routing and the drain loop *)

Module OrchestratorMore.
Import OrchestratorAgent OrchestratorProps.

(** The two maps of the orchestrator have the same keys. *)
Definition in_step (o : t) : Prop :=
  forall agentName, agents o !! agentName = None <-> agentStates o !! agentName = None.

Section Props.
Context {Env : Type}.
Variable rt : Runtime Env.

(** The entry [registerAgent] makes for a new agent. *)
Definition fresh_info (o : t) (e : Env) : AgentStateInfo :=
  let circuitConfig :=
    {| CircuitBreaker.failureThreshold := inject_Z (retry_limit o);
       CircuitBreaker.resetTimeout :=
         inject_Z (default 30000 (timeoutMs (base (config o))));
       CircuitBreaker.halfOpenTimeout :=
         (inject_Z (default 30000%Z (timeoutMs (base (config o)))) / 2)%Q |} in
  mkInfo IDLE (fst (Date_now rt e)) 0
    (fst (CircuitBreaker.constructor (Date_now rt) circuitConfig (snd (Date_now rt e))))
    HealthMetrics.constructor.

Lemma registerAgent_new (agent : Agent) (messageTypes : list string) (o : t) (e : Env) :
  agents o !! getName agent = None ->
  registerAgent rt agent messageTypes (o, e) =
    (Returned tt,
     (mk (config o) (<[getName agent := agent]> (agents o))
         (<[getName agent := fresh_info o e]> (agentStates o)) (messageQueue o),
      snd (Date_now rt (snd (Date_now rt e))))).
Proof.
  intros Hnew. unfold registerAgent, mbind, M_bind, this. cbn [fst]. rewrite Hnew.
  unfold assign, now, on_snd, fresh_info, retry_limit, CircuitBreaker.constructor.
  destruct (Date_now rt e) as [ms e1]. cbn [fst snd].
  destruct (Date_now rt e1) as [ms1 e2]. reflexivity.
Qed.

Lemma registerAgent_known (agent other : Agent) (messageTypes : list string)
    (o : t) (e : Env) :
  agents o !! getName agent = Some other ->
  registerAgent rt agent messageTypes (o, e) =
    (Thrown (AgentError (Some VALIDATION)
               ("Agent with name " +:+ getName agent +:+ " is already registered")),
     (o, e)).
Proof.
  intros Hold. unfold registerAgent, mbind, M_bind, this. cbn [fst]. rewrite Hold.
  reflexivity.
Qed.

Lemma unregisterAgent_known (agentName : string) (agent : Agent) (o : t) (e : Env) :
  agents o !! agentName = Some agent ->
  unregisterAgent agentName (o, e) =
    (Returned tt,
     (mk (config o) (delete agentName (agents o)) (delete agentName (agentStates o))
         (messageQueue o), e)).
Proof.
  intros Hold. unfold unregisterAgent, mbind, M_bind, this. cbn [fst]. rewrite Hold.
  reflexivity.
Qed.

Lemma unregisterAgent_unknown (agentName : string) (o : t) (e : Env) :
  agents o !! agentName = None ->
  unregisterAgent agentName (o, e) =
    (Thrown (AgentError (Some VALIDATION) ("Agent " +:+ agentName +:+ " is not registered")),
     (o, e)).
Proof.
  intros Hnew. unfold unregisterAgent, mbind, M_bind, this. cbn [fst]. rewrite Hnew.
  reflexivity.
Qed.

(** Registering an agent under a name that is free and unregistering it
    again is a round trip: the agent is entered as IDLE with no errors,
    a CLOSED breaker without failures and empty metrics; a second
    registration under the name is refused with a VALIDATION error and
    changes nothing; and [unregisterAgent] gives back the orchestrator
    as it was before the registration. *)
Theorem register_unregister_round_trip (agent : Agent) (messageTypes : list string)
    (o : t) (e : Env) :
  in_step o ->
  agents o !! getName agent = None ->
  let registered := snd (registerAgent rt agent messageTypes (o, e)) in
  fst (registerAgent rt agent messageTypes (o, e)) = Returned tt /\
  getAgent (getName agent) (fst registered) = Some agent /\
  (exists stateInfo,
     agentStates (fst registered) !! getName agent = Some stateInfo /\
     state stateInfo = IDLE /\ errorCount stateInfo = 0 /\
     CircuitBreaker.getState (circuitBreaker stateInfo) = CircuitBreaker.CLOSED /\
     CircuitBreaker.getFailureCount (circuitBreaker stateInfo) = 0 /\
     healthMetrics stateInfo = HealthMetrics.constructor) /\
  (exists type message,
     registerAgent rt agent messageTypes registered =
       (Thrown (AgentError (Some type) message), registered) /\ type = VALIDATION) /\
  unregisterAgent (getName agent) registered = (Returned tt, (o, snd registered)).
Proof.
  intros Hstep Hnew. cbn zeta. rewrite (registerAgent_new agent messageTypes o e Hnew).
  cbn [fst snd]. split; [reflexivity|]. split.
  { unfold getAgent. cbn [agents]. apply lookup_insert_eq. }
  split.
  { exists (fresh_info o e). cbn [agentStates]. split; [apply lookup_insert_eq|].
    unfold fresh_info, CircuitBreaker.constructor.
    destruct (Date_now rt (snd (Date_now rt e))). cbn. auto. }
  split.
  { eexists _, _. split; [|reflexivity].
    apply (registerAgent_known agent agent). cbn [agents]. apply lookup_insert_eq. }
  rewrite (unregisterAgent_known (getName agent) agent)
    by (cbn [agents]; apply lookup_insert_eq).
  cbn [config agents agentStates messageQueue].
  rewrite !delete_insert_eq. rewrite !delete_id; [|apply Hstep; exact Hnew|exact Hnew].
  destruct o. reflexivity.
Qed.

(** [registerAgent] and [unregisterAgent] keep the two maps in step,
    whether they return or throw; an agent that is unknown cannot be
    unregistered, and the attempt changes nothing. *)
Theorem registration_keeps_maps_in_step (agent : Agent) (messageTypes : list string)
    (agentName : string) (o : t) (e : Env) :
  in_step o ->
  in_step (fst (snd (registerAgent rt agent messageTypes (o, e)))) /\
  in_step (fst (snd (unregisterAgent agentName (o, e)))) /\
  (agents o !! agentName = None ->
   exists type message,
     unregisterAgent agentName (o, e) = (Thrown (AgentError (Some type) message), (o, e)) /\
     type = VALIDATION).
Proof.
  intros Hstep. split; [|split].
  - destruct (agents o !! getName agent) as [other|] eqn:Hlook.
    + rewrite (registerAgent_known agent other messageTypes o e Hlook). exact Hstep.
    + rewrite (registerAgent_new agent messageTypes o e Hlook). cbn [fst snd].
      intros n. cbn [agents agentStates].
      destruct (decide (n = getName agent)) as [->|Hne].
      * rewrite !lookup_insert_eq. split; discriminate.
      * rewrite !lookup_insert_ne by congruence. apply Hstep.
  - destruct (agents o !! agentName) as [other|] eqn:Hlook.
    + rewrite (unregisterAgent_known agentName other o e Hlook). cbn [fst snd].
      intros n. cbn [agents agentStates].
      destruct (decide (n = agentName)) as [->|Hne].
      * rewrite !lookup_delete_eq. split; reflexivity.
      * rewrite !lookup_delete_ne by congruence. apply Hstep.
    + rewrite (unregisterAgent_unknown agentName o e Hlook). exact Hstep.
  - intros Hlook. rewrite (unregisterAgent_unknown agentName o e Hlook).
    eexists _, _. split; reflexivity.
Qed.

(** [getAgentHealth] answers for a registered agent without changing
    the orchestrator, after two readings of the clock; its reply agrees
    with [getAgentState] and [isAgentHealthy], an agent reported healthy
    is neither in ERROR nor behind an OPEN breaker and was active less
    than [timeoutMs] before the first reading, and the metrics are
    those of the agent's recorder.  For a name without an entry it
    throws the VALIDATION error of [getAgentState]. *)
Theorem getAgentHealth_is_consistent (agentName : string) (o : t) (e : Env) :
  (forall stateInfo,
     agentStates o !! agentName = Some stateInfo ->
     exists result,
       getAgentHealth rt agentName (o, e) =
         (Returned result, (o, snd (Date_now rt (snd (Date_now rt e))))) /\
       fst (getAgentState agentName (o, e)) = Returned (status result) /\
       fst (isAgentHealthy rt agentName (o, e)) = Returned (healthy result) /\
       lastCheck result = fst (Date_now rt (snd (Date_now rt e))) /\
       circuitState result = CircuitBreaker.getState (circuitBreaker stateInfo) /\
       metrics result = HealthMetrics.getMetrics (healthMetrics stateInfo) /\
       (healthy result = true ->
        status result <> ERROR /\ circuitState result <> CircuitBreaker.OPEN /\
        fst (Date_now rt e) - lastActiveTime stateInfo <
          default 30000 (timeoutMs (base (config o))))) /\
  (agentStates o !! agentName = None ->
   let refused :=
     AgentError (Some VALIDATION) ("Agent " +:+ agentName +:+ " is not registered") in
   getAgentHealth rt agentName (o, e) = (Thrown refused, (o, e)) /\
   getAgentState agentName (o, e) = (Thrown refused, (o, e))).
Proof.
  split.
  - intros stateInfo Hi.
    assert (Hrun : getAgentHealth rt agentName (o, e) =
      (Returned (mkHealthCheck (healthy_at (fst (Date_now rt e)) o stateInfo)
                   (state stateInfo)
                   (CircuitBreaker.getState (circuitBreaker stateInfo))
                   (fst (Date_now rt (snd (Date_now rt e))))
                   (HealthMetrics.getMetrics (healthMetrics stateInfo))),
       (o, snd (Date_now rt (snd (Date_now rt e)))))).
    { unfold getAgentHealth. unfold mbind at 1, M_bind at 1, this at 1. cbn [fst].
      rewrite Hi. unfold mbind at 1, M_bind at 1.
      rewrite (isAgentHealthy_run rt agentName stateInfo o e Hi).
      unfold mbind, M_bind, now, on_snd.
      destruct (Date_now rt (snd (Date_now rt e))). reflexivity. }
    eexists. split; [exact Hrun|]. cbn [status healthy lastCheck circuitState metrics].
    split.
    { unfold getAgentState, mbind, M_bind, this. cbn [fst]. rewrite Hi. reflexivity. }
    split.
    { rewrite (isAgentHealthy_run rt agentName stateInfo o e Hi). reflexivity. }
    split; [reflexivity|]. split; [reflexivity|]. split; [reflexivity|].
    unfold healthy_at. intros Hh.
    apply andb_prop in Hh as [Hh Herr]. apply andb_prop in Hh as [Hopen Hact].
    apply Z.ltb_lt in Hact. split; [|split; [|exact Hact]].
    + intros Hs. rewrite Hs in Herr. discriminate.
    + intros Hs. rewrite Hs in Hopen. discriminate.
  - intros Hnone. cbn zeta. split.
    + unfold getAgentHealth, mbind, M_bind, this. cbn [fst]. rewrite Hnone. reflexivity.
    + unfold getAgentState, mbind, M_bind, this. cbn [fst]. rewrite Hnone. reflexivity.
Qed.

(** *** The drain loop *)

Local Abbreviation items := PriorityMessageQueueMore.items.

Lemma size_items (q : PriorityMessageQueue.t) :
  PriorityMessageQueue.size q = Z.of_nat (length (items q)).
Proof.
  unfold PriorityMessageQueue.size, PriorityMessageQueueMore.items.
  rewrite !length_app. lia.
Qed.

Lemma queue_dequeue_run (o : t) (e : Env) :
  queue_dequeue (o, e) =
    (Returned (fst (PriorityMessageQueue.dequeue (messageQueue o))),
     (set_messageQueue (snd (PriorityMessageQueue.dequeue (messageQueue o))) o, e)).
Proof.
  unfold queue_dequeue. destruct (PriorityMessageQueue.dequeue (messageQueue o)).
  reflexivity.
Qed.

(** One pass of the loop with [x] at the head of the queue. *)
Lemma drain_pass (passes : nat) (x : QueueItem) (rest : list QueueItem)
    (o : t) (e : Env) :
  items (messageQueue o) = x :: rest ->
  let q1 := snd (PriorityMessageQueue.dequeue (messageQueue o)) in
  items q1 = rest /\
  PriorityMessageQueue.isProcessing q1 = PriorityMessageQueue.isProcessing (messageQueue o) /\
  drain rt (S passes) (o, e) =
    match dispatch rt (message x) (set_messageQueue q1 o, e) with
    | (Returned _, s') => drain rt passes s'
    | (Thrown error, s') =>
        (Thrown error, snd (set_queue_isProcessing false s'))
    end.
Proof.
  intros Hitems. cbn zeta.
  destruct (PriorityMessageQueueMore.dequeue_items (messageQueue o)) as (D1 & D2 & D3).
  rewrite Hitems in D1, D2. cbn [tl] in D2.
  split; [exact D2|]. split; [exact D3|].
  cbn [drain]. unfold mbind at 1, M_bind at 1, this at 1. cbn [fst].
  assert (E : (PriorityMessageQueue.size (messageQueue o) >? 0) = true).
  { apply Z.gtb_lt. rewrite size_items, Hitems. cbn [length]. lia. }
  rewrite E. unfold mbind at 1, M_bind at 1. rewrite queue_dequeue_run.
  assert (Hfst : fst (PriorityMessageQueue.dequeue (messageQueue o)) = Some (message x))
    by (rewrite D1; reflexivity).
  rewrite Hfst.
  unfold mbind at 1, M_bind at 1, try_catch at 1.
  destruct (dispatch rt (message x) _) as [[[]|error] s']; [reflexivity|].
  unfold mbind, M_bind, set_queue_isProcessing, assign. destruct s'. reflexivity.
Qed.

Lemma drain_nothing_left (passes : nat) (o : t) (e : Env) :
  items (messageQueue o) = [] ->
  drain rt passes (o, e) =
    (Returned Finished,
     (set_messageQueue (PriorityMessageQueue.mk [] [] [] false) o, e)).
Proof.
  intros Hitems.
  assert (E : (PriorityMessageQueue.size (messageQueue o) >? 0) = false).
  { rewrite Z.gtb_ltb. apply Z.ltb_ge. rewrite size_items, Hitems. cbn [length]. lia. }
  unfold PriorityMessageQueueMore.items in Hitems.
  apply app_eq_nil in Hitems as [Hh Hrest]. apply app_eq_nil in Hrest as [Hn Hl].
  destruct passes; cbn [drain]; unfold mbind at 1, M_bind at 1, this at 1; cbn [fst];
    rewrite E; unfold mbind, M_bind, set_queue_isProcessing, assign,
      PriorityMessageQueue.set_isProcessing; rewrite Hh, Hn, Hl; reflexivity.
Qed.

(** What the console shows after one warning for each of [ms]. *)
Definition warned (ms : list BaseAgentMessage) (e : Env) : Env :=
  foldl (fun e m =>
           console_warn rt
             ("Target agent " +:+ targetAgent m +:+ " not found, skipping message") e)
    e ms.

Lemma drain_unknown (passes : nat) (o : t) (e : Env) :
  Forall (fun x => agents o !! targetAgent (message x) = None) (items (messageQueue o)) ->
  (length (items (messageQueue o)) <= passes)%nat ->
  drain rt passes (o, e) =
    (Returned Finished,
     (set_messageQueue (PriorityMessageQueue.mk [] [] [] false) o,
      warned (message <$> items (messageQueue o)) e)).
Proof.
  revert o e. induction passes as [|passes IH]; intros o e Hall Hlen.
  - destruct (items (messageQueue o)) as [|x rest] eqn:Hitems; [|cbn in Hlen; lia].
    rewrite (drain_nothing_left 0 o e Hitems). reflexivity.
  - destruct (items (messageQueue o)) as [|x rest] eqn:Hitems.
    + rewrite (drain_nothing_left (S passes) o e Hitems). reflexivity.
    + destruct (drain_pass passes x rest o e Hitems) as (Hrest & _ & ->).
      apply Forall_cons in Hall as [Hx Hall].
      assert (Hd : dispatch rt (message x)
                     (set_messageQueue
                        (snd (PriorityMessageQueue.dequeue (messageQueue o))) o, e) =
                   (Returned tt,
                    (set_messageQueue
                       (snd (PriorityMessageQueue.dequeue (messageQueue o))) o,
                     console_warn rt
                       ("Target agent " +:+ targetAgent (message x)
                          +:+ " not found, skipping message") e))).
      { unfold dispatch, mbind, M_bind, this. cbn [fst agents set_messageQueue].
        rewrite Hx. reflexivity. }
      rewrite Hd, IH.
      * cbn [messageQueue set_messageQueue config agents agentStates].
        rewrite Hrest. reflexivity.
      * cbn [messageQueue set_messageQueue agents]. rewrite Hrest. exact Hall.
      * cbn [messageQueue set_messageQueue]. rewrite Hrest. cbn in Hlen. lia.
Qed.

(** Messages for agents that are not registered are thrown away, all of
    them: [processQueuedMessages], started on an idle queue that holds
    only such messages and given as many passes as there are messages,
    runs to its end without throwing, leaves the queue empty and not
    processing, touches neither map, and writes one warning per message
    in the order the tiers are served. *)
Theorem unknown_targets_are_skipped (passes : nat) (o : t) (e : Env) :
  PriorityMessageQueue.isProcessing (messageQueue o) = false ->
  Forall (fun x => agents o !! targetAgent (message x) = None) (items (messageQueue o)) ->
  (length (items (messageQueue o)) <= passes)%nat ->
  processQueuedMessages rt passes (o, e) =
    (Returned Finished,
     (set_messageQueue PriorityMessageQueue.constructor o,
      warned (message <$> items (messageQueue o)) e)).
Proof.
  intros Hidle Hall Hlen.
  unfold processQueuedMessages. unfold mbind at 1, M_bind at 1, this at 1. cbn [fst].
  rewrite Hidle. unfold mbind at 1, M_bind at 1, set_queue_isProcessing, assign.
  rewrite drain_unknown; [reflexivity|exact Hall|exact Hlen].
Qed.

(** *** An agent that stays unhealthy *)

(** The environment after [k] readings of the clock. *)
Fixpoint clock_after (k : nat) (e : Env) : Env :=
  match k with
  | O => e
  | S k' => clock_after k' (snd (Date_now rt e))
  end.

(** Registered, with fewer errors counted than [maxRetries], and found
    unhealthy at every reading of the clock from [e] on. *)
Definition stays_unhealthy (o : t) (e : Env) (agentName : string) : Prop :=
  exists agent stateInfo,
    agents o !! agentName = Some agent /\
    agentStates o !! agentName = Some stateInfo /\
    errorCount stateInfo < retry_limit o /\
    forall k, healthy_at (fst (Date_now rt (clock_after k e))) o stateInfo = false.

(** Two ways to stay unhealthy that do not depend on the clock: the
    agent is in ERROR, or its breaker is OPEN. *)
Definition stuck (o : t) (agentName : string) : Prop :=
  exists agent stateInfo,
    agents o !! agentName = Some agent /\
    agentStates o !! agentName = Some stateInfo /\
    (state stateInfo = ERROR \/
     CircuitBreaker.getState (circuitBreaker stateInfo) = CircuitBreaker.OPEN) /\
    errorCount stateInfo < retry_limit o.

(** A third, on a clock that does not run backwards: the agent has not
    been active for [timeoutMs]. *)
Definition idle_too_long (o : t) (e : Env) (agentName : string) : Prop :=
  exists agent stateInfo,
    agents o !! agentName = Some agent /\
    agentStates o !! agentName = Some stateInfo /\
    errorCount stateInfo < retry_limit o /\
    forall k,
      lastActiveTime stateInfo + default 30000 (timeoutMs (base (config o))) <=
        fst (Date_now rt (clock_after k e)).

Lemma stuck_unhealthy (currentTime : Z) (o : t) (stateInfo : AgentStateInfo) :
  state stateInfo = ERROR \/
  CircuitBreaker.getState (circuitBreaker stateInfo) = CircuitBreaker.OPEN ->
  healthy_at currentTime o stateInfo = false.
Proof.
  unfold healthy_at. intros [-> | ->]; cbn.
  - apply andb_false_r.
  - reflexivity.
Qed.

Lemma stuck_stays_unhealthy (o : t) (e : Env) (agentName : string) :
  stuck o agentName -> stays_unhealthy o e agentName.
Proof.
  intros (agent & stateInfo & Ha & Hi & Hsick & Hcount).
  exists agent, stateInfo. split; [exact Ha|]. split; [exact Hi|]. split; [exact Hcount|].
  intros k. apply stuck_unhealthy. exact Hsick.
Qed.

Lemma idle_stays_unhealthy (o : t) (e : Env) (agentName : string) :
  idle_too_long o e agentName -> stays_unhealthy o e agentName.
Proof.
  intros (agent & stateInfo & Ha & Hi & Hcount & Hlate).
  exists agent, stateInfo. split; [exact Ha|]. split; [exact Hi|]. split; [exact Hcount|].
  intros k. unfold healthy_at.
  assert (E : (fst (Date_now rt (clock_after k e)) - lastActiveTime stateInfo <?
               default 30000 (timeoutMs (base (config o)))) = false).
  { apply Z.ltb_ge. specialize (Hlate k). lia. }
  rewrite E. rewrite andb_false_r. reflexivity.
Qed.

Lemma clock_after_add (j k : nat) (e : Env) :
  clock_after k (clock_after j e) = clock_after (j + k) e.
Proof. revert e. induction j as [|j IH]; intros e; cbn; [reflexivity|apply IH]. Qed.

Lemma drain_stuck (passes : nat) (o : t) (e : Env) :
  Forall (fun x => stays_unhealthy o e (targetAgent (message x))) (items (messageQueue o)) ->
  items (messageQueue o) <> [] ->
  exists q',
    drain rt passes (o, e) =
      (Returned Suspended, (set_messageQueue q' o, clock_after (2 * passes) e)) /\
    Permutation (message <$> items q') (message <$> items (messageQueue o)) /\
    PriorityMessageQueue.isProcessing q' =
      PriorityMessageQueue.isProcessing (messageQueue o).
Proof.
  revert o e. induction passes as [|passes IH]; intros o e Hall Hne.
  - exists (messageQueue o). split; [|split; reflexivity].
    rewrite drain_suspends.
    + destruct o. reflexivity.
    + rewrite size_items. destruct (items (messageQueue o)); [congruence|cbn; lia].
  - destruct (items (messageQueue o)) as [|x rest] eqn:Hitems; [congruence|].
    destruct (drain_pass passes x rest o e Hitems) as (Hrest & Hflag & ->).
    pose proof Hall as Hall0.
    apply Forall_cons in Hall as [(agent & stateInfo & Ha & Hi & Hcount & Hsick) Hall].
    set (q1 := snd (PriorityMessageQueue.dequeue (messageQueue o))) in *.
    rewrite (dispatch_unhealthy rt (message x) agent stateInfo (set_messageQueue q1 o) e
               Ha Hi (Hsick 0%nat)).
    cbn zeta. change (retry_limit (set_messageQueue q1 o)) with (retry_limit o).
    assert (Elt : (errorCount stateInfo <? retry_limit o) = true) by (apply Z.ltb_lt; lia).
    rewrite Elt.
    set (ms := fst (Date_now rt (snd (Date_now rt e)))).
    change (snd (Date_now rt (snd (Date_now rt e)))) with (clock_after 2 e).
    pose proof (PriorityMessageQueueMore.enqueue_at_items ms (message x) q1) as Hperm.
    rewrite Hrest in Hperm.
    assert (Hlater : forall agentName,
               stays_unhealthy o e agentName ->
               stays_unhealthy (with_enqueued ms (message x) (set_messageQueue q1 o))
                 (clock_after 2 e) agentName).
    { intros agentName (agent' & info' & Ha' & Hi' & Hcount' & Hsick').
      exists agent', info'. split; [exact Ha'|]. split; [exact Hi'|].
      split; [exact Hcount'|]. intros k. rewrite clock_after_add. apply Hsick'. }
    destruct (IH (with_enqueued ms (message x) (set_messageQueue q1 o)) (clock_after 2 e))
      as (q' & Hrun & Hp & Hf).
    + cbn [with_enqueued messageQueue set_messageQueue].
      eapply Permutation_Forall; [symmetry; exact Hperm|].
      apply Forall_cons. split.
      * apply Hlater. exists agent, stateInfo. auto.
      * eapply List.Forall_impl; [|exact Hall]. intros y Hy. apply Hlater, Hy.
    + cbn [with_enqueued messageQueue set_messageQueue]. intros Hnil.
      rewrite Hnil in Hperm. apply Permutation_nil in Hperm. discriminate.
    + exists q'. split; [|split].
      * rewrite Hrun. rewrite clock_after_add. do 3 f_equal. lia.
      * rewrite Hp. cbn [with_enqueued messageQueue set_messageQueue].
        rewrite Hperm. cbn [fmap list_fmap message]. reflexivity.
      * rewrite Hf. cbn [with_enqueued messageQueue set_messageQueue].
        rewrite PriorityMessageQueueProps.enqueue_at_isProcessing. exact Hflag.
Qed.

(** The drain loop does not get past an agent that stays unhealthy.
    If every waiting message is for a registered agent whose error
    count is below [maxRetries] and that [isAgentHealthy] rejects at
    every reading of the clock (it is in ERROR, its breaker is OPEN, or
    it has not been active for [timeoutMs] on a clock that does not run
    backwards), then however many passes the loop makes it is still at
    work: each pass reads the clock twice and puts the message it took
    back on the queue; no message leaves, neither map changes, and so
    nothing raises the error count that would let a message be dropped
    or marks the agent as active. *)
Theorem unhealthy_agent_blocks_the_loop (passes : nat) (o : t) (e : Env) :
  Forall (fun x => stays_unhealthy o e (targetAgent (message x))) (items (messageQueue o)) ->
  items (messageQueue o) <> [] ->
  let run := drain rt passes (o, e) in
  let o' := fst (snd run) in
  fst run = Returned Suspended /\
  snd (snd run) = clock_after (2 * passes) e /\
  Permutation (message <$> items (messageQueue o'))
    (message <$> items (messageQueue o)) /\
  PriorityMessageQueue.size (messageQueue o') = PriorityMessageQueue.size (messageQueue o) /\
  agents o' = agents o /\ agentStates o' = agentStates o /\
  Forall (fun x => stays_unhealthy o' (snd (snd run)) (targetAgent (message x)))
    (items (messageQueue o')).
Proof.
  intros Hall Hne. cbn zeta.
  destruct (drain_stuck passes o e Hall Hne) as (q' & -> & Hperm & Hflag).
  cbn [fst snd messageQueue set_messageQueue agents agentStates].
  split; [reflexivity|]. split; [reflexivity|]. split; [exact Hperm|]. split.
  { rewrite !size_items. f_equal.
    apply Permutation_length in Hperm. rewrite !length_fmap in Hperm. exact Hperm. }
  split; [reflexivity|]. split; [reflexivity|].
  apply Forall_forall. intros x Hx.
  assert (Hin : message x ∈ message <$> items (messageQueue o)).
  { rewrite <- Hperm. apply list_elem_of_fmap_2. exact Hx. }
  apply list_elem_of_fmap_1 in Hin as (y & Hy & Hin).
  rewrite Hy.
  destruct (proj1 (Forall_forall _ _) Hall y Hin)
    as (agent' & info' & Ha' & Hi' & Hcount' & Hsick').
  exists agent', info'. split; [exact Ha'|]. split; [exact Hi'|].
  split; [exact Hcount'|]. intros k. rewrite clock_after_add. apply Hsick'.
Qed.

(** *** Routing one message *)

(** The orchestrator with [i] as the entry of [agentName]. *)
Definition with_info (agentName : string) (i : AgentStateInfo) (o : t) : t :=
  set_agentStates (<[agentName := i]> (agentStates o)) o.

Lemma with_info_id (agentName : string) (i : AgentStateInfo) (o : t) :
  agentStates o !! agentName = Some i -> with_info agentName i o = o.
Proof.
  intros H. unfold with_info, set_agentStates. rewrite insert_id by exact H.
  destruct o. reflexivity.
Qed.

Lemma update_info_run (agentName : string) (f : AgentStateInfo -> AgentStateInfo)
    (i : AgentStateInfo) (o : t) (e : Env) :
  update_info agentName f (with_info agentName i o, e) =
    (Returned tt, (with_info agentName (f i) o, e)).
Proof.
  unfold update_info, assign, with_info, set_agentStates.
  cbn [config agents agentStates messageQueue].
  rewrite alter_insert_eq. reflexivity.
Qed.

Lemma now_run (o : t) (e : Env) :
  now rt (o, e) = (Returned (fst (Date_now rt e)), (o, snd (Date_now rt e))).
Proof. unfold now, on_snd. destruct (Date_now rt e). reflexivity. Qed.

Lemma record_run (agentName : string) (method : Q -> M (HealthMetrics.t * Env) unit)
    (processingTime : Z) (i : AgentStateInfo) (o : t) (e : Env) :
  record agentName method processingTime (with_info agentName i o, e) =
    (Returned tt,
     (with_info agentName
        (set_healthMetrics
           (fst (snd (method (inject_Z processingTime) (healthMetrics i, e)))) i) o,
      snd (snd (method (inject_Z processingTime) (healthMetrics i, e))))).
Proof.
  unfold record. cbn [with_info set_agentStates agentStates].
  rewrite lookup_insert_eq.
  destruct (method (inject_Z processingTime) (healthMetrics i, e)) as [r [hm' e']].
  cbn [fst snd]. apply update_info_run.
Qed.

(** The operation [routeMessage] hands to the breaker. *)
Definition routed (agent : Agent) (m : BaseAgentMessage) (startTime : Z) : M (t * Env) unit :=
  update_info (targetAgent m) (set_state WORKING);;
  ms ← now rt;
  update_info (targetAgent m) (set_lastActiveTime ms);;
  on_snd (worker_processMessage rt agent m);;
  update_info (targetAgent m) (set_state IDLE);;
  update_info (targetAgent m) (set_errorCount 0);;
  finished ← now rt;
  record (targetAgent m) (HealthMetrics.recordSuccess (Date_now rt)) (finished - startTime).

(** The [catch] block of [routeMessage]. *)
Definition route_failed (m : BaseAgentMessage) (startTime : Z) (error : JsError)
    : M (t * Env) unit :=
  update_info (targetAgent m) (set_state ERROR);;
  update_info (targetAgent m) (fun i => set_errorCount (errorCount i + 1) i);;
  finished ← now rt;
  record (targetAgent m) (HealthMetrics.recordError (Date_now rt)) (finished - startTime);;
  throw (new_AgentError3 (AgentErrorType_member "OPERATION")
           ("Message processing failed for agent " +:+ targetAgent m) error).

Lemma routeMessage_run (m : BaseAgentMessage) (agent : Agent) (stateInfo : AgentStateInfo)
    (o : t) (e : Env) :
  agents o !! targetAgent m = Some agent ->
  agentStates o !! targetAgent m = Some stateInfo ->
  routeMessage rt m (o, e) =
    try_catch
      (breaker_execute rt (targetAgent m) (circuitBreaker stateInfo)
         (routed agent m (fst (Date_now rt e)))
         ("processing message for agent " +:+ targetAgent m))
      (route_failed m (fst (Date_now rt e)))
      (o, snd (Date_now rt e)).
Proof.
  intros Ha Hi. unfold routeMessage. unfold mbind at 1, M_bind at 1, this at 1.
  cbn [fst]. rewrite Ha, Hi. unfold mbind at 1, M_bind at 1. rewrite now_run.
  reflexivity.
Qed.

(** What a recorder counts. *)
Definition counted (failed : bool) (before after : HealthMetrics.t) : Prop :=
  HealthMetrics.messageCount after = HealthMetrics.messageCount before + 1 /\
  HealthMetrics.errorCount after =
    HealthMetrics.errorCount before + (if failed then 1 else 0).

Lemma recordSuccess_counted (processingTime : Q) (hm : HealthMetrics.t) (e : Env) :
  counted false hm
    (fst (snd (HealthMetrics.recordSuccess (Date_now rt) processingTime (hm, e)))).
Proof.
  unfold HealthMetrics.recordSuccess, counted. destruct (Date_now rt e). cbn. lia.
Qed.

Lemma recordError_counted (processingTime : Q) (hm : HealthMetrics.t) (e : Env) :
  counted true hm
    (fst (snd (HealthMetrics.recordError (Date_now rt) processingTime (hm, e)))).
Proof.
  unfold HealthMetrics.recordError, counted. destruct (Date_now rt e). cbn. lia.
Qed.

(** Workers that answer the same way whenever they are called. *)
Definition always_returns (agent : Agent) (m : BaseAgentMessage) : Prop :=
  forall e, fst (worker_processMessage rt agent m e) = Returned tt.

Definition always_throws (agent : Agent) (m : BaseAgentMessage) : Prop :=
  forall e, exists error, fst (worker_processMessage rt agent m e) = Thrown error.

Lemma routed_outcome (agent : Agent) (m : BaseAgentMessage) (startTime : Z)
    (i : AgentStateInfo) (o : t) (e : Env) :
  exists r i' e',
    routed agent m startTime (with_info (targetAgent m) i o, e) =
      (r, (with_info (targetAgent m) i' o, e')) /\
    circuitBreaker i' = circuitBreaker i /\
    (r = Returned tt /\ state i' = IDLE /\ errorCount i' = 0 /\
     counted false (healthMetrics i) (healthMetrics i') \/
     (exists error, r = Thrown error) /\ errorCount i' = errorCount i /\
     healthMetrics i' = healthMetrics i) /\
    (always_returns agent m -> r = Returned tt) /\
    (always_throws agent m -> exists error, r = Thrown error).
Proof.
  unfold routed.
  unfold mbind at 1, M_bind at 1. rewrite update_info_run.
  unfold mbind at 1, M_bind at 1. rewrite now_run.
  unfold mbind at 1, M_bind at 1. rewrite update_info_run.
  unfold mbind at 1, M_bind at 1. unfold on_snd at 1.
  destruct (worker_processMessage rt agent m (snd (Date_now rt e)))
    as [[[]|error] e2] eqn:Hw.
  - unfold mbind at 1, M_bind at 1. rewrite update_info_run.
    unfold mbind at 1, M_bind at 1. rewrite update_info_run.
    unfold mbind at 1, M_bind at 1. rewrite now_run. rewrite record_run.
    eexists _, _, _. split; [reflexivity|]. split; [reflexivity|]. split; [|split].
    + left. split; [reflexivity|]. split; [reflexivity|]. split; [reflexivity|].
      cbn [healthMetrics set_healthMetrics set_errorCount set_state set_lastActiveTime].
      apply recordSuccess_counted.
    + reflexivity.
    + intros Hfail. destruct (Hfail (snd (Date_now rt e))) as [error He].
      rewrite Hw in He. discriminate.
  - eexists _, _, _. split; [reflexivity|]. split; [reflexivity|]. split; [|split].
    + right. split; [eauto|]. split; reflexivity.
    + intros Hok. specialize (Hok (snd (Date_now rt e))). rewrite Hw in Hok.
      discriminate.
    + eauto.
Qed.

Lemma route_failed_outcome (m : BaseAgentMessage) (startTime : Z) (error : JsError)
    (i : AgentStateInfo) (o : t) (e : Env) :
  exists i' e',
    route_failed m startTime error (with_info (targetAgent m) i o, e) =
      (Thrown (AgentError None ("Message processing failed for agent " +:+ targetAgent m)),
       (with_info (targetAgent m) i' o, e')) /\
    circuitBreaker i' = circuitBreaker i /\
    state i' = ERROR /\ errorCount i' = errorCount i + 1 /\
    counted true (healthMetrics i) (healthMetrics i').
Proof.
  unfold route_failed.
  unfold mbind at 1, M_bind at 1. rewrite update_info_run.
  unfold mbind at 1, M_bind at 1. rewrite update_info_run.
  unfold mbind at 1, M_bind at 1. rewrite now_run.
  unfold mbind at 1, M_bind at 1. rewrite record_run.
  eexists _, _. split; [reflexivity|]. split; [reflexivity|].
  split; [reflexivity|]. split; [reflexivity|].
  cbn [healthMetrics set_healthMetrics set_errorCount set_state].
  apply recordError_counted.
Qed.

(** The breaker's own steps leave the orchestrator alone. *)
Lemma transitionTo_St (newState : CircuitBreaker.CircuitState) (cb : CircuitBreaker.t)
    (o : t) (e : Env) :
  exists cb' e',
    CircuitBreaker.transitionTo (Date_now_St rt) newState (cb, (o, e)) =
      (Returned tt, (cb', (o, e'))) /\
    CircuitBreaker.state cb' = newState.
Proof.
  rewrite !CircuitBreakerProps.transitionTo_run. unfold Date_now_St. cbn [fst snd].
  destruct (Date_now rt e) as [ms e1]. eexists _, _. split; reflexivity.
Qed.

Lemma checkState_St (cb : CircuitBreaker.t) (o : t) (e : Env) :
  exists r cb' e',
    CircuitBreaker.checkState (Date_now_St rt) (cb, (o, e)) = (r, (cb', (o, e'))) /\
    (r = Returned tt /\ CircuitBreaker.state cb' <> CircuitBreaker.OPEN \/
     cb' = cb /\ CircuitBreaker.state cb = CircuitBreaker.OPEN /\
     exists error, r = Thrown error).
Proof.
  rewrite CircuitBreakerProps.checkState_run. cbn zeta.
  assert (Hs : snd (Date_now_St rt (o, e)) = (o, snd (Date_now rt e))).
  { unfold Date_now_St. cbn [fst snd]. destruct (Date_now rt e). reflexivity. }
  rewrite Hs.
  destruct (CircuitBreaker.state cb) eqn:Hst.
  - eexists _, _, _. split; [reflexivity|]. left. split; [reflexivity|congruence].
  - destruct (num_ge _ _).
    + destruct (transitionTo_St CircuitBreaker.HALF_OPEN cb o (snd (Date_now rt e)))
        as (cb' & e' & -> & Hst').
      eexists _, _, _. split; [reflexivity|]. left. split; [reflexivity|congruence].
    + eexists _, _, _. split; [reflexivity|]. right. split; [reflexivity|]. eauto.
  - destruct (num_ge _ _).
    + destruct (transitionTo_St CircuitBreaker.CLOSED cb o (snd (Date_now rt e)))
        as (cb' & e' & -> & Hst').
      eexists _, _, _. split; [reflexivity|]. left. split; [reflexivity|congruence].
    + eexists _, _, _. split; [reflexivity|]. left. split; [reflexivity|congruence].
Qed.

Lemma onSuccess_St (cb : CircuitBreaker.t) (o : t) (e : Env) :
  exists cb' e',
    CircuitBreaker.onSuccess (Date_now_St rt) (cb, (o, e)) = (Returned tt, (cb', (o, e'))) /\
    (CircuitBreaker.state cb <> CircuitBreaker.OPEN ->
     CircuitBreaker.state cb' = CircuitBreaker.CLOSED) /\
    CircuitBreaker.failures cb' = 0.
Proof.
  rewrite CircuitBreakerProps.onSuccess_run.
  assert (Hs : snd (Date_now_St rt (o, e)) = (o, snd (Date_now rt e))).
  { unfold Date_now_St. cbn [fst snd]. destruct (Date_now rt e). reflexivity. }
  destruct (CircuitBreaker.state cb) eqn:Hst; [| |rewrite Hs];
    eexists _, _; (split; [reflexivity|]); cbn; split; congruence.
Qed.

Lemma onFailure_St (cb : CircuitBreaker.t) (o : t) (e : Env) :
  exists cb' e',
    CircuitBreaker.onFailure (Date_now_St rt) (cb, (o, e)) = (Returned tt, (cb', (o, e'))).
Proof.
  rewrite CircuitBreakerProps.onFailure_run. cbn zeta.
  assert (Hs : snd (Date_now_St rt (o, e)) = (o, snd (Date_now rt e))).
  { unfold Date_now_St. cbn [fst snd]. destruct (Date_now rt e). reflexivity. }
  rewrite Hs. destruct (num_ge _ _).
  - match goal with
    | |- context [CircuitBreaker.transitionTo _ ?st (?c, (o, ?e1))] =>
        destruct (transitionTo_St st c o e1) as (cb' & e' & -> & _)
    end.
    eauto.
  - eauto.
Qed.

(** What one call of [routeMessage] does to the entry of its target. *)
Definition route_effect (failed : bool) (before after : AgentStateInfo) : Prop :=
  counted failed (healthMetrics before) (healthMetrics after) /\
  if failed
  then state after = ERROR /\ errorCount after = errorCount before + 1
  else state after = IDLE /\ errorCount after = 0 /\
       CircuitBreaker.getState (circuitBreaker after) = CircuitBreaker.CLOSED /\
       CircuitBreaker.getFailureCount (circuitBreaker after) = 0.

Definition route_error (m : BaseAgentMessage) : JsError :=
  AgentError None ("Message processing failed for agent " +:+ targetAgent m).

Lemma breaker_execute_routed (agent : Agent) (m : BaseAgentMessage) (startTime : Z)
    (context : string) (i : AgentStateInfo) (o : t) (e : Env) :
  exists r i' e',
    breaker_execute rt (targetAgent m) (circuitBreaker i) (routed agent m startTime)
      context (with_info (targetAgent m) i o, e) =
      (r, (with_info (targetAgent m) i' o, e')) /\
    (r = Returned tt /\ route_effect false i i' \/
     (exists error, r = Thrown error) /\ errorCount i' = errorCount i /\
     healthMetrics i' = healthMetrics i) /\
    (always_returns agent m ->
     CircuitBreaker.getState (circuitBreaker i) <> CircuitBreaker.OPEN ->
     r = Returned tt) /\
    (always_throws agent m -> exists error, r = Thrown error).
Proof.
  unfold breaker_execute. rewrite CircuitBreakerProps.execute_run.
  destruct (checkState_St (circuitBreaker i) (with_info (targetAgent m) i o) e)
    as (r0 & cb1 & e1 & -> & Hcheck).
  destruct Hcheck as [[-> Hnot] | (-> & Hopen & [error ->])].
  - destruct (routed_outcome agent m startTime i o e1)
      as (r & i1 & e2 & -> & Hcb & Hcases & Hok & Hfail).
    destruct Hcases as [(-> & Hst & Hcount & Hhm) | ([error ->] & Hcount & Hhm)].
    + destruct (onSuccess_St cb1 (with_info (targetAgent m) i1 o) e2)
        as (cb2 & e3 & -> & Hclosed & Hzero).
      cbn [snd]. rewrite update_info_run.
      eexists _, _, _. split; [reflexivity|]. split; [|split].
      * left. split; [reflexivity|]. unfold route_effect.
        cbn [state errorCount healthMetrics circuitBreaker set_circuitBreaker].
        unfold CircuitBreaker.getState, CircuitBreaker.getFailureCount. auto 10.
      * reflexivity.
      * intros Hthrows. destruct (Hfail Hthrows) as [error He]. discriminate.
    + destruct (onFailure_St cb1 (with_info (targetAgent m) i1 o) e2)
        as (cb2 & e3 & ->).
      cbn [snd]. rewrite update_info_run.
      eexists _, _, _. split; [reflexivity|]. split; [|split].
      * right. cbn [state errorCount healthMetrics circuitBreaker set_circuitBreaker].
        eauto.
      * intros Hreturns _. specialize (Hok Hreturns). discriminate.
      * eauto.
  - rewrite update_info_run.
    eexists _, _, _. split; [reflexivity|]. split; [|split].
    + right. cbn [state errorCount healthMetrics circuitBreaker set_circuitBreaker]. eauto.
    + intros _ Hnot. exfalso. apply Hnot. exact Hopen.
    + eauto.
Qed.

Lemma routeMessage_outcome (m : BaseAgentMessage) (agent : Agent)
    (i : AgentStateInfo) (o : t) (e : Env) :
  agents o !! targetAgent m = Some agent ->
  exists (failed : bool) i' e',
    routeMessage rt m (with_info (targetAgent m) i o, e) =
      (if failed then Thrown (route_error m) else Returned tt,
       (with_info (targetAgent m) i' o, e')) /\
    route_effect failed i i' /\
    (always_returns agent m ->
     CircuitBreaker.getState (circuitBreaker i) <> CircuitBreaker.OPEN ->
     failed = false) /\
    (always_throws agent m -> failed = true).
Proof.
  intros Ha.
  rewrite (routeMessage_run m agent i (with_info (targetAgent m) i o) e);
    [|exact Ha|apply lookup_insert_eq].
  unfold try_catch.
  destruct (breaker_execute_routed agent m (fst (Date_now rt e))
              ("processing message for agent " +:+ targetAgent m) i o
              (snd (Date_now rt e))) as (r & i1 & e1 & -> & Hcases & Hok & Hfail).
  destruct Hcases as [(-> & Heffect) | ([error ->] & Hcount & Hhm)].
  - exists false, i1, e1. split; [reflexivity|]. split; [exact Heffect|].
    split; [reflexivity|]. intros Hthrows. destruct (Hfail Hthrows). discriminate.
  - destruct (route_failed_outcome m (fst (Date_now rt e)) error i1 o e1)
      as (i2 & e2 & -> & Hcb & Hst & Hcount2 & [Hmc Hec]).
    exists true, i2, e2. split; [reflexivity|]. split.
    + unfold route_effect, counted. rewrite <- Hhm. split; [split; assumption|].
      split; [exact Hst|lia].
    + split; [|reflexivity]. intros Hreturns Hnot. specialize (Hok Hreturns Hnot).
      discriminate.
Qed.

(** A call of [routeMessage] that runs alone: the worker acts on the
    environment only, and from the call's start to its end nothing
    else routes to the same agent or touches its entry.  Such a call
    counts the message once and touches nothing but the entry of the
    target: on return the agent is IDLE, its error count is 0, its
    breaker is CLOSED without failures and the metrics count one more
    message and no more errors; on a throw, whether the worker failed
    or the breaker refused the call, the agent is in ERROR, its error
    count is one up, the metrics count one more message and one more
    error, and the error thrown is the orchestrator's own, of no
    declared kind.  (A call that overlaps another on the same agent,
    as an attempt left behind by [withTimeout] does, is not covered:
    see [CircuitBreakerMore.overlapping_calls].) *)
Theorem routeMessage_accounting (m : BaseAgentMessage) (agent : Agent)
    (stateInfo : AgentStateInfo) (o : t) (e : Env) :
  agents o !! targetAgent m = Some agent ->
  agentStates o !! targetAgent m = Some stateInfo ->
  let run := routeMessage rt m (o, e) in
  let o' := fst (snd run) in
  config o' = config o /\ agents o' = agents o /\ messageQueue o' = messageQueue o /\
  (forall other, other <> targetAgent m ->
     agentStates o' !! other = agentStates o !! other) /\
  exists stateInfo',
    agentStates o' !! targetAgent m = Some stateInfo' /\
    HealthMetrics.messageCount (healthMetrics stateInfo') =
      HealthMetrics.messageCount (healthMetrics stateInfo) + 1 /\
    (fst run = Returned tt /\
     state stateInfo' = IDLE /\ errorCount stateInfo' = 0 /\
     CircuitBreaker.getState (circuitBreaker stateInfo') = CircuitBreaker.CLOSED /\
     CircuitBreaker.getFailureCount (circuitBreaker stateInfo') = 0 /\
     HealthMetrics.errorCount (healthMetrics stateInfo') =
       HealthMetrics.errorCount (healthMetrics stateInfo) \/
     fst run =
       Thrown (AgentError None ("Message processing failed for agent " +:+ targetAgent m)) /\
     state stateInfo' = ERROR /\ errorCount stateInfo' = errorCount stateInfo + 1 /\
     HealthMetrics.errorCount (healthMetrics stateInfo') =
       HealthMetrics.errorCount (healthMetrics stateInfo) + 1).
Proof.
  intros Ha Hi. cbn zeta.
  destruct (routeMessage_outcome m agent stateInfo o e Ha)
    as (failed & i1 & e1 & Hrun & [[Hmc Hec] Heffect] & _).
  rewrite (with_info_id (targetAgent m) stateInfo o Hi) in Hrun. rewrite Hrun.
  cbn [fst snd with_info set_agentStates config agents agentStates messageQueue].
  split; [reflexivity|]. split; [reflexivity|]. split; [reflexivity|]. split.
  { intros other Hne. apply lookup_insert_ne. congruence. }
  exists i1. split; [apply lookup_insert_eq|]. split; [exact Hmc|].
  destruct failed.
  - right. destruct Heffect as [Hst Hcount]. auto.
  - left. destruct Heffect as (Hst & Hcount & Hclosed & Hzero).
    rewrite Z.add_0_r in Hec. auto 10.
Qed.

(** *** A healthy agent in the drain loop *)

Definition timer_never_first : Prop :=
  forall ms before after, timer_wins rt ms before after = false.

(** The call the loop makes for a healthy target. *)
Definition routing_attempts (m : BaseAgentMessage) (o : t) : M (t * Env) unit :=
  Utils.withTimeout (timer_wins_St rt)
    (Utils.withRetry (sleep_St rt) (routeMessage rt m) (retry_limit o)
       (default 1000 (retryDelay (config o))) ("routing to " +:+ targetAgent m))
    (default 0 (timeoutMs (base (config o)))) "message routing".

Lemma dispatch_healthy (m : BaseAgentMessage) (agent : Agent) (stateInfo : AgentStateInfo)
    (o : t) (e : Env) :
  agents o !! targetAgent m = Some agent ->
  agentStates o !! targetAgent m = Some stateInfo ->
  healthy_at (fst (Date_now rt e)) o stateInfo = true ->
  dispatch rt m (o, e) =
    try_catch (routing_attempts m o)
      (fun error => log_error rt "Failed to process message:")
      (o, snd (Date_now rt e)).
Proof.
  intros Ha Hi Hh. unfold dispatch. unfold mbind at 1, M_bind at 1, this at 1.
  cbn [fst]. rewrite Ha, Hi. unfold mbind at 1, M_bind at 1.
  rewrite (isAgentHealthy_run rt _ stateInfo) by exact Hi.
  rewrite Hh. reflexivity.
Qed.

Lemma with_info_twice (agentName : string) (i j : AgentStateInfo) (o : t) :
  with_info agentName i (with_info agentName j o) = with_info agentName i o.
Proof.
  unfold with_info, set_agentStates. cbn [config agents agentStates messageQueue].
  rewrite insert_insert_eq. reflexivity.
Qed.

(** [k] failed calls of [routeMessage] in a row. *)
Definition failures_added (k : Z) (before after : AgentStateInfo) : Prop :=
  state after = ERROR /\
  errorCount after = errorCount before + k /\
  HealthMetrics.messageCount (healthMetrics after) =
    HealthMetrics.messageCount (healthMetrics before) + k /\
  HealthMetrics.errorCount (healthMetrics after) =
    HealthMetrics.errorCount (healthMetrics before) + k.

Lemma retry_all_fail (m : BaseAgentMessage) (agent : Agent) (o : t)
    (maxRetries baseDelayMs : Z) (operationName : string)
    (turns : nat) (attempt : Z) (lastError : JsError) (i : AgentStateInfo) (e : Env) :
  agents o !! targetAgent m = Some agent ->
  always_throws agent m ->
  0 <= attempt <= maxRetries ->
  turns = Z.to_nat (maxRetries + 1 - attempt) ->
  exists i' e',
    Utils.withRetry_loop (sleep_St rt) (routeMessage rt m) maxRetries baseDelayMs
      operationName turns attempt lastError (with_info (targetAgent m) i o, e) =
      (Thrown (RetryProps.gave_up operationName maxRetries),
       (with_info (targetAgent m) i' o, e')) /\
    failures_added (maxRetries + 1 - attempt) i i'.
Proof.
  intros Ha Hthrows. revert attempt lastError i e.
  induction turns as [|turns IH]; intros attempt lastError i e Hatt Hturns; [lia|].
  cbn [Utils.withRetry_loop].
  assert (Hle : (attempt <=? maxRetries) = true) by (apply Z.leb_le; lia).
  rewrite Hle. unfold try_catch.
  destruct (routeMessage_outcome m agent i o e Ha)
    as (failed & i1 & e1 & -> & [[Hmc Hec] Heffect] & _ & Hfail).
  rewrite (Hfail Hthrows) in *. destruct Heffect as [Hst Hcount].
  destruct (attempt =? maxRetries) eqn:Elast.
  - apply Z.eqb_eq in Elast. exists i1, e1. split; [reflexivity|].
    unfold failures_added. replace (maxRetries + 1 - attempt) with 1 by lia. auto.
  - apply Z.eqb_neq in Elast. unfold mbind, M_bind, modify.
    change (sleep_St rt (baseDelayMs * 2 ^ attempt) (with_info (targetAgent m) i1 o, e1))
      with (with_info (targetAgent m) i1 o, sleep rt (baseDelayMs * 2 ^ attempt) e1).
    destruct (IH (attempt + 1) (Utils.as_Error (route_error m)) i1
                (sleep rt (baseDelayMs * 2 ^ attempt) e1) ltac:(lia) ltac:(lia))
      as (i2 & e2 & -> & Hst2 & Hcount2 & Hmc2 & Hec2).
    exists i2, e2. split; [reflexivity|]. unfold failures_added.
    split; [exact Hst2|]. split; [lia|]. split; lia.
Qed.

(** A healthy agent whose worker answers is served at the first
    attempt: the loop's pass returns, the agent is IDLE with no errors
    counted and a CLOSED breaker, and its recorder counts one more
    message and no more errors. *)
Theorem healthy_agent_is_served (m : BaseAgentMessage) (agent : Agent)
    (stateInfo : AgentStateInfo) (o : t) (e : Env) :
  agents o !! targetAgent m = Some agent ->
  agentStates o !! targetAgent m = Some stateInfo ->
  healthy_at (fst (Date_now rt e)) o stateInfo = true ->
  always_returns agent m ->
  timer_never_first ->
  0 <= retry_limit o ->
  exists stateInfo' e',
    dispatch rt m (o, e) = (Returned tt, (with_info (targetAgent m) stateInfo' o, e')) /\
    route_effect false stateInfo stateInfo'.
Proof.
  intros Ha Hi Hh Hreturns Htimer Hlimit.
  rewrite (dispatch_healthy m agent stateInfo o e Ha Hi Hh).
  unfold try_catch, routing_attempts, Utils.withTimeout, Utils.withRetry.
  assert (Hturns : Z.to_nat (retry_limit o + 1) = S (Z.to_nat (retry_limit o))) by lia.
  rewrite Hturns. cbn [Utils.withRetry_loop].
  assert (Hle : (0 <=? retry_limit o) = true) by (apply Z.leb_le; lia).
  rewrite Hle. unfold try_catch.
  assert (Hclosed : CircuitBreaker.getState (circuitBreaker stateInfo) <>
                    CircuitBreaker.OPEN).
  { unfold healthy_at in Hh. intros Hopen. rewrite Hopen in Hh. discriminate. }
  destruct (routeMessage_outcome m agent stateInfo o (snd (Date_now rt e)) Ha)
    as (failed & i1 & e1 & Hrun & Heffect & Hok & _).
  rewrite (with_info_id (targetAgent m) stateInfo o Hi) in Hrun. rewrite Hrun.
  rewrite (Hok Hreturns Hclosed) in *.
  unfold timer_wins_St. rewrite Htimer.
  exists i1, e1. split; [reflexivity|exact Heffect].
Qed.

(** A healthy agent whose worker always fails is given up for good,
    provided that the timer of [withTimeout] does not fire before the
    retries are over, that [maxRetries] is not negative and that the
    agent's [errorCount] is not negative.  The pass then makes
    [maxRetries + 1] attempts and returns without throwing; each
    attempt is counted as an error of the agent and in its recorder,
    and the agent is left in ERROR.  From then on every message for the
    agent is dropped by the loop at once, whatever the clock says: the
    worker is not called again, so nothing can take the agent out of
    ERROR. *)
Theorem failing_agent_is_given_up (m : BaseAgentMessage) (agent : Agent)
    (stateInfo : AgentStateInfo) (o : t) (e : Env) :
  agents o !! targetAgent m = Some agent ->
  agentStates o !! targetAgent m = Some stateInfo ->
  healthy_at (fst (Date_now rt e)) o stateInfo = true ->
  always_throws agent m ->
  timer_never_first ->
  0 <= retry_limit o ->
  0 <= errorCount stateInfo ->
  exists stateInfo' e',
    let o' := with_info (targetAgent m) stateInfo' o in
    dispatch rt m (o, e) = (Returned tt, (o', e')) /\
    failures_added (retry_limit o + 1) stateInfo stateInfo' /\
    forall (next : BaseAgentMessage) (later : Env),
      targetAgent next = targetAgent m ->
      dispatch rt next (o', later) =
        (Returned tt,
         (o', console_error rt
                ("Agent " +:+ targetAgent m +:+ " is unhealthy, dropping message")
                (snd (Date_now rt later)))).
Proof.
  intros Ha Hi Hh Hthrows Htimer Hlimit Hcount.
  rewrite (dispatch_healthy m agent stateInfo o e Ha Hi Hh).
  unfold try_catch, routing_attempts, Utils.withTimeout, Utils.withRetry.
  destruct (retry_all_fail m agent o (retry_limit o)
              (default 1000 (retryDelay (config o))) ("routing to " +:+ targetAgent m)
              (Z.to_nat (retry_limit o + 1)) 0 ThrownUndefined stateInfo
              (snd (Date_now rt e)) Ha Hthrows ltac:(lia) ltac:(f_equal; lia))
    as (i1 & e1 & Hrun & Hadded).
  rewrite (with_info_id (targetAgent m) stateInfo o Hi) in Hrun. rewrite Hrun.
  unfold timer_wins_St. rewrite Htimer.
  replace (retry_limit o + 1 - 0) with (retry_limit o + 1) in Hadded by lia.
  eexists i1, _. cbn zeta. split; [reflexivity|]. split; [exact Hadded|].
  intros next later Htarget.
  destruct Hadded as (Hst & Herrors & _).
  rewrite (dispatch_unhealthy rt next agent i1 (with_info (targetAgent m) i1 o) later).
  - cbn zeta.
    assert (Elt : (errorCount i1 <? retry_limit (with_info (targetAgent m) i1 o)) = false).
    { apply Z.ltb_ge. change (retry_limit (with_info (targetAgent m) i1 o))
        with (retry_limit o). lia. }
    rewrite Elt, Htarget. reflexivity.
  - rewrite Htarget. exact Ha.
  - rewrite Htarget. apply lookup_insert_eq.
  - apply stuck_unhealthy. left. exact Hst.
Qed.
End Props.

(** An orchestrator as its constructor leaves it, and one with a worker
    in ERROR and two messages waiting for it. *)
Definition new_orchestrator : t :=
  constructor (mkConfig (mkAgentConfig "orchestrator" None None None None) None None None).

Definition two_waiting : PriorityMessageQueue.t :=
  PriorityMessageQueue.mk [mkQueueItem (example_message "urgent" (Some 9%Q)) 1] []
    [mkQueueItem (example_message "waiting" None) 0] true.

Definition for_nobody : PriorityMessageQueue.t :=
  PriorityMessageQueue.mk [] [mkQueueItem (example_message "lost" (Some 3%Q)) 1] [] false.

Lemma new_orchestrator_in_step : in_step new_orchestrator.
Proof. intros agentName. split; reflexivity. Qed.

Lemma register_unregister_round_trip_witness :
  let worker := mkAgent "worker" IDLE 0 in
  let registered := snd (registerAgent example_runtime worker ["TEST_TYPE"]
                           (new_orchestrator, 10)) in
  fst (registerAgent example_runtime worker ["TEST_TYPE"] (new_orchestrator, 10)) =
    Returned tt /\
  getAgent "worker" (fst registered) = Some worker /\
  unregisterAgent "worker" registered = (Returned tt, (new_orchestrator, snd registered)).
Proof.
  destruct (register_unregister_round_trip example_runtime (mkAgent "worker" IDLE 0)
              ["TEST_TYPE"] new_orchestrator 10 new_orchestrator_in_step eq_refl)
    as (H1 & H2 & _ & _ & H5).
  split; [exact H1|]. split; [exact H2|exact H5].
Defined.

Lemma registration_keeps_maps_in_step_witness :
  in_step (fst (snd (registerAgent example_runtime (mkAgent "worker" IDLE 0) ["TEST_TYPE"]
                       (new_orchestrator, 10)))) /\
  in_step (fst (snd (unregisterAgent "worker" (new_orchestrator, 10)))).
Proof.
  destruct (registration_keeps_maps_in_step example_runtime (mkAgent "worker" IDLE 0)
              ["TEST_TYPE"] "worker" new_orchestrator 10 new_orchestrator_in_step)
    as (H1 & H2 & _).
  split; [exact H1|exact H2].
Defined.

Lemma getAgentHealth_is_consistent_witness :
  let o := example_orchestrator None IDLE 0 (one_waiting false) in
  (exists result,
     getAgentHealth example_runtime "worker" (o, 10) = (Returned result, (o, 12)) /\
     healthy result = true /\ status result = IDLE /\ lastCheck result = 11) /\
  fst (getAgentHealth example_runtime "nobody" (o, 10)) =
    Thrown (AgentError (Some VALIDATION) "Agent nobody is not registered").
Proof.
  destruct (getAgentHealth_is_consistent example_runtime "worker"
              (example_orchestrator None IDLE 0 (one_waiting false)) 10) as [H1 _].
  destruct (getAgentHealth_is_consistent example_runtime "nobody"
              (example_orchestrator None IDLE 0 (one_waiting false)) 10) as [_ H2].
  split.
  - destruct (H1 (mkInfo IDLE 0 0 example_breaker HealthMetrics.constructor) eq_refl)
      as (result & Hrun & _).
    exists result. split; [exact Hrun|].
    vm_compute in Hrun. injection Hrun as <-. repeat split.
  - destruct (H2 eq_refl) as [-> _]. reflexivity.
Defined.

Lemma unknown_targets_are_skipped_witness :
  processQueuedMessages example_runtime 1
    (set_messageQueue for_nobody new_orchestrator, 10) =
    (Returned Finished, (new_orchestrator, 10)).
Proof.
  apply (unknown_targets_are_skipped example_runtime 1
           (set_messageQueue for_nobody new_orchestrator) 10).
  - reflexivity.
  - repeat constructor.
  - cbn. lia.
Defined.

Lemma unhealthy_agent_blocks_the_loop_witness :
  let o := example_orchestrator None ERROR 1 two_waiting in
  fst (drain example_runtime 1000 (o, 10)) = Returned Suspended /\
  PriorityMessageQueue.size (messageQueue (fst (snd (drain example_runtime 1000 (o, 10))))) =
    PriorityMessageQueue.size (messageQueue o).
Proof.
  assert (Hstuck : stuck (example_orchestrator None ERROR 1 two_waiting) "worker").
  { exists (mkAgent "worker" IDLE 0),
      (mkInfo ERROR 0 1 example_breaker HealthMetrics.constructor).
    split; [reflexivity|]. split; [reflexivity|]. split; [left; reflexivity|].
    vm_compute. reflexivity. }
  destruct (unhealthy_agent_blocks_the_loop example_runtime 1000
              (example_orchestrator None ERROR 1 two_waiting) 10)
    as (H1 & _ & _ & H4 & _).
  - repeat constructor; apply stuck_stays_unhealthy; exact Hstuck.
  - discriminate.
  - split; [exact H1|exact H4].
Defined.

(** The example runtime with workers that always fail. *)
Definition failing_runtime : Runtime Z :=
  {| Date_now := fun e => (e, e + 1);
     sleep := fun ms e => e + ms;
     timer_wins := fun _ _ _ => false;
     console_warn := fun _ e => e;
     console_error := fun _ e => e;
     worker_processMessage := fun _ _ e => (Thrown (Error "worker down"), e + 5);
     ZodError_message := fun _ => "Required" |}.

Lemma healthy_agent_is_served_witness :
  let o := example_orchestrator None IDLE 0 (one_waiting true) in
  exists stateInfo' e',
    dispatch example_runtime (example_message "job" None) (o, 10) =
      (Returned tt, (with_info "worker" stateInfo' o, e')) /\
    route_effect false (mkInfo IDLE 0 0 example_breaker HealthMetrics.constructor)
      stateInfo'.
Proof.
  apply (healthy_agent_is_served example_runtime (example_message "job" None)
           (mkAgent "worker" IDLE 0)
           (mkInfo IDLE 0 0 example_breaker HealthMetrics.constructor)
           (example_orchestrator None IDLE 0 (one_waiting true)) 10).
  - reflexivity.
  - reflexivity.
  - vm_compute. reflexivity.
  - intros e. reflexivity.
  - intros ms before after. reflexivity.
  - vm_compute. discriminate.
Defined.

Lemma failing_agent_is_given_up_witness :
  let o := example_orchestrator None IDLE 0 (one_waiting true) in
  exists stateInfo' e',
    dispatch failing_runtime (example_message "job" None) (o, 10) =
      (Returned tt, (with_info "worker" stateInfo' o, e')) /\
    failures_added 4 (mkInfo IDLE 0 0 example_breaker HealthMetrics.constructor) stateInfo'.
Proof.
  destruct (failing_agent_is_given_up failing_runtime (example_message "job" None)
              (mkAgent "worker" IDLE 0)
              (mkInfo IDLE 0 0 example_breaker HealthMetrics.constructor)
              (example_orchestrator None IDLE 0 (one_waiting true)) 10)
    as (stateInfo' & e' & Hrun & Hadded & _).
  - reflexivity.
  - reflexivity.
  - vm_compute. reflexivity.
  - intros e. eexists. reflexivity.
  - intros ms before after. reflexivity.
  - vm_compute. discriminate.
  - cbn. lia.
  - exists stateInfo', e'. split; [exact Hrun|exact Hadded].
Defined.

Lemma routeMessage_accounting_witness :
  let o := example_orchestrator None IDLE 2 (one_waiting true) in
  let run := routeMessage example_runtime (example_message "job" None) (o, 10) in
  agents (fst (snd run)) = agents o /\
  messageQueue (fst (snd run)) = messageQueue o /\
  exists stateInfo',
    agentStates (fst (snd run)) !! "worker" = Some stateInfo' /\
    HealthMetrics.messageCount (healthMetrics stateInfo') = 1.
Proof.
  destruct (routeMessage_accounting example_runtime (example_message "job" None)
              (mkAgent "worker" IDLE 0)
              (mkInfo IDLE 0 2 example_breaker HealthMetrics.constructor)
              (example_orchestrator None IDLE 2 (one_waiting true)) 10 eq_refl eq_refl)
    as (_ & H2 & H3 & _ & stateInfo' & H5 & H6 & _).
  split; [exact H2|]. split; [exact H3|]. exists stateInfo'. split; [exact H5|exact H6].
Defined.

(** A worker that is IDLE and has no error counted, but was last active
    more than [timeoutMs] ago: after a thousand passes both messages
    are still waiting and the worker has not been called. *)
Example idle_worker_is_never_called :
  let run := drain example_runtime 1000
               (example_orchestrator None IDLE 0 two_waiting, 40000) in
  fst run = Returned Suspended /\
  getQueueStats (fst (snd run)) =
    ({| PriorityMessageQueue.total := 2; PriorityMessageQueue.stats_high := 1;
        PriorityMessageQueue.stats_normal := 0; PriorityMessageQueue.stats_low := 1 |},
     true) /\
  agentStates (fst (snd run)) =
    agentStates (example_orchestrator None IDLE 0 two_waiting) /\
  snd (snd run) = 42000.
Proof. vm_compute. auto. Qed.

End OrchestratorMore.

(** ** The registry: capacity over time, and the core agents *)

Module AgentRegistryMore.
Import AgentRegistry AgentRegistryProps.

(** What can happen to a registry between its construction and its
    disposal. *)
Inductive Call : Type :=
| Call_register (name : string) (agent : option Agent)
| Call_tick.

Definition call (c : Call) (r : t) : t :=
  match c with
  | Call_register name agent => snd (registerAgent name agent r)
  | Call_tick => healthCheck r
  end.

(** The registry after [calls], failed registrations included. *)
Definition after (calls : list Call) (r : t) : t := foldl (fun r c => call c r) r calls.

(** Never more agents than [maxAgents], and a health record for
    exactly the registered names. *)
Definition within_capacity (r : t) : Prop :=
  Z.of_nat (base.size (agents r)) <= Z.max 0 (maxAgents r) /\
  forall name, agents r !! name = None <-> lastHealthCheck r !! name = None.

Lemma registerAgent_within_capacity (name : string) (agent : option Agent) (r : t) :
  within_capacity r ->
  within_capacity (snd (registerAgent name agent r)) /\
  maxAgents (snd (registerAgent name agent r)) = maxAgents r.
Proof.
  intros [Hsize Hstep]. unfold registerAgent.
  destruct agent as [a|]; [|split; [split; assumption|reflexivity]].
  destruct (bool_decide (is_Some (agents r !! name))) eqn:Htaken;
    [split; [split; assumption|reflexivity]|].
  apply bool_decide_eq_false in Htaken.
  destruct (Z.of_nat (base.size (agents r)) >=? maxAgents r) eqn:Hfull;
    [split; [split; assumption|reflexivity]|].
  assert (Hfree : agents r !! name = None).
  { destruct (agents r !! name) eqn:E; [exfalso; apply Htaken; eauto|reflexivity]. }
  assert (Hroom : Z.of_nat (base.size (agents r)) < maxAgents r).
  { destruct (Z.ltb_spec (Z.of_nat (base.size (agents r))) (maxAgents r)) as [H|H];
      [exact H|]. apply Z.geb_le in H. congruence. }
  cbn [snd]. split; [split|reflexivity]; cbn [agents maxAgents lastHealthCheck].
  - rewrite map_size_insert_None by exact Hfree. lia.
  - intros n. destruct (decide (n = name)) as [->|Hne].
    + rewrite !lookup_insert_eq. split; discriminate.
    + rewrite !lookup_insert_ne by congruence. apply Hstep.
Qed.

Lemma healthCheck_within_capacity (r : t) :
  within_capacity r -> within_capacity (healthCheck r).
Proof.
  intros [Hsize Hstep]. split; [exact Hsize|].
  intros n. cbn [healthCheck agents lastHealthCheck].
  rewrite lookup_union_None, map_lookup_imap.
  specialize (Hstep n). destruct (agents r !! n) as [a|] eqn:E; cbn.
  - split; [discriminate|]. intros [H _]. discriminate.
  - split; [intros _; split; [reflexivity|apply Hstep; reflexivity]|reflexivity].
Qed.

Lemma after_within_capacity (calls : list Call) (r : t) :
  within_capacity r ->
  within_capacity (after calls r) /\ maxAgents (after calls r) = maxAgents r.
Proof.
  revert r. induction calls as [|c calls IH]; intros r Hr; [split; [exact Hr|reflexivity]|].
  cbn [after foldl]. fold (after calls (call c r)).
  destruct c as [name agent|]; cbn [call].
  - destruct (registerAgent_within_capacity name agent r Hr) as [H1 H2].
    destruct (IH _ H1) as [H3 H4]. split; [exact H3|congruence].
  - destruct (IH _ (healthCheck_within_capacity r Hr)) as [H3 H4].
    split; [exact H3|exact H4].
Qed.

(** Whatever is registered, in whatever order and however often the
    health check runs in between, a registry never holds more agents
    than the [maxAgents] it was built with, keeps a health record for
    exactly the registered names, and reports one [AgentHealth] per
    agent; [dispose] empties it. *)
Theorem registry_stays_within_capacity (cfg : option RegistryConfig) (calls : list Call) :
  let r := after calls (constructor cfg) in
  maxAgents r = default 10 (cfg ≫= config_maxAgents) /\
  Z.of_nat (base.size (agents r)) <= Z.max 0 (maxAgents r) /\
  (forall name, is_Some (getAgent name r) <-> is_Some (lastHealthCheck r !! name)) /\
  length (getAgentHealth r) = base.size (agents r) /\
  agents (dispose r) = ∅ /\ getAgentHealth (dispose r) = [].
Proof.
  cbn zeta.
  assert (H0 : within_capacity (constructor cfg)).
  { split; [cbn; rewrite map_size_empty; lia|]. intros n. cbn.
    rewrite !lookup_empty. split; reflexivity. }
  destruct (after_within_capacity calls _ H0) as [[Hsize Hstep] Hmax].
  split; [rewrite Hmax; reflexivity|]. split; [exact Hsize|].
  assert (Hsome : forall name,
             is_Some (getAgent name (after calls (constructor cfg))) <->
             is_Some (lastHealthCheck (after calls (constructor cfg)) !! name)).
  { intros n. unfold getAgent. rewrite <- !not_eq_None_Some.
    specialize (Hstep n). tauto. }
  split; [exact Hsome|]. split.
  - unfold getAgentHealth. rewrite length_fmap, length_map_to_list.
    rewrite <- (size_dom (D := gset string) (lastHealthCheck (after calls (constructor cfg)))).
    rewrite <- (size_dom (D := gset string) (agents (after calls (constructor cfg)))).
    f_equal. apply set_eq. intros n. rewrite !elem_of_dom. symmetry. apply Hsome.
  - split; reflexivity.
Qed.

(** *** The core agents *)

Definition core_names : list string :=
  ["orchestrator"; "compatibility"; "eslint"; "deployment"].

Definition worker_names : list string := ["compatibility"; "eslint"; "deployment"].

Section CoreAgents.
Context {Env : Type}.
Variable rt : Runtime Env.
Variable new_ESLint : M Env unit.
Hypothesis new_ESLint_returns : forall e, fst (new_ESLint e) = Returned tt.

Lemma new_agent_run (agentName : string) (c : Core) (e : Env) :
  new_agent rt agentName (c, e) =
    (Returned (mkAgent agentName IDLE (fst (Date_now rt e))), (c, snd (Date_now rt e))).
Proof. unfold new_agent, on_snd. destruct (Date_now rt e). reflexivity. Qed.

Lemma on_registry_run {A} (m : M t A) (c : Core) (e : Env) :
  on_registry m (c, e) =
    (fst (m (registry c)), (mkCore (snd (m (registry c))) (orchestrator c), e)).
Proof. unfold on_registry. destruct (m (registry c)). reflexivity. Qed.

Lemma on_orchestrator_register (agent : Agent) (messageTypes : list string)
    (r : t) (o : OrchestratorAgent.t) (e : Env) :
  OrchestratorAgent.agents o !! getName agent = None ->
  on_orchestrator (OrchestratorAgent.registerAgent rt agent messageTypes)
    (mkCore r (Some o), e) =
    (Returned tt,
     (mkCore r
        (Some (OrchestratorAgent.mk (OrchestratorAgent.config o)
                 (<[getName agent := agent]> (OrchestratorAgent.agents o))
                 (<[getName agent := OrchestratorMore.fresh_info rt o e]>
                    (OrchestratorAgent.agentStates o))
                 (OrchestratorAgent.messageQueue o))),
      snd (Date_now rt (snd (Date_now rt e))))).
Proof.
  intros Hnew. unfold on_orchestrator. cbn [orchestrator registry].
  rewrite (OrchestratorMore.registerAgent_new rt agent messageTypes o e Hnew).
  reflexivity.
Qed.

Lemma new_ESLint_run (c : Core) (e : Env) :
  on_snd new_ESLint (c, e) = (Returned tt, (c, snd (new_ESLint e))).
Proof.
  unfold on_snd. pose proof (new_ESLint_returns e) as H.
  destruct (new_ESLint e) as [r e']. cbn in H. subst r. reflexivity.
Qed.

Ltac next := unfold mbind at 1, M_bind at 1.

Ltac fresh_name :=
  cbn [agents registry OrchestratorAgent.agents OrchestratorAgent.constructor];
  repeat (rewrite lookup_insert_ne by discriminate); apply lookup_empty.

Ltac count_agents :=
  cbn [agents maxAgents registry];
  repeat (rewrite map_size_insert_None by fresh_name);
  rewrite map_size_empty.

Ltac accepted :=
  next; rewrite on_registry_run;
  rewrite registerAgent_accepted by (first [fresh_name | count_agents; lia]);
  cbn [fst snd registry orchestrator].

Ltac refused :=
  next; rewrite on_registry_run;
  rewrite registerAgent_full by (first [fresh_name | count_agents; lia]);
  cbn [fst snd registry orchestrator].

Ltac constructed := next; rewrite new_agent_run.

Ltac enter :=
  unfold initializeCoreAgents;
  next; rewrite on_registry_run; cbn [fst snd];
  constructed; next; cbn [registry orchestrator].

Ltac constructed_all :=
  constructed; constructed; next; rewrite new_ESLint_run; constructed.

Theorem initializeCoreAgents_needs_four_slots (c : Core) (e : Env) :
  let run := initializeCoreAgents rt new_ESLint (c, e) in
  let c' := fst (snd run) in
  (4 <= maxAgents (registry c) ->
   fst run = Returned tt /\
   (forall name, is_Some (getAgent name (registry c')) <-> name ∈ core_names) /\
   exists o,
     orchestrator c' = Some o /\
     (forall name, is_Some (OrchestratorAgent.getAgent name o) <-> name ∈ worker_names)) /\
  (maxAgents (registry c) < 4 ->
   fst run = Thrown registry_full /\
   Z.of_nat (base.size (agents (registry c'))) = Z.max 0 (maxAgents (registry c)) /\
   exists o, orchestrator c' = Some o /\ OrchestratorAgent.agents o = ∅).
Proof.
  cbn zeta. set (run := initializeCoreAgents rt new_ESLint (c, e)). split.
  - intros Hmax.
    eassert (Hrun : run = _).
    { subst run. enter. accepted. constructed_all. accepted. accepted. accepted.
      next. rewrite on_orchestrator_register by fresh_name.
      next. rewrite on_orchestrator_register by fresh_name.
      rewrite on_orchestrator_register by fresh_name.
      reflexivity. }
    rewrite Hrun. clear Hrun run. cbn [fst snd registry orchestrator].
    split; [reflexivity|]. split.
    + intros name. unfold getAgent, core_names. cbn [agents].
      rewrite !lookup_insert_is_Some', lookup_empty, !elem_of_cons, elem_of_nil.
      split; intros H.
      * repeat (destruct H as [<-|H]; [tauto|]). apply is_Some_None in H. contradiction.
      * repeat (destruct H as [->|H]; [tauto|]). contradiction.
    + eexists. split; [reflexivity|].
      intros name. unfold OrchestratorAgent.getAgent, worker_names.
      cbn [OrchestratorAgent.agents OrchestratorAgent.constructor getName].
      rewrite !lookup_insert_is_Some', lookup_empty, !elem_of_cons, elem_of_nil.
      split; intros H.
      * repeat (destruct H as [<-|H]; [tauto|]). apply is_Some_None in H. contradiction.
      * repeat (destruct H as [->|H]; [tauto|]). contradiction.
  - intros Hmax.
    assert (Hcases : maxAgents (registry c) <= 0 \/ maxAgents (registry c) = 1 \/
                     maxAgents (registry c) = 2 \/ maxAgents (registry c) = 3) by lia.
    destruct Hcases as [H0 | [H1 | [H2 | H3]]].
    + eassert (Hrun : run = _).
      { subst run. enter. refused. reflexivity. }
      rewrite Hrun. clear Hrun run. cbn [fst snd registry orchestrator agents].
      split; [reflexivity|]. split; [rewrite map_size_empty; lia|].
      eexists. split; reflexivity.
    + eassert (Hrun : run = _).
      { subst run. enter. accepted. constructed_all. refused. reflexivity. }
      rewrite Hrun. clear Hrun run. cbn [fst snd registry orchestrator].
      split; [reflexivity|]. split; [count_agents; lia|].
      eexists. split; reflexivity.
    + eassert (Hrun : run = _).
      { subst run. enter. accepted. constructed_all. accepted. refused. reflexivity. }
      rewrite Hrun. clear Hrun run. cbn [fst snd registry orchestrator].
      split; [reflexivity|]. split; [count_agents; lia|].
      eexists. split; reflexivity.
    + eassert (Hrun : run = _).
      { subst run. enter. accepted. constructed_all. accepted. accepted. refused.
        reflexivity. }
      rewrite Hrun. clear Hrun run. cbn [fst snd registry orchestrator].
      split; [reflexivity|]. split; [count_agents; lia|].
      eexists. split; reflexivity.
Qed.
End CoreAgents.

Definition ready_ESLint : M Z unit := fun e => (Returned tt, e).

Lemma initializeCoreAgents_needs_four_slots_witness :
  let c := mkCore (constructor (Some (mkConfig (Some 3) None))) None in
  let run := initializeCoreAgents OrchestratorProps.example_runtime ready_ESLint (c, 10) in
  fst run = Thrown registry_full /\
  Z.of_nat (base.size (agents (registry (fst (snd run))))) = Z.max 0 (maxAgents (registry c)) /\
  exists o, orchestrator (fst (snd run)) = Some o /\ OrchestratorAgent.agents o = ∅.
Proof.
  apply (initializeCoreAgents_needs_four_slots OrchestratorProps.example_runtime
           ready_ESLint (fun e => eq_refl)
           (mkCore (constructor (Some (mkConfig (Some 3) None))) None) 10).
  vm_compute. reflexivity.
Defined.

End AgentRegistryMore.

(** ** The version checker *)

Module CompatibilityAgentMore.
Import CompatibilityAgent.

Definition rejected : JsError :=
  AgentError (Some VALIDATION) "Incompatible versions detected".

Section Props.
Variable semver_clean : string -> option string.
Variable semver_satisfies : string -> string -> Outcome bool.

Local Abbreviation compatible := (isVersionCompatible semver_clean semver_satisfies).

(** The three checks of [checkVersions] as one condition. *)
Definition accepted (this : VersionMatrix) (payload : Payload) : bool :=
  compatible (viteVersion payload) (vite this)
  && (negb (given (reactVersion payload))
      || compatible (default "" (reactVersion payload)) (react this))
  && (negb (given (nextVersion payload))
      || compatible (default "" (nextVersion payload)) (next this)).

Lemma checkVersions_run (payload : Payload) (this : VersionMatrix) :
  checkVersions semver_clean semver_satisfies payload this =
    (if accepted this payload then Returned tt else Thrown rejected, this).
Proof.
  unfold checkVersions, incompatibleVersions, accepted.
  destruct (compatible (viteVersion payload) (vite this));
    destruct (given (reactVersion payload));
    destruct (compatible (default "" (reactVersion payload)) (react this));
    destruct (given (nextVersion payload));
    destruct (compatible (default "" (nextVersion payload)) (next this));
    reflexivity.
Qed.

Lemma isVersionCompatible_incl (version : string) (l l' : list string) :
  incl l l' -> compatible version l = true -> compatible version l' = true.
Proof.
  unfold isVersionCompatible. intros Hincl H.
  apply existsb_exists in H as (x & Hx & Hok).
  apply existsb_exists. exists x. split; [apply Hincl, Hx|exact Hok].
Qed.

(** [checkVersions] has two outcomes only, even when semver throws: it
    returns, or it throws the VALIDATION error "Incompatible versions
    detected", and it never changes the matrix.  A Vite version is
    always checked, so a matrix without supported Vite versions rejects
    every message, while a React or Next.js version that is absent or
    empty is not checked at all.  Supporting more versions never turns
    an accepted message into a rejected one. *)
Theorem checkVersions_verdict (this this' : VersionMatrix) (payload : Payload) :
  incl (vite this) (vite this') ->
  incl (react this) (react this') ->
  incl (next this) (next this') ->
  let check := checkVersions semver_clean semver_satisfies payload in
  (check this = (Returned tt, this) \/ check this = (Thrown rejected, this)) /\
  (check this = (Returned tt, this) -> check this' = (Returned tt, this')) /\
  (vite this = [] -> check this = (Thrown rejected, this)) /\
  (compatible (viteVersion payload) (vite this) = true ->
   given (reactVersion payload) = false ->
   given (nextVersion payload) = false ->
   check this = (Returned tt, this)).
Proof.
  intros Hv Hr Hn. cbn zeta. rewrite !checkVersions_run.
  split; [destruct (accepted this payload); auto|]. split; [|split].
  - intros Hok. assert (Hacc : accepted this payload = true).
    { destruct (accepted this payload); [reflexivity|discriminate]. }
    clear Hok. unfold accepted in *.
    apply andb_prop in Hacc as [Hacc H3]. apply andb_prop in Hacc as [H1 H2].
    rewrite (isVersionCompatible_incl _ _ _ Hv H1). cbn [andb].
    assert (H2' : negb (given (reactVersion payload))
                  || compatible (default "" (reactVersion payload)) (react this') = true).
    { apply orb_prop in H2 as [H2|H2]; [rewrite H2; reflexivity|].
      rewrite (isVersionCompatible_incl _ _ _ Hr H2). apply orb_true_r. }
    assert (H3' : negb (given (nextVersion payload))
                  || compatible (default "" (nextVersion payload)) (next this') = true).
    { apply orb_prop in H3 as [H3|H3]; [rewrite H3; reflexivity|].
      rewrite (isVersionCompatible_incl _ _ _ Hn H3). apply orb_true_r. }
    rewrite H2', H3'. reflexivity.
  - intros Hempty. unfold accepted. rewrite Hempty. reflexivity.
  - intros H1 H2 H3. unfold accepted. rewrite H1, H2, H3. reflexivity.
Qed.
End Props.

(** A stand-in for semver: a range such as ["5.x"] is satisfied by the
    versions that start with its first character; a leading "v" is
    cleaned away. *)
Definition toy_clean (version : string) : option string :=
  if String.eqb (substring 0 1 version) "v"
  then Some (substring 1 (String.length version - 1) version)
  else None.

Definition toy_satisfies (version range : string) : Outcome bool :=
  Returned (String.eqb (substring 0 1 version) (substring 0 1 range)).

Lemma checkVersions_verdict_witness :
  let this := DEFAULT_VERSION_MATRIX in
  let this' := updateVersionMatrix (mkPartial (Some ["4.x"; "5.x"]) None None) this in
  let payload := mkPayload "v5.1.0" (Some "") None in
  checkVersions toy_clean toy_satisfies payload this = (Returned tt, this) /\
  checkVersions toy_clean toy_satisfies payload this' = (Returned tt, this').
Proof.
  destruct (checkVersions_verdict toy_clean toy_satisfies DEFAULT_VERSION_MATRIX
              (updateVersionMatrix (mkPartial (Some ["4.x"; "5.x"]) None None)
                 DEFAULT_VERSION_MATRIX)
              (mkPayload "v5.1.0" (Some "") None)) as (_ & H2 & _ & H4).
  - intros x Hx. right. exact Hx.
  - intros x Hx. exact Hx.
  - intros x Hx. exact Hx.
  - assert (H : checkVersions toy_clean toy_satisfies (mkPayload "v5.1.0" (Some "") None)
                  DEFAULT_VERSION_MATRIX = (Returned tt, DEFAULT_VERSION_MATRIX))
      by (apply H4; reflexivity).
    split; [exact H|apply H2, H].
Defined.

End CompatibilityAgentMore.

(** ** The build step *)

Module DeploymentAgentMore.
Import DeploymentAgent.

Section Props.
Context {Env : Type}.
Variable Date_now : Env -> Z * Env.
Variable Math_random : Env -> Q * Env.
Variable sleep : Q -> Env -> Env.
Variable console_log : BuildResult -> Env -> Env.

Local Abbreviation build := (buildProject Date_now Math_random sleep console_log).

(** The second number drawn by [mockBuildProcess] when the build is
    started in [e]. *)
Definition second_draw (e : Env) : Q :=
  fst (Math_random (snd (Math_random (snd (Date_now e))))).

Lemma buildProject_run (projectPath : string) (previous : option BuildResult) (e : Env) :
  projectPath <> "" ->
  build projectPath (previous, e) =
    let startTime := fst (Date_now e) in
    let e1 := snd (Date_now e) in
    let r1 := fst (Math_random e1) in
    let e3 := snd (Math_random (snd (Math_random e1))) in
    if num_lt (second_draw e) (1 # 10) then
      let finished := fst (Date_now e3) in
      let result :=
        mkBuild failed (finished - startTime) (Some ["Random build failure"]) None None in
      (Thrown (Error "Random build failure"),
       (Some result, console_log result (snd (Date_now e3))))
    else
      let e4 := sleep (r1 * 2000 + 1000) e3 in
      let finished := fst (Date_now e4) in
      let result :=
        mkBuild success (finished - startTime) None None
          (Some ["dist/index.html"; "dist/assets/main.js"; "dist/assets/style.css"]) in
      (Returned tt, (Some result, console_log result (snd (Date_now e4)))).
Proof.
  intros Hpath. cbn zeta. unfold buildProject, second_draw.
  assert (E : String.eqb projectPath "" = false) by (apply String.eqb_neq; exact Hpath).
  rewrite E.
  unfold try_catch, mbind, M_bind, set_currentBuild, now, on_snd, set_status,
    mockBuildProcess, message_of, sendMessage, modify, throw, mret, M_ret.
  destruct (Date_now e) as [startTime e1]. cbn [fst snd].
  destruct (Math_random e1) as [r1 e2]. cbn [fst snd].
  destruct (Math_random e2) as [r2 e3]. cbn [fst snd].
  destruct (num_lt r2 (1 # 10)).
  - destruct (Date_now e3) as [finished e4]. reflexivity.
  - destruct (Date_now (sleep (r1 * 2000 + 1000) e3)) as [finished e4]. reflexivity.
Qed.

(** A build that starts is always settled.  With a project path given,
    [buildProject] leaves a [currentBuild] that is a success when it
    returns and a failure when it throws, never one that is still
    pending or building, whatever build was recorded before.  It fails
    exactly when the second random number drawn is below 0.1, and then
    rethrows the build's own error and records its message.  The
    duration is the clock reading taken when the build has settled (at
    once after the two draws on a failure, after the build timer of
    1000 + 2000 * the first draw on a success) minus the reading taken
    at the start, and the result is logged once, after that reading.
    Without a project path it throws a VALIDATION error and changes
    nothing. *)
Theorem build_is_always_settled (projectPath : string) (previous : option BuildResult)
    (e : Env) :
  projectPath <> "" ->
  let run := build projectPath (previous, e) in
  let startTime := fst (Date_now e) in
  let first_draw := fst (Math_random (snd (Date_now e))) in
  let drawn := snd (Math_random (snd (Math_random (snd (Date_now e))))) in
  let settled :=
    if num_lt (second_draw e) (1 # 10) then drawn
    else sleep (first_draw * 2000 + 1000) drawn in
  (exists result,
     getCurrentBuild (snd run) = Some result /\
     duration result = fst (Date_now settled) - startTime /\
     snd (snd run) = console_log result (snd (Date_now settled)) /\
     warnings result = None /\
     if num_lt (second_draw e) (1 # 10)
     then fst run = Thrown (Error "Random build failure") /\
          status result = failed /\
          errors result = Some ["Random build failure"] /\ artifacts result = None
     else fst run = Returned tt /\
          status result = success /\ errors result = None /\
          artifacts result =
            Some ["dist/index.html"; "dist/assets/main.js"; "dist/assets/style.css"]) /\
  build "" (previous, e) =
    (Thrown (AgentError (Some VALIDATION) "Project path is required"), (previous, e)).
Proof.
  intros Hpath. cbn zeta. split; [|reflexivity].
  rewrite (buildProject_run projectPath previous e Hpath). cbn zeta.
  destruct (num_lt (second_draw e) (1 # 10)).
  - eexists. cbn. repeat split.
  - eexists. cbn. repeat split.
Qed.
End Props.

(** A clock that advances by one at each reading and by the length of
    every timer that runs out, and random sources that draw 0.05 or
    0.5 every time. *)
Definition tick (e : Z) : Z * Z := (e, e + 1).
Definition unlucky (e : Z) : Q * Z := ((5 # 100)%Q, e).
Definition lucky (e : Z) : Q * Z := ((1 # 2)%Q, e).
Definition wait (ms : Q) (e : Z) : Z := e + Qnum ms / Zpos (Qden ms).
Definition quiet (payload : BuildResult) (e : Z) : Z := e.

Lemma build_is_always_settled_witness :
  buildProject tick lucky wait quiet "/app" (None, 100) =
    (Returned tt,
     (Some (mkBuild success 2001 None None
              (Some ["dist/index.html"; "dist/assets/main.js"; "dist/assets/style.css"])),
      2102)) /\
  buildProject tick unlucky wait quiet "/app" (None, 100) =
    (Thrown (Error "Random build failure"),
     (Some (mkBuild failed 1 (Some ["Random build failure"]) None None), 102)).
Proof.
  split.
  - destruct (build_is_always_settled tick lucky wait quiet "/app" None 100)
      as [(result & H1 & H2 & H3 & H4 & H5 & H6 & H7 & H8) _]; [discriminate|].
    destruct (buildProject tick lucky wait quiet "/app" (None, 100)) as [r [b e']].
    destruct result as [st d er wa ar]. cbn in H1, H2, H3, H4, H5, H6, H7, H8.
    subst. reflexivity.
  - destruct (build_is_always_settled tick unlucky wait quiet "/app" None 100)
      as [(result & H1 & H2 & H3 & H4 & H5 & H6 & H7 & H8) _]; [discriminate|].
    destruct (buildProject tick unlucky wait quiet "/app" (None, 100)) as [r [b e']].
    destruct result as [st d er wa ar]. cbn in H1, H2, H3, H4, H5, H6, H7, H8.
    subst. reflexivity.
Defined.

End DeploymentAgentMore.

(** ** The orchestrator: admission of a message *)

Module AdmissionProps.
Import OrchestratorAgent OrchestratorProps.
Import PriorityMessageQueueMore.

(** Nothing else runs. *)
Definition alone {Env} (s : t * Env) : t * Env := s.

Section Props.
Context {Env : Type}.
Variable rt : Runtime Env.

(** The orchestrator and the environment once [m] has been put on the
    queue in [s], with one reading of the clock. *)
Definition admitted (m : BaseAgentMessage) (s : t * Env) : t * Env :=
  (with_enqueued (fst (Date_now rt (snd s))) m (fst s), snd (Date_now rt (snd s))).

Lemma processMessage_run (others1 others2 : t * Env -> t * Env) (input : Unknown)
    (s : t * Env) :
  processMessage rt others1 others2 input s =
    match OrchestratorMessageSchema_parse input with
    | None =>
        (Thrown (AgentError (Some VALIDATION)
                   ("Invalid message format: " +:+ ZodError_message rt input)),
         others1 s)
    | Some m =>
        if PriorityMessageQueue.size (messageQueue (fst (others1 s)))
             >=? queue_limit (fst (others1 s))
        then (Thrown (AgentError None "Message queue is full"), others1 s)
        else
          let s3 := others2 (admitted m (others1 s)) in
          if PriorityMessageQueue.isProcessing (messageQueue (fst s3))
          then (Returned NotStarted, s3)
          else processQueuedMessages_begin s3
    end.
Proof.
  unfold processMessage, await, validateOrchestratorMessage.
  unfold mbind at 1, M_bind at 1.
  destruct (OrchestratorMessageSchema_parse input) as [m|]; [|reflexivity].
  unfold mret at 1, M_ret at 1.
  unfold mbind at 1, M_bind at 1, this at 1. unfold queue_limit.
  destruct (_ >=? _); [reflexivity|].
  unfold mbind at 1, M_bind at 1.
  destruct (others1 s) as [o1 e1]. rewrite (queue_enqueue_run rt).
  unfold admitted. cbn [fst snd].
  unfold mbind at 1, M_bind at 1, this at 1.
  destruct (PriorityMessageQueue.isProcessing _); reflexivity.
Qed.

(** The start of the loop on an idle queue. *)
Lemma processQueuedMessages_begin_run (o : t) (e : Env) :
  PriorityMessageQueue.isProcessing (messageQueue o) = false ->
  processQueuedMessages_begin (o, e) =
    match items (messageQueue o) with
    | [] => (Returned Over, (o, e))
    | x :: _ =>
        (Returned (Waiting (Some (message x))),
         (set_messageQueue
            (PriorityMessageQueue.set_isProcessing true
               (snd (PriorityMessageQueue.dequeue (messageQueue o)))) o, e))
    end.
Proof.
  destruct o as [c a st [h n l flag]]. cbn [messageQueue]. intros Hidle.
  unfold PriorityMessageQueue.isProcessing in Hidle. cbn in Hidle. subst flag.
  unfold processQueuedMessages_begin, mbind, M_bind, this, set_queue_isProcessing,
    assign, mret, M_ret, queue_dequeue, items.
  cbn [fst messageQueue set_messageQueue PriorityMessageQueue.isProcessing
       PriorityMessageQueue._isProcessing PriorityMessageQueue.set_isProcessing
       PriorityMessageQueue.high PriorityMessageQueue.normal PriorityMessageQueue.low].
  unfold PriorityMessageQueue.dequeue.
  rewrite !PriorityMessageQueueProps.dequeueItem_cases.
  unfold PriorityMessageQueue.size.
  cbn [PriorityMessageQueue.high PriorityMessageQueue.normal PriorityMessageQueue.low
       PriorityMessageQueue._isProcessing].
  destruct h as [|x h]; [destruct n as [|y n]; [destruct l as [|z l]|]|];
    cbn [app]; try reflexivity;
    match goal with |- context [?a >? 0] =>
      replace (a >? 0) with true
        by (symmetry; apply Z.gtb_lt;
            cbn [PriorityMessageQueue.set_isProcessing PriorityMessageQueue.high
                 PriorityMessageQueue.normal PriorityMessageQueue.low length];
            lia)
    end; reflexivity.
Qed.

(** A loop started and resumed is the loop of [processQueuedMessages]. *)
Lemma processQueuedMessages_resume (passes : nat) (s : t * Env) :
  processQueuedMessages rt (S passes) s =
    (loop ← processQueuedMessages_begin; resume rt passes loop) s.
Proof.
  destruct s as [o e]. unfold processQueuedMessages, processQueuedMessages_begin.
  cbn [drain].
  unfold mbind, M_bind, this, set_queue_isProcessing, assign, mret, M_ret, queue_dequeue.
  cbn [fst].
  destruct (PriorityMessageQueue.isProcessing (messageQueue o)); [reflexivity|].
  cbn [fst messageQueue set_messageQueue].
  destruct (PriorityMessageQueue.size _ >? 0); [|reflexivity].
  destruct (PriorityMessageQueue.dequeue _) as [[m|] q1]; reflexivity.
Qed.

Lemma admitted_items (m : BaseAgentMessage) (s : t * Env) :
  Permutation (items (messageQueue (fst (admitted m s))))
    (mkQueueItem m (fst (Date_now rt (snd s))) :: items (messageQueue (fst s))).
Proof. apply enqueue_at_items. Qed.

(** C5, as the code has it, for a call beside which anything else may
    run while it waits at its two [await]s.  [processMessage]
    validates the message shape first: a malformed message is rejected
    with a VALIDATION error whatever the size of the queue, and the
    call enqueues nothing.  A well-formed message is rejected with the
    error "Message queue is full" whenever the size of the shared
    queue is then at or above [maxQueueSize] (1000 when absent), and
    the call leaves the queue as it was.  Otherwise the message is
    enqueued in the three-tier queue with one reading of the clock,
    and nothing but the queue changes.  After that, if [isProcessing]
    is set, no loop is started and the call changes nothing more.  If
    it is not set, the drain loop is started: when [processMessage]
    returns, the loop has set the flag, has taken the message at the
    head of the queue off it and waits for it; no worker has been
    called and nothing but the queue has changed.  (Had the queue been
    emptied meanwhile, the loop is over at once with the flag clear.)
    Last, for a call that runs alone: the loop is started exactly when
    [isProcessing] was not set at the call, the queue is then as long
    at the return as it was at the call, and on a queue that was empty
    the message the loop holds is the one just admitted. *)
Theorem processMessage_admission :
  (forall (others1 others2 : t * Env -> t * Env) (input : Unknown) (s : t * Env),
     OrchestratorMessageSchema_parse input = None ->
     exists err,
       processMessage rt others1 others2 input s = (Thrown err, others1 s) /\
       error_type err = Some VALIDATION) /\
  (forall (others1 others2 : t * Env -> t * Env) (input : Unknown) (m : BaseAgentMessage)
          (s : t * Env),
     OrchestratorMessageSchema_parse input = Some m ->
     queue_limit (fst (others1 s)) <=
       PriorityMessageQueue.size (messageQueue (fst (others1 s))) ->
     exists err,
       processMessage rt others1 others2 input s = (Thrown err, others1 s) /\
       error_message err = "Message queue is full") /\
  (forall (others1 others2 : t * Env -> t * Env) (input : Unknown) (m : BaseAgentMessage)
          (s : t * Env),
     OrchestratorMessageSchema_parse input = Some m ->
     PriorityMessageQueue.size (messageQueue (fst (others1 s))) <
       queue_limit (fst (others1 s)) ->
     let s1 := others1 s in
     let s2 := admitted m s1 in
     let s3 := others2 s2 in
     let run := processMessage rt others1 others2 input s in
     let o' := fst (snd run) in
     Permutation (items (messageQueue (fst s2)))
       (mkQueueItem m (fst (Date_now rt (snd s1))) :: items (messageQueue (fst s1))) /\
     PriorityMessageQueue.isProcessing (messageQueue (fst s2)) =
       PriorityMessageQueue.isProcessing (messageQueue (fst s1)) /\
     config (fst s2) = config (fst s1) /\ agents (fst s2) = agents (fst s1) /\
     agentStates (fst s2) = agentStates (fst s1) /\
     (PriorityMessageQueue.isProcessing (messageQueue (fst s3)) = true ->
      run = (Returned NotStarted, s3)) /\
     (PriorityMessageQueue.isProcessing (messageQueue (fst s3)) = false ->
      config o' = config (fst s3) /\ agents o' = agents (fst s3) /\
      agentStates o' = agentStates (fst s3) /\ snd (snd run) = snd s3 /\
      match items (messageQueue (fst s3)) with
      | [] => fst run = Returned Over /\ messageQueue o' = messageQueue (fst s3)
      | x :: rest =>
          fst run = Returned (Waiting (Some (message x))) /\
          items (messageQueue o') = rest /\
          PriorityMessageQueue.isProcessing (messageQueue o') = true /\
          messageQueue o' =
            PriorityMessageQueue.set_isProcessing true
              (snd (PriorityMessageQueue.dequeue (messageQueue (fst s3))))
      end)) /\
  (forall (input : Unknown) (m : BaseAgentMessage) (o : t) (e : Env),
     OrchestratorMessageSchema_parse input = Some m ->
     PriorityMessageQueue.size (messageQueue o) < queue_limit o ->
     let run := processMessage rt alone alone input (o, e) in
     let o' := fst (snd run) in
     (PriorityMessageQueue.isProcessing (messageQueue o) = true ->
      fst run = Returned NotStarted /\
      PriorityMessageQueue.size (messageQueue o') =
        PriorityMessageQueue.size (messageQueue o) + 1) /\
     (PriorityMessageQueue.isProcessing (messageQueue o) = false ->
      exists head : BaseAgentMessage,
        fst run = Returned (Waiting (Some head)) /\
        PriorityMessageQueue.isProcessing (messageQueue o') = true /\
        PriorityMessageQueue.size (messageQueue o') =
          PriorityMessageQueue.size (messageQueue o) /\
        (PriorityMessageQueue.size (messageQueue o) = 0 -> head = m))).
Proof.
  split; [|split; [|split]].
  - intros others1 others2 input s Hparse. rewrite processMessage_run, Hparse.
    eexists. split; reflexivity.
  - intros others1 others2 input m s Hparse Hfull. rewrite processMessage_run, Hparse.
    assert (E : (PriorityMessageQueue.size (messageQueue (fst (others1 s)))
                 >=? queue_limit (fst (others1 s))) = true) by (apply Z.geb_le; lia).
    rewrite E. eexists. split; reflexivity.
  - intros others1 others2 input m s Hparse Hroom. cbn zeta.
    rewrite processMessage_run, Hparse.
    assert (E : (PriorityMessageQueue.size (messageQueue (fst (others1 s)))
                 >=? queue_limit (fst (others1 s))) = false).
    { destruct (_ >=? _) eqn:G; [|reflexivity]. apply Z.geb_le in G. lia. }
    rewrite E. cbn zeta.
    split; [apply admitted_items|].
    split; [apply PriorityMessageQueueProps.enqueue_at_isProcessing|].
    split; [reflexivity|]. split; [reflexivity|]. split; [reflexivity|].
    destruct (others2 (admitted m (others1 s))) as [o3 e3]. cbn [fst snd].
    split.
    + intros ->. reflexivity.
    + intros Hidle. rewrite Hidle, (processQueuedMessages_begin_run o3 e3 Hidle).
      destruct (dequeue_items (messageQueue o3)) as (_ & D2 & _).
      destruct (items (messageQueue o3)) as [|x rest] eqn:Hitems.
      * cbn [fst snd]. repeat split.
      * cbn [fst snd config agents agentStates messageQueue set_messageQueue].
        repeat split. exact D2.
  - intros input m o e Hparse Hroom. cbn zeta.
    set (ms := fst (Date_now rt e)).
    set (queue := PriorityMessageQueue.enqueue_at ms m (messageQueue o)).
    pose proof (enqueue_at_items ms m (messageQueue o)) as Hperm. fold queue in Hperm.
    pose proof (PriorityMessageQueueProps.enqueue_at_size ms m (messageQueue o)) as Hsize.
    fold queue in Hsize.
    assert (Hflag : PriorityMessageQueue.isProcessing queue =
                    PriorityMessageQueue.isProcessing (messageQueue o))
      by apply PriorityMessageQueueProps.enqueue_at_isProcessing.
    assert (Hrun : processMessage rt alone alone input (o, e) =
                   if PriorityMessageQueue.isProcessing (messageQueue o)
                   then (Returned NotStarted, (set_messageQueue queue o, snd (Date_now rt e)))
                   else processQueuedMessages_begin
                          (set_messageQueue queue o, snd (Date_now rt e))).
    { rewrite processMessage_run, Hparse. unfold alone. cbn [fst snd].
      assert (E : (PriorityMessageQueue.size (messageQueue o) >=? queue_limit o) = false).
      { destruct (_ >=? _) eqn:G; [|reflexivity]. apply Z.geb_le in G. lia. }
      rewrite E. cbn zeta. unfold admitted, with_enqueued.
      cbn [fst snd messageQueue set_messageQueue]. fold ms. fold queue.
      rewrite Hflag. reflexivity. }
    rewrite Hrun. split.
    + intros Hset. rewrite Hset.
      cbn [fst snd messageQueue set_messageQueue]. split; [reflexivity|exact Hsize].
    + intros Hidle. rewrite Hidle.
      rewrite processQueuedMessages_begin_run
        by (cbn [messageQueue set_messageQueue]; congruence).
      cbn [messageQueue set_messageQueue].
      destruct (dequeue_items queue) as (_ & D2 & _).
      destruct (items queue) as [|x rest] eqn:Hitems.
      { apply Permutation_nil in Hperm. discriminate. }
      exists (message x). cbn [fst snd messageQueue set_messageQueue].
      split; [reflexivity|]. split; [reflexivity|].
      assert (Hrest : items (PriorityMessageQueue.set_isProcessing true
                               (snd (PriorityMessageQueue.dequeue queue))) = rest)
        by exact D2.
      split.
      * rewrite (OrchestratorMore.size_items
                   (PriorityMessageQueue.set_isProcessing true
                      (snd (PriorityMessageQueue.dequeue queue)))), Hrest.
        rewrite (OrchestratorMore.size_items queue), Hitems in Hsize.
        cbn [length] in Hsize. lia.
      * intros Hempty.
        rewrite (OrchestratorMore.size_items (messageQueue o)) in Hempty.
        destruct (items (messageQueue o)) as [|y ys]; [|cbn [length] in Hempty; lia].
        apply Permutation_sym, Permutation_length_1_inv in Hperm.
        injection Hperm as -> _. reflexivity.
Qed.
End Props.

(** A second call, whose message is put on the queue while the first
    call waits for its own [enqueue]. *)
Definition second_enqueued (s : t * Z) : t * Z :=
  admitted example_runtime (example_message "second" None) s.

(** The first call's start of the loop, seen from a second call that
    waits for its own [enqueue]. *)
Definition first_started (s : t * Z) : t * Z := snd (processQueuedMessages_begin s).

Lemma processMessage_admission_witness :
  (exists err,
     processMessage example_runtime alone alone (NotAnObject JsNull)
       (example_orchestrator (Some 1) IDLE 0 (one_waiting true), 10) =
       (Thrown err, (example_orchestrator (Some 1) IDLE 0 (one_waiting true), 10)) /\
     error_type err = Some VALIDATION) /\
  (exists err,
     processMessage example_runtime alone alone (to_unknown (example_message "new" None))
       (example_orchestrator (Some 1) IDLE 0 (one_waiting true), 10) =
       (Thrown err, (example_orchestrator (Some 1) IDLE 0 (one_waiting true), 10)) /\
     error_message err = "Message queue is full") /\
  (let o := example_orchestrator (Some 2) IDLE 0 (one_waiting true) in
   processMessage example_runtime alone alone (to_unknown (example_message "new" None))
     (o, 10) =
     (Returned NotStarted,
      (example_orchestrator (Some 2) IDLE 0
         (PriorityMessageQueue.enqueue_at 10 (example_message "new" None)
            (one_waiting true)), 11))) /\
  (let o := example_orchestrator None IDLE 0 PriorityMessageQueue.constructor in
   let run := processMessage example_runtime alone second_enqueued
                (to_unknown (example_message "first" (Some 6%Q))) (o, 10) in
   fst run = Returned (Waiting (Some (example_message "first" (Some 6%Q)))) /\
   items (messageQueue (fst (snd run))) = [mkQueueItem (example_message "second" None) 11] /\
   PriorityMessageQueue.isProcessing (messageQueue (fst (snd run))) = true) /\
  (let o := example_orchestrator None IDLE 0 PriorityMessageQueue.constructor in
   let run := processMessage example_runtime alone alone
                (to_unknown (example_message "new" None)) (o, 10) in
   fst run = Returned (Waiting (Some (example_message "new" None))) /\
   PriorityMessageQueue.isProcessing (messageQueue (fst (snd run))) = true /\
   PriorityMessageQueue.size (messageQueue (fst (snd run))) = 0).
Proof.
  destruct (processMessage_admission example_runtime) as (A1 & A2 & A3 & A4).
  split; [|split; [|split; [|split]]].
  - apply (A1 alone alone). reflexivity.
  - apply (A2 alone alone _ (example_message "new" None));
      [reflexivity|vm_compute; discriminate].
  - destruct (A3 alone alone (to_unknown (example_message "new" None))
                (example_message "new" None)
                (example_orchestrator (Some 2) IDLE 0 (one_waiting true), 10))
      as (_ & _ & _ & _ & _ & Hset & _);
      [reflexivity|vm_compute; reflexivity|].
    apply Hset. reflexivity.
  - destruct (A3 alone second_enqueued (to_unknown (example_message "first" (Some 6%Q)))
                (example_message "first" (Some 6%Q))
                (example_orchestrator None IDLE 0 PriorityMessageQueue.constructor, 10))
      as (_ & _ & _ & _ & _ & _ & Hclear);
      [reflexivity|vm_compute; reflexivity|].
    destruct (Hclear eq_refl) as (_ & _ & _ & _ & Hloop).
    destruct Hloop as (Hloop & Hrest & Hflag & _).
    split; [exact Hloop|]. split; [exact Hrest|exact Hflag].
  - destruct (A4 (to_unknown (example_message "new" None)) (example_message "new" None)
                (example_orchestrator None IDLE 0 PriorityMessageQueue.constructor) 10)
      as [_ Hclear]; [reflexivity|vm_compute; reflexivity|].
    destruct (Hclear eq_refl) as (head & Hloop & Hflag & Hsize & Hfirst).
    rewrite (Hfirst eq_refl) in Hloop.
    split; [exact Hloop|]. split; [exact Hflag|exact Hsize].
Defined.

(** The queue is at [maxQueueSize] and the message is malformed: the
    error is the VALIDATION error, not the queue-full error. *)
Lemma processMessage_full_counterexample :
  let o := example_orchestrator (Some 1) IDLE 0 (one_waiting true) in
  PriorityMessageQueue.size (messageQueue o) = queue_limit o /\
  fst (processMessage example_runtime alone alone (NotAnObject JsNull) (o, 10)) =
    Thrown (AgentError (Some VALIDATION) "Invalid message format: Required") /\
  Some VALIDATION <> AgentErrorType_member "OPERATION".
Proof.
  cbn zeta. split; [reflexivity|]. split; [reflexivity|]. discriminate.
Qed.

(** Two calls made one after the other on an idle orchestrator, before
    either has gone past its first [await]: the first call's message is
    enqueued, then the second's, then the first call starts the loop,
    and the second call finds the flag set and starts none.  Both calls
    leave the same orchestrator behind. *)
Example concurrent_calls_start_one_loop :
  let start :=
    (example_orchestrator None IDLE 0 PriorityMessageQueue.constructor, 10) in
  let first :=
    processMessage example_runtime alone second_enqueued
      (to_unknown (example_message "first" (Some 6%Q))) start in
  let second :=
    processMessage example_runtime
      (admitted example_runtime (example_message "first" (Some 6%Q))) first_started
      (to_unknown (example_message "second" None)) start in
  fst first = Returned (Waiting (Some (example_message "first" (Some 6%Q)))) /\
  fst second = Returned NotStarted /\
  snd first = snd second /\
  getQueueStats (fst (snd second)) =
    ({| PriorityMessageQueue.total := 1; PriorityMessageQueue.stats_high := 0;
        PriorityMessageQueue.stats_normal := 0; PriorityMessageQueue.stats_low := 1 |},
     true).
Proof. vm_compute. repeat split. Qed.

(** A well-formed message for a healthy worker, admitted on an idle
    orchestrator.  When [processMessage] returns the loop holds the
    message and the flag is set; the worker has not been called.  The
    pass the loop then takes routes the message: the queue is empty,
    the flag is cleared and one success is on record. *)
Example routed_after_return :
  let start :=
    (example_orchestrator None IDLE 0 PriorityMessageQueue.constructor, 10) in
  let returned :=
    processMessage example_runtime alone alone
      (to_unknown (example_message "m1" (Some 6%Q))) start in
  let later := resume example_runtime 0 (Waiting (Some (example_message "m1" (Some 6%Q))))
                 (snd returned) in
  returned =
    (Returned (Waiting (Some (example_message "m1" (Some 6%Q)))),
     (example_orchestrator None IDLE 0 (PriorityMessageQueue.mk [] [] [] true), 11)) /\
  fst later = Returned Finished /\
  messageQueue (fst (snd later)) = PriorityMessageQueue.constructor /\
  (HealthMetrics.messageCount ∘ healthMetrics
     <$> agentStates (fst (snd later)) !! "worker") = Some 1.
Proof. vm_compute. repeat split. Qed.

(** A worker that always fails is tried [maxRetries + 1 = 4] times in
    the pass that follows the return; the third failure opens its
    breaker, which rejects the fourth try. *)
Example dropped_after_retries :
  let failing : Runtime Z :=
    mkRuntime Z (fun e => (e, e + 1)) (fun ms e => e + ms) (fun _ _ _ => false)
      (fun _ e => e) (fun _ e => e)
      (fun _ _ e => (Thrown (Error "Always fails"), e + 5)) (fun _ => "Required") in
  let start :=
    (example_orchestrator None IDLE 0 PriorityMessageQueue.constructor, 10) in
  let returned :=
    processMessage failing alone alone (to_unknown (example_message "m1" None)) start in
  let later := resume failing 0 (Waiting (Some (example_message "m1" None)))
                 (snd returned) in
  fst returned = Returned (Waiting (Some (example_message "m1" None))) /\
  agentStates (fst (snd returned)) = agentStates (fst start) /\
  fst later = Returned Finished /\
  ((fun info =>
      (errorCount info,
       CircuitBreaker.state (circuitBreaker info),
       CircuitBreaker.failures (circuitBreaker info)))
     <$> agentStates (fst (snd later)) !! "worker") =
    Some (4, CircuitBreaker.OPEN, 3).
Proof. vm_compute. repeat split. Qed.

End AdmissionProps.
